(** * b_lepton_met: lepton scale-factor correctors and the Z->ll processor

    A shallow embedding of [wprime_plus_b/corrections/lepton.py] and of
    [wprime_plus_b/processors/ztoll_processor.py].

    Conventions of the embedding:
    - floating-point columns are idealised as exact rationals ([Q]); rounding
      is outside the model;
    - a Python exception is a value of [exn]; a method that mutates the shared
      weights container is a function of the explicit store, and the store
      survives a raised exception as it does in Python;
    - the external services (correctionlib tables, coffea containers, the
      selection helpers of other modules) are taken as deterministic
      functions, given as section variables. *)

From Stdlib Require Import List String Ascii Bool Arith ZArith QArith Qminmax Qabs Lia Permutation.
From Stdlib Require DecimalString DecimalZ DecimalPos.
Import ListNotations.
Open Scope string_scope.

Set Implicit Arguments.

(** ** Python exceptions *)

Inductive exn : Type :=
| AssertionError (msg : string)
| UnboundLocalError (var : string)
| KeyError (key : string)
| ValueError (msg : string)
| IndexError (msg : string)
| LookupFailure (msg : string).

Definition result (A : Type) : Type := (exn + A)%type.

Definition is_error {A : Type} (r : result A) : bool :=
  match r with inl _ => true | inr _ => false end.

(** ** Python dictionaries as insertion-ordered association lists *)

Module Dict.

Definition t (V : Type) : Type := list (string * V).

Fixpoint get {V : Type} (d : t V) (k : string) : option V :=
  match d with
  | [] => None
  | (k', v) :: d' => if String.eqb k k' then Some v else get d' k
  end.

(** [d[k] = v]: an existing key keeps its position, a new key goes last. *)
Fixpoint set {V : Type} (d : t V) (k : string) (v : V) : t V :=
  match d with
  | [] => [(k, v)]
  | (k', v') :: d' =>
      if String.eqb k k' then (k', v) :: d' else (k', v') :: set d' k v
  end.

Definition keys {V : Type} (d : t V) : list string := map fst d.

Definition mem {V : Type} (d : t V) (k : string) : bool :=
  existsb (String.eqb k) (keys d).

End Dict.

(** ** Event batches

    A chunk is a list of events under one schema: which trigger and filter
    branches exist, and whether the generator weight exists, is a property of
    the chunk, so every column has one entry per event. *)

Record Lepton : Type := mkLepton {
  l_pt : Q; l_eta : Q; l_phi : Q; l_mass : Q;
  l_charge : Z; l_pdgId : Z
}.

Record JetObj : Type := mkJet {
  j_pt : Q; j_eta : Q; j_phi : Q; j_mass : Q
}.

Record Met : Type := mkMet { met_pt : Q; met_phi : Q }.

Record LorentzVector : Type := mkVec {
  v_pt : Q; v_eta : Q; v_phi : Q; v_mass : Q
}.

Record Event : Type := mkEvent {
  run : Z;
  luminosityBlock : Z;
  genWeight : Q;
  npvsGood : Z;
  Electron : list Lepton;
  Muon : list Lepton;
  Jet : list JetObj;
  MET : Met;
  HLT : string -> bool;
  Flag : string -> bool
}.

Record Events : Type := mkEvents {
  dataset : string;
  has_genWeight : bool;
  HLT_fields : list string;
  Flag_fields : list string;
  rows : list Event
}.

(** [len(events)] *)
Definition len (events : Events) : nat := List.length (rows events).

(** [ak.flatten] and [ak.num] of a ragged collection. *)
Definition ak_flatten {A : Type} (xs : list (list A)) : list A := List.concat xs.

Definition ak_num {A : Type} (xs : list (list A)) : list nat :=
  map (@List.length A) xs.

(** ** numpy helpers on rational columns *)

(** [np.clip(x, lo, hi)] is [minimum(maximum(x, lo), hi)]. *)
Definition clip (lo hi : Q) (x : Q) : Q := Qmin (Qmax x lo) hi.

Definition np_clip (xs : list Q) (lo hi : Q) : list Q := map (clip lo hi) xs.

Definition np_abs (xs : list Q) : list Q := map Qabs xs.

Definition Qsum (xs : list Q) : Q := fold_right Qplus 0%Q xs.

(** ** coffea.analysis_tools.Weights

    The container keeps the running elementwise product [_weight], the
    individual factors in registration order, each with the [Up]/[Down]
    arrays it was registered with (the container keeps their ratio to the
    weight as its modifiers), and the statistics [_weightStats] of the factors
    whose registration went through. *)

Record Factor : Type := mkFactor {
  f_name : string;
  f_weight : list Q;
  f_up : option (list Q);
  f_down : option (list Q)
}.

Record WeightStatistics : Type := mkStats {
  ws_sumw : Q;
  ws_sumw2 : Q;
  ws_minw : Q;
  ws_maxw : Q;
  ws_n : nat
}.

Record Weights : Type := mkWeights {
  w_weight : list Q;
  w_factors : list Factor;
  w_stats : Dict.t WeightStatistics
}.

Definition Weights_new (size : nat) : Weights :=
  mkWeights (repeat 1%Q size) [] [].

Fixpoint mul_arrays (a b : list Q) : list Q :=
  match a, b with
  | x :: a', y :: b' => (x * y)%Q :: mul_arrays a' b'
  | _, _ => []
  end.

(** [a * b] on two flat arrays: numpy broadcasts when the lengths are equal
    or one of them is one, and raises otherwise ([None]). *)
Definition broadcast_mul (a b : list Q) : option (list Q) :=
  if Nat.eqb (List.length a) (List.length b) then Some (mul_arrays a b)
  else match a, b with
       | [x], _ => Some (map (fun y => x * y)%Q b)
       | _, [y] => Some (map (fun x => x * y)%Q a)
       | _, _ => None
       end.

(** [s.endswith(suffix)] *)
Definition endswith (s suffix : string) : bool :=
  let n := String.length s in
  let k := String.length suffix in
  Nat.leb k n && String.eqb (substring (n - k) k s) suffix.

(** [variation[weight != 0.0] /= weight[weight != 0.0]] needs a variation
    array of the length of the weight: a boolean index of another length is
    an IndexError. *)
Definition variation_fits (weight : list Q) (variation : option (list Q))
  : bool :=
  match variation with
  | None => true
  | Some v => Nat.eqb (List.length v) (List.length weight)
  end.

(** [WeightStatistics(weight.sum(), (weight**2).sum(), weight.min(),
    weight.max(), weight.size)]; [min] of an array without entries raises
    ([None]). *)
Definition statistics_of (weight : list Q) : option WeightStatistics :=
  match weight with
  | [] => None
  | x :: rest =>
      Some (mkStats (Qsum weight) (Qsum (map (fun y => y * y)%Q weight))
              (fold_left Qmin rest x) (fold_left Qmax rest x)
              (List.length weight))
  end.

(** [Weights.add(name, weight, weightUp, weightDown)], step by step: the
    check of the name, the product [self._weight * weight], the factor, its
    variations, its statistics.  A step that raises leaves the container with
    what the steps before it have stored. *)
Definition Weights_add (name : string) (weight : list Q)
    (weightUp weightDown : option (list Q)) (w : Weights)
  : result unit * Weights :=
  if endswith name "Up" || endswith name "Down" then
    (inl (ValueError
       "Avoid using 'Up' and 'Down' in weight names, instead pass appropriate shifts to add() call"),
     w)
  else
    match broadcast_mul (w_weight w) weight with
    | None => (inl (ValueError "operands could not be broadcast together"), w)
    | Some product =>
        let stored up down :=
          mkWeights product
            (w_factors w ++ [mkFactor name weight up down])%list (w_stats w) in
        if negb (variation_fits weight weightUp) then
          (inl (IndexError "boolean index did not match indexed array"),
           stored None None)
        else if negb (variation_fits weight weightDown) then
          (inl (IndexError "boolean index did not match indexed array"),
           stored weightUp None)
        else
          match statistics_of weight with
          | None =>
              (inl (ValueError
                 "zero-size array to reduction operation minimum which has no identity"),
               stored weightUp weightDown)
          | Some statistics =>
              (inr tt,
               mkWeights product
                 (w_factors w ++ [mkFactor name weight weightUp weightDown])%list
                 (Dict.set (w_stats w) name statistics))
          end
    end.

Definition Weights_weight (w : Weights) : list Q := w_weight w.

(** ** The external scale-factor service

    An argument of [Correction.evaluate] is a string or a flat column.  A
    correction set maps a correction name and an argument list to a flat
    column of scale factors, or fails. *)

Inductive arg : Type :=
| AStr (s : string)
| ANum (xs : list Q).

Record Lookup : Type := mkLookup {
  lk_key : string;
  lk_args : list arg
}.

Definition CorrectionSet : Type := string -> list arg -> result (list Q).

(** The store a corrector works on: the shared weights container and the log
    of the lookups sent to the scale-factor service. *)
Record Store : Type := mkStore {
  st_weights : Weights;
  st_lookups : list Lookup
}.

(** Exceptions over an explicit store: a computation returns its result or
    the raised exception, together with the store as it was left. *)
Definition St (S A : Type) : Type := S -> result A * S.

Definition ret {S A : Type} (a : A) : St S A := fun s => (inr a, s).

Definition raise {S A : Type} (e : exn) : St S A := fun s => (inl e, s).

Definition bind {S A B : Type} (m : St S A) (k : A -> St S B) : St S B :=
  fun s =>
    match m s with
    | (inl e, s') => (inl e, s')
    | (inr a, s') => k a s'
    end.

(** A computation that does not touch the store. *)
Definition lift {S A : Type} (r : result A) : St S A := fun s => (r, s).

Notation "x <- m ;; k" := (bind m (fun x => k))
  (at level 61, m at next level, right associativity).
Notation "m ;;; k" := (bind m (fun _ => k))
  (at level 61, right associativity).

Definition M (A : Type) : Type := St Store A.

Definition rbind {A B : Type} (r : result A) (k : A -> result B) : result B :=
  match r with
  | inl e => inl e
  | inr a => k a
  end.

Notation "x <~ r ;; k" := (rbind r (fun x => k))
  (at level 61, r at next level, right associativity).

Definition py_assert {S : Type} (b : bool) (msg : string) : St S unit :=
  if b then ret tt else raise (AssertionError msg).

(** [d[k]] on a dictionary. *)
Definition dict_getitem {S V : Type} (d : Dict.t V) (k : string) : St S V :=
  match Dict.get d k with
  | Some v => ret v
  | None => raise (KeyError k)
  end.

(** Reading a local variable that an earlier branch may have left unbound. *)
Definition read_local {S V : Type} (name : string) (v : option V) : St S V :=
  match v with
  | Some x => ret x
  | None => raise (UnboundLocalError name)
  end.

(** A helper of another module that works on the shared weights container. *)
Definition on_weights (f : Weights -> result Weights) : M unit :=
  fun s =>
    match f (st_weights s) with
    | inl e => (inl e, s)
    | inr w => (inr tt, mkStore w (st_lookups s))
    end.

(** [cset[key].evaluate] on an argument list: the call is logged, then
    answered. *)
Definition evaluate (cset : CorrectionSet) (key : string) (args : list arg)
  : M (list Q) :=
  fun s =>
    (cset key args,
     mkStore (st_weights s) (st_lookups s ++ [mkLookup key args])%list).

(** [self.weights.add(...)] on the shared container. *)
Definition weights_add (name : string) (weight : list Q)
    (weightUp weightDown : option (list Q)) : M unit :=
  fun s =>
    let (r, w) := Weights_add name weight weightUp weightDown (st_weights s) in
    (r, mkStore w (st_lookups s)).

(** [str.replace(old, empty)]: every occurrence of [old] is removed. *)
Fixpoint drop_prefix (n : nat) (s : string) : string :=
  match n, s with
  | S n', String _ s' => drop_prefix n' s'
  | _, _ => s
  end.

Fixpoint remove_all_fuel (fuel : nat) (old s : string) : string :=
  match fuel with
  | O => s
  | S fuel' =>
      match s with
      | EmptyString => EmptyString
      | String c s' =>
          if String.prefix old s
          then remove_all_fuel fuel' old (drop_prefix (String.length old) s)
          else String c (remove_all_fuel fuel' old s')
      end
  end.

Definition str_remove (old s : string) : string :=
  if String.eqb old EmptyString then s else remove_all_fuel (String.length s) old s.

(** ** Selection configuration of [selections/ztoll/config.py] *)

Record ElectronSelection : Type := mkElectronSelection {
  electron_pt_threshold : Q;
  electron_id_wp : string;
  electron_iso_wp : string
}.

Record MuonSelection : Type := mkMuonSelection {
  muon_pt_threshold : Q;
  muon_id_wp : string;
  muon_iso_wp : string
}.

Record JetSelection : Type := mkJetSelection {
  jet_pt_threshold : Q;
  jet_id : Z;
  jet_pileup_id : string;
  btag_working_point : string
}.

(** ** External collaborators

    Everything the two modules import from the rest of the package or read
    from package data, gathered in one environment. *)

Record Environment : Type := mkEnvironment {
  (** [unflat_sf(sf, n)] of [corrections/utils.py]: from the flat per-object
      scale factors and the per-event object counts to one weight per event. *)
  unflat_sf : list Q -> list nat -> list Q;
  (** [pog_years] of [corrections/utils.py], and the correction set that
      [correctionlib.CorrectionSet.from_file(get_pog_json(json_name, year))]
      loads, or the exception it raises. *)
  pog_years : Dict.t string;
  get_cset : string -> string -> result CorrectionSet;
  (** Selection configuration and object predicates of [selections/ztoll]. *)
  ztoll_electron_selection : ElectronSelection;
  ztoll_muon_selection : MuonSelection;
  ztoll_jet_selection : JetSelection;
  select_good_electrons : Q -> string -> string -> Event -> Lepton -> bool;
  select_good_muons : Q -> string -> string -> Event -> Lepton -> bool;
  select_good_bjets : string -> Q -> Z -> string -> string -> JetObj -> bool;
  delta_r_mask : list Lepton -> Q -> JetObj -> bool;
  (** Jet energy corrections of [corrections/jec.py], per event. *)
  jet_corrections : string -> Event -> list JetObj * Met;
  (** The table-driven shift that [corrections/met.py] applies to simulation. *)
  met_phi_shift : Q -> Q -> Z -> string -> string -> Q * Q;
  (** Weight helpers of the other correction modules. *)
  add_l1prefiring_weight : Events -> string -> string -> Weights -> result Weights;
  add_pileup_weight :
    Events -> string -> string -> string -> Weights -> result Weights;
  add_pujetid_weight :
    list (list JetObj) -> string -> string -> string -> string ->
    Weights -> result Weights;
  add_btag_weights :
    list (list JetObj) -> string -> string -> string -> string -> string ->
    bool -> string -> string -> Weights -> result Weights;
  (** Package data: certified-luminosity mask, trigger and filter lists. *)
  lumi_mask : string -> Z -> Z -> bool;
  triggers : Dict.t (Dict.t (list string));
  metfilters_json : Dict.t (Dict.t (list string));
  (** Four-vector helpers of the vector library, and [normalize] of
      [processors/utils/analysis_utils.py]. *)
  add_vectors : Lepton -> Lepton -> LorentzVector;
  delta_phi : Q -> Q -> Q;
  delta_r : Lepton -> Lepton -> Q;
  np_sqrt : Q -> Q;
  np_cos : Q -> Q;
  normalize : list (option Q) -> list Q
}.

Section Correctors.

Variable env : Environment.

(** ** ElectronCorrector *)

Record ElectronCorrector : Type := mkElectronCorrector {
  e_variation : string;
  electrons_pt : list Q;
  electrons_eta : list Q;
  e_n : list nat;
  e_cset : CorrectionSet;
  e_year : string;
  e_year_mod : string;
  e_pog_year : string
}.

Definition ElectronCorrector_init (electrons : list (list Lepton))
    (year year_mod variation : string) : M ElectronCorrector :=
  let e := ak_flatten electrons in
  let n := ak_num electrons in
  cset <- lift ((get_cset env) "electron" (year ++ year_mod)) ;;
  pog_year <- dict_getitem (pog_years env) (year ++ year_mod) ;;
  ret (mkElectronCorrector variation (map l_pt e) (map l_eta e) n cset
         year year_mod pog_year).

Definition electron_id_args (self : ElectronCorrector) (variant wp : string)
    (eta pt : list Q) : list arg :=
  [AStr (str_remove "_UL" (e_pog_year self)); AStr variant; AStr wp;
   ANum eta; ANum pt].

Definition electron_sf (self : ElectronCorrector) (variant wp : string)
    (eta pt : list Q) : M (list Q) :=
  sf <- evaluate (e_cset self) "UL-Electron-ID-SF"
          (electron_id_args self variant wp eta pt) ;;
  ret (unflat_sf env sf (e_n self)).

Definition electron_add (self : ElectronCorrector) (name wp : string)
    (electron_eta electron_pt : list Q) : M unit :=
  nominal_sf <- electron_sf self "sf" wp electron_eta electron_pt ;;
  if String.eqb (e_variation self) "nominal" then
    up_sf <- electron_sf self "sfup" wp electron_eta electron_pt ;;
    down_sf <- electron_sf self "sfdown" wp electron_eta electron_pt ;;
    weights_add name nominal_sf (Some up_sf) (Some down_sf)
  else
    weights_add name nominal_sf None None.

Definition ElectronCorrector_add_id_weight (self : ElectronCorrector)
    (id_working_point : string) : M unit :=
  let electron_eta := electrons_eta self in
  let electron_pt := np_clip (electrons_pt self) 10 (499999 # 1000) in
  electron_add self "electron_id" id_working_point electron_eta electron_pt.

Definition ElectronCorrector_add_reco_weight (self : ElectronCorrector)
  : M unit :=
  let electron_eta := electrons_eta self in
  let electron_pt := np_clip (electrons_pt self) (201 # 10) (499999 # 1000) in
  electron_add self "electron_reco" "RecoAbove20" electron_eta electron_pt.

(** ** MuonCorrector *)

Record MuonCorrector : Type := mkMuonCorrector {
  m_variation : string;
  id_wp : string;
  iso_wp : string;
  muons_pt : list Q;
  muons_eta : list Q;
  m_n : list nat;
  m_cset : CorrectionSet;
  m_year : string;
  m_year_mod : string;
  m_pog_year : string
}.

Definition MuonCorrector_init (muons : list (list Lepton))
    (year year_mod variation id_wp iso_wp : string) : M MuonCorrector :=
  let m := ak_flatten muons in
  let n := ak_num muons in
  cset <- lift ((get_cset env) "muon" (year ++ year_mod)) ;;
  pog_year <- dict_getitem (pog_years env) (year ++ year_mod) ;;
  ret (mkMuonCorrector variation id_wp iso_wp (map l_pt m) (map l_eta m) n
         cset year year_mod pog_year).

Definition muon_args (self : MuonCorrector) (eta pt : list Q)
    (variant : string) : list arg :=
  [AStr (m_pog_year self); ANum eta; ANum pt; AStr variant].

Definition muon_sf (self : MuonCorrector) (key : string) (eta pt : list Q)
    (variant : string) : M (list Q) :=
  sf <- evaluate (m_cset self) key (muon_args self eta pt variant) ;;
  ret (unflat_sf env sf (m_n self)).

Definition muon_add (self : MuonCorrector) (name key : string)
    (muon_eta muon_pt : list Q) : M unit :=
  nominal_sf <- muon_sf self key muon_eta muon_pt "sf" ;;
  if String.eqb (m_variation self) "nominal" then
    up_sf <- muon_sf self key muon_eta muon_pt "systup" ;;
    down_sf <- muon_sf self key muon_eta muon_pt "systdown" ;;
    weights_add name nominal_sf (Some up_sf) (Some down_sf)
  else
    weights_add name nominal_sf None None.

Definition triggeriso_keys : Dict.t string :=
  [("2016", "NUM_IsoMu24_or_IsoTkMu24_DEN_CutBasedIdTight_and_PFIsoTight");
   ("2017", "NUM_IsoMu27_DEN_CutBasedIdTight_and_PFIsoTight");
   ("2018", "NUM_IsoMu24_DEN_CutBasedIdTight_and_PFIsoTight")].

Definition MuonCorrector_add_triggeriso_weight (self : MuonCorrector)
  : M unit :=
  py_assert (String.eqb (id_wp self) "tight" && String.eqb (iso_wp self) "tight")
    "there's only available muon trigger SF for 'tight' ID and Iso" ;;;
  let muon_eta := np_clip (np_abs (muons_eta self)) 0 (2399 # 1000) in
  let muon_pt := np_clip (muons_pt self) 29 (199999 # 1000) in
  key <- dict_getitem triggeriso_keys (m_year self) ;;
  muon_add self "muon_triggeriso" key muon_eta muon_pt.

Definition id_corrections : Dict.t string :=
  [("loose", "NUM_LooseID_DEN_TrackerMuons");
   ("medium", "NUM_MediumID_DEN_TrackerMuons");
   ("tight", "NUM_TightID_DEN_TrackerMuons")].

(** The local variable [iso_correction] after the two [if] cascades: [None]
    while it is still unbound. *)
Definition iso_correction_after_loose (self : MuonCorrector) : option string :=
  if String.eqb (iso_wp self) "loose" then
    if String.eqb (id_wp self) "loose" then Some "NUM_LooseRelIso_DEN_LooseID"
    else if String.eqb (id_wp self) "medium" then Some "NUM_LooseRelIso_DEN_MediumID"
    else if String.eqb (id_wp self) "tight" then Some "NUM_LooseRelIso_DEN_TightIDandIPCut"
    else None
  else None.

Definition iso_correction_after_tight (self : MuonCorrector)
    (iso_correction : option string) : option string :=
  if String.eqb (iso_wp self) "tight" then
    if String.eqb (id_wp self) "medium" then Some "NUM_TightRelIso_DEN_MediumID"
    else if String.eqb (id_wp self) "tight" then Some "NUM_TightRelIso_DEN_TightIDandIPCut"
    else iso_correction
  else iso_correction.

Definition MuonCorrector_add_weight (self : MuonCorrector) (sf_type : string)
  : M unit :=
  (if String.eqb (iso_wp self) "tight"
   then py_assert (negb (String.eqb (id_wp self) "loose")) "there's no available SFs"
   else ret tt) ;;;
  let muon_eta := np_clip (np_abs (muons_eta self)) 0 (2399 # 1000) in
  let muon_pt := np_clip (muons_pt self) 15 (119999 # 1000) in
  let iso_correction :=
    iso_correction_after_tight self (iso_correction_after_loose self) in
  (* the dict display evaluates its values left to right *)
  id_key <- dict_getitem id_corrections (id_wp self) ;;
  iso_key <- read_local "iso_correction" iso_correction ;;
  let sfs_keys : Dict.t string := [("id", id_key); ("iso", iso_key)] in
  key <- dict_getitem sfs_keys sf_type ;;
  muon_add self ("muon_" ++ sf_type) key muon_eta muon_pt.

Definition MuonCorrector_add_id_weight (self : MuonCorrector) : M unit :=
  MuonCorrector_add_weight self "id".

Definition MuonCorrector_add_iso_weight (self : MuonCorrector) : M unit :=
  MuonCorrector_add_weight self "iso".

End Correctors.

(** ** coffea.analysis_tools.PackedSelection

    Named per-event masks in registration order.  A missing entry of an
    option-typed mask is filled with [False] when the mask is added. *)

Definition PackedSelection : Type := Dict.t (list bool).

Definition PackedSelection_new : PackedSelection := [].

Definition filled (selection : list (option bool)) : list bool :=
  map (fun b => match b with Some x => x | None => false end) selection.

(** Number of events the registry was sized for by its first mask. *)
Definition ps_size (sel : PackedSelection) : nat :=
  match sel with
  | [] => O
  | (_, m) :: _ => List.length m
  end.

Definition PackedSelection_add (name : string) (selection : list (option bool))
    (sel : PackedSelection) : result PackedSelection :=
  if Dict.mem sel name then
    inl (ValueError "selection already exists")
  else
    match sel with
    | [] => inr [(name, filled selection)]
    | _ :: _ =>
        if Nat.eqb (ps_size sel) (List.length selection)
        then inr (sel ++ [(name, filled selection)])%list
        else inl (ValueError "new selection has a different shape")
    end.

Fixpoint lookup_all (sel : PackedSelection) (names : list string)
  : result (list (list bool)) :=
  match names with
  | [] => inr []
  | name :: names' =>
      match Dict.get sel name with
      | None => inl (ValueError "name is not in list")
      | Some m => ms <~ lookup_all sel names' ;; inr (m :: ms)
      end
  end.

(** [all(names)]: event [j] is kept when every named bit is set for it. *)
Definition PackedSelection_all (sel : PackedSelection) (names : list string)
  : result (list bool) :=
  ms <~ lookup_all sel names ;;
  inr (map (fun j => forallb (fun m => nth j m false) ms) (seq 0 (ps_size sel))).

(** ** numpy and awkward helpers of the processor *)

(** [xs[mask]] with a boolean mask. *)
Definition mask_select {A : Type} (xs : list A) (mask : list bool) : list A :=
  map fst (filter snd (combine xs mask)).

Definition getitem_mask {A : Type} (xs : list A) (mask : list bool)
  : result (list A) :=
  if Nat.eqb (List.length xs) (List.length mask)
  then inr (mask_select xs mask)
  else inl (IndexError "boolean index did not match indexed array").

(** [ak.sum] of a boolean column. *)
Definition count_true (mask : list bool) : nat :=
  List.length (filter (fun b => b) mask).

Definition prodZ (xs : list Z) : Z := fold_right Z.mul 1%Z xs.

Definition omap2 {A B C : Type} (f : A -> B -> C) (a : option A) (b : option B)
  : option C :=
  match a, b with
  | Some x, Some y => Some (f x y)
  | _, _ => None
  end.

Definition Qltb (a b : Q) : bool := negb (Qle_bool b a).

(** ** Weight statistics kept per registered factor *)

(** [weights_container.weightStatistics] *)
Definition weightStatistics (w : Weights) : Dict.t WeightStatistics :=
  w_stats w.

(** ** The processor instance and its output *)

Record ZToLLProcessor : Type := mkProcessor {
  _year : string;
  _yearmod : string;
  _lepton_flavor : string;
  _output_type : string;
  features : Dict.t (list (option Q));
  array_dict : Dict.t (list Q);
  is_mc : option bool;
  selections : option PackedSelection
}.

Definition ZToLLProcessor_init (year yearmod lepton_flavor output_type : string)
  : ZToLLProcessor :=
  mkProcessor year yearmod lepton_flavor output_type [] [] None None.

Record Metadata : Type := mkMetadata {
  sumw : Q;
  weight_statistics : Dict.t WeightStatistics;
  cutflow : Dict.t Q;
  events_before : nat;
  events_after : nat
}.

Record Output : Type := mkOutput {
  metadata : Metadata;
  arrays : Dict.t (list Q)
}.

Definition Proc (A : Type) : Type := St ZToLLProcessor A.

(** Reading an attribute of the instance. *)
Definition attr {A : Type} (f : ZToLLProcessor -> A) : Proc A :=
  fun s => (inr (f s), s).

Definition set_is_mc (b : bool) : Proc unit :=
  fun s => (inr tt,
            mkProcessor (_year s) (_yearmod s) (_lepton_flavor s)
              (_output_type s) (features s) (array_dict s) (Some b)
              (selections s)).

Definition set_selections (sel : PackedSelection) : Proc unit :=
  fun s => (inr tt,
            mkProcessor (_year s) (_yearmod s) (_lepton_flavor s)
              (_output_type s) (features s) (array_dict s) (is_mc s)
              (Some sel)).

Definition get_selections : Proc PackedSelection :=
  fun s =>
    match selections s with
    | Some sel => (inr sel, s)
    | None => (inl (UnboundLocalError "selections"), s)
    end.

(** [self.selections.add(name, selection)] *)
Definition selections_add (name : string) (selection : list (option bool))
  : Proc unit :=
  sel <- get_selections ;;
  sel' <- lift (PackedSelection_add name selection sel) ;;
  set_selections sel'.

(** [self.selections.all(names)] *)
Definition selections_all (names : list string) : Proc (list bool) :=
  sel <- get_selections ;;
  lift (PackedSelection_all sel names).

(** [add_feature]: [self.features = {**self.features, name: var}] *)
Definition add_feature (name : string) (var : list (option Q)) : Proc unit :=
  fun s => (inr tt,
            mkProcessor (_year s) (_yearmod s) (_lepton_flavor s)
              (_output_type s) (Dict.set (features s) name var)
              (array_dict s) (is_mc s) (selections s)).

Definition regions : Dict.t (list string) :=
  [("ele", ["goodvertex"; "lumi"; "trigger_ele"; "metfilters"; "bjet_veto";
            "two_leptons"; "neutral"; "mass_range"; "mthlt60"; "ee"]);
   ("mu", ["goodvertex"; "lumi"; "trigger_mu"; "metfilters"; "bjet_veto";
           "two_leptons"; "neutral"; "mass_range"; "mthlt60"; "mumu"])].

(** The cutflow loop: the list of applied cuts grows by one name per turn and
    the weight selected by their conjunction is stored under that name. *)
Fixpoint cutflow_loop (sel : PackedSelection) (weight : list Q)
    (cut_names selections : list string) (cutflow : Dict.t Q)
  : result (Dict.t Q) :=
  match cut_names with
  | [] => inr cutflow
  | cut_name :: rest =>
      let selections' := (selections ++ [cut_name])%list in
      current_selection <~ PackedSelection_all sel selections' ;;
      selected <~ getitem_mask weight current_selection ;;
      cutflow_loop sel weight rest selections'
        (Dict.set cutflow cut_name (Qsum selected))
  end.

(** The trigger mask of one channel: [np.zeros] OR-ed with every listed bit
    that is a branch of the chunk. *)
Definition trigger_mask (events : Events) (names : list string) : list bool :=
  fold_left
    (fun acc t =>
       if existsb (String.eqb t) (HLT_fields events)
       then map (fun p => orb (fst p) (snd p))
                (combine acc (map (fun e => HLT e t) (rows events)))
       else acc)
    names (repeat false (len events)).

(** The MET-filter mask: [np.ones] AND-ed with every listed flag that is a
    branch of the chunk. *)
Definition metfilters_mask (events : Events) (names : list string) : list bool :=
  fold_left
    (fun acc mf =>
       if existsb (String.eqb mf) (Flag_fields events)
       then map (fun p => andb (fst p) (snd p))
                (combine acc (map (fun e => Flag e mf) (rows events)))
       else acc)
    names (repeat true (len events)).

Section Processor.

Variable env : Environment.

(** Modelled from the spec: [met_phi_corrections] of [corrections/met.py] is
    not among the sources.  It returns new MET pt and phi; corrections apply
    only to simulated data, real detector data passes through unchanged. *)
Definition met_phi_corrections (met_pt met_phi : Q) (npvs : Z) (is_mc : bool)
    (year year_mod : string) : Q * Q :=
  if is_mc then met_phi_shift env met_pt met_phi npvs year year_mod
  else (met_pt, met_phi).

(** *** Object selection *)

Definition good_electrons (events : Events) : list (list Lepton) :=
  map (fun e =>
         filter (select_good_electrons env
                   (electron_pt_threshold (ztoll_electron_selection env))
                   (electron_id_wp (ztoll_electron_selection env))
                   (electron_iso_wp (ztoll_electron_selection env)) e)
                (Electron e))
      (rows events).

Definition good_muons (events : Events) : list (list Lepton) :=
  map (fun e =>
         filter (select_good_muons env
                   (muon_pt_threshold (ztoll_muon_selection env))
                   (muon_id_wp (ztoll_muon_selection env))
                   (muon_iso_wp (ztoll_muon_selection env)) e)
                (Muon e))
      (rows events).

(** [good_leptons = electrons if self._lepton_flavor == "ele" else muons]:
    each collection is bound only under its own flavor. *)
Definition good_leptons (lepton_flavor : string) (events : Events)
  : result (list (list Lepton)) :=
  let electrons :=
    if String.eqb lepton_flavor "ele" then Some (good_electrons events)
    else None in
  let muons :=
    if String.eqb lepton_flavor "mu" then Some (good_muons events)
    else None in
  if String.eqb lepton_flavor "ele" then
    match electrons with
    | Some l => inr l
    | None => inl (UnboundLocalError "electrons")
    end
  else
    match muons with
    | Some l => inr l
    | None => inl (UnboundLocalError "muons")
    end.

(** *** Kinematic correction: jets and MET as used by everything below *)

Definition corrected_jets_met (year yearmod : string) (is_mc : bool)
    (e : Event) : list JetObj * Met :=
  if is_mc then jet_corrections env (year ++ yearmod) e
  else (Jet e, MET e).

Definition kinematic_correction (year yearmod : string) (is_mc : bool)
    (e : Event) : list JetObj * Met :=
  let jm := corrected_jets_met year yearmod is_mc e in
  let pp :=
    met_phi_corrections (met_pt (snd jm)) (met_phi (snd jm)) (npvsGood e)
      is_mc year yearmod in
  (fst jm, mkMet (fst pp) (snd pp)).

Definition good_bjets (year yearmod : string) (jets : list JetObj)
    (leptons : list Lepton) : list JetObj :=
  filter (fun j =>
            select_good_bjets env (year ++ yearmod)
              (jet_pt_threshold (ztoll_jet_selection env))
              (jet_id (ztoll_jet_selection env))
              (jet_pileup_id (ztoll_jet_selection env))
              (btag_working_point (ztoll_jet_selection env)) j
            && delta_r_mask env leptons (4 # 10) j)
         jets.

(** The object collections of a chunk after selection and correction. *)
Record Objects : Type := mkObjects {
  o_leptons : list (list Lepton);
  o_jets : list (list JetObj);
  o_met : list Met;
  o_bjets : list (list JetObj)
}.

Definition object_selection (year yearmod lepton_flavor : string)
    (is_mc : bool) (events : Events) : result Objects :=
  leptons <~ good_leptons lepton_flavor events ;;
  let jets_met := map (kinematic_correction year yearmod is_mc) (rows events) in
  let jets := map fst jets_met in
  let met := map snd jets_met in
  let bjets :=
    map (fun p => good_bjets year yearmod (fst p) (snd p))
        (combine jets leptons) in
  inr (mkObjects leptons jets met bjets).

(** *** Event weights *)

Definition lepton_weights (year yearmod lepton_flavor : string)
    (events : Events) : M unit :=
  if String.eqb lepton_flavor "ele" then
    electron_corrector <-
      ElectronCorrector_init env (map Electron (rows events))
        year yearmod "nominal" ;;
    ElectronCorrector_add_id_weight env electron_corrector
      (electron_id_wp (ztoll_electron_selection env)) ;;;
    ElectronCorrector_add_reco_weight env electron_corrector
  else
    muon_corrector <-
      MuonCorrector_init env (map Muon (rows events))
        year yearmod "nominal"
        (muon_id_wp (ztoll_muon_selection env))
        (muon_iso_wp (ztoll_muon_selection env)) ;;
    MuonCorrector_add_id_weight env muon_corrector ;;;
    MuonCorrector_add_iso_weight env muon_corrector ;;;
    MuonCorrector_add_triggeriso_weight env muon_corrector.

Definition mc_weights (year yearmod lepton_flavor : string) (events : Events)
    (jets : list (list JetObj)) : M unit :=
  weights_add "genweight" (map genWeight (rows events)) None None ;;;
  on_weights (add_l1prefiring_weight env events year "nominal") ;;;
  on_weights (add_pileup_weight env events year yearmod "nominal") ;;;
  on_weights (add_pujetid_weight env jets year yearmod
                (btag_working_point (ztoll_jet_selection env)) "nominal") ;;;
  on_weights (add_btag_weights env jets "comb"
                (btag_working_point (ztoll_jet_selection env)) "deepJet"
                year yearmod false "nominal" "bc") ;;;
  lepton_weights year yearmod lepton_flavor events.

(** [weights_container] after the weight block: [Weights(len(events))], and
    for simulation every factor of the block. *)
Definition weights_container (year yearmod lepton_flavor : string)
    (events : Events) (is_mc : bool) (jets : list (list JetObj))
  : result Weights :=
  let w := Weights_new (len events) in
  if is_mc then
    match mc_weights year yearmod lepton_flavor events jets (mkStore w []) with
    | (inl e, _) => inl e
    | (inr _, s) => inr (st_weights s)
    end
  else inr w.

(** *** Event variables, one value per event *)

Definition leading_lepton (leptons : list Lepton) : option Lepton :=
  hd_error leptons.

Definition subleading_lepton (leptons : list Lepton) : option Lepton :=
  nth_error leptons 1.

Definition leading_leptons (leptons : list Lepton) : option LorentzVector :=
  omap2 (add_vectors env) (leading_lepton leptons) (subleading_lepton leptons).

Definition ptl1 (leptons : list Lepton) : option Q :=
  option_map l_pt (leading_lepton leptons).

Definition ptl2 (leptons : list Lepton) : option Q :=
  option_map l_pt (subleading_lepton leptons).

Definition ptll (leptons : list Lepton) : option Q :=
  option_map v_pt (leading_leptons leptons).

Definition mll (leptons : list Lepton) : option Q :=
  option_map v_mass (leading_leptons leptons).

Definition dphill (leptons : list Lepton) : option Q :=
  omap2 (fun a b => delta_phi env (l_phi a) (l_phi b))
        (leading_lepton leptons) (subleading_lepton leptons).

Definition drll (leptons : list Lepton) : option Q :=
  omap2 (delta_r env) (leading_lepton leptons) (subleading_lepton leptons).

Definition mth (leptons : list Lepton) (met : Met) : option Q :=
  option_map
    (fun ll =>
       np_sqrt env
         (2 * v_pt ll * met_pt met
          * (1 - np_cos env (delta_phi env (v_phi ll) (met_phi met))))%Q)
    (leading_leptons leptons).

Definition nvtx (e : Event) : option Q := Some (inject_Z (npvsGood e)).

(** The event variables of a chunk, one column each. *)
Record EventVariables : Type := mkVariables {
  c_ptl1 : list (option Q);
  c_ptl2 : list (option Q);
  c_ptll : list (option Q);
  c_mll : list (option Q);
  c_dphill : list (option Q);
  c_drll : list (option Q);
  c_mth : list (option Q);
  c_nvtx : list (option Q)
}.

Definition variables (events : Events) (objs : Objects) : EventVariables :=
  mkVariables
    (map ptl1 (o_leptons objs)) (map ptl2 (o_leptons objs))
    (map ptll (o_leptons objs)) (map mll (o_leptons objs))
    (map dphill (o_leptons objs)) (map drll (o_leptons objs))
    (map (fun p => mth (fst p) (snd p)) (combine (o_leptons objs) (o_met objs)))
    (map nvtx (rows events)).

(** *** Per-event masks *)

Definition neutral (leptons : list Lepton) : option bool :=
  omap2 (fun a b => Z.ltb (l_charge a * l_charge b) 0)
        (leading_lepton leptons) (subleading_lepton leptons).

Definition mass_range (leptons : list Lepton) : option bool :=
  option_map (fun m => Qltb 60 m && Qltb m 120) (mll leptons).

Definition mthlt60 (leptons : list Lepton) (met : Met) : option bool :=
  option_map (fun m => Qltb m 60) (mth leptons met).

Definition pdg_product_is (leptons : list Lepton) (v : Z) : bool :=
  Z.eqb (prodZ (map l_pdgId leptons)) v.

Definition lumi_column (year : string) (mc : bool) (events : Events)
  : list bool :=
  if negb mc
  then map (fun e => lumi_mask env year (run e) (luminosityBlock e))
           (rows events)
  else repeat true (len events).

(** *** Mask registration *)

Definition register_selections (year : string) (events : Events) (mc : bool)
    (objs : Objects) : Proc unit :=
  set_selections PackedSelection_new ;;;
  selections_add "lumi" (map Some (lumi_column year mc events)) ;;;
  _triggers <- dict_getitem (triggers env) year ;;
  names_ele <- dict_getitem _triggers "ele" ;;
  names_mu <- dict_getitem _triggers "mu" ;;
  selections_add "trigger_ele" (map Some (trigger_mask events names_ele)) ;;;
  selections_add "trigger_mu" (map Some (trigger_mask events names_mu)) ;;;
  _metfilters <- dict_getitem (metfilters_json env) year ;;
  let metfilterkey := if mc then "mc" else "data" in
  names_mf <- dict_getitem _metfilters metfilterkey ;;
  selections_add "metfilters" (map Some (metfilters_mask events names_mf)) ;;;
  selections_add "goodvertex"
    (map (fun e => Some (Z.ltb 0 (npvsGood e))) (rows events)) ;;;
  selections_add "two_leptons"
    (map (fun l => Some (Nat.eqb (List.length l) 2)) (o_leptons objs)) ;;;
  selections_add "neutral" (map neutral (o_leptons objs)) ;;;
  selections_add "mass_range" (map mass_range (o_leptons objs)) ;;;
  selections_add "bjet_veto"
    (map (fun b => Some (Nat.eqb (List.length b) 0)) (o_bjets objs)) ;;;
  selections_add "mthlt60"
    (map (fun p => mthlt60 (fst p) (snd p))
         (combine (o_leptons objs) (o_met objs))) ;;;
  selections_add "ee"
    (map (fun l => Some (pdg_product_is l (- (11 * 11)))) (o_leptons objs)) ;;;
  selections_add "mumu"
    (map (fun l => Some (pdg_product_is l (- (13 * 13)))) (o_leptons objs)) ;;;
  selections_add "emu"
    (map (fun l => Some (pdg_product_is l (- (11 * 13)))) (o_leptons objs)).

(** *** Feature extraction *)

Definition select_feature (name : string) (column : list (option Q))
    (region_selection : list bool) : Proc unit :=
  selected <- lift (getitem_mask column region_selection) ;;
  add_feature name selected.

(** The body of the loop over [regions] once events are left: the selected
    columns go to [self.features], which is then normalized into the
    accumulators. *)
Definition fill_features (vars : EventVariables) (weight : list Q)
    (region_selection : list bool) : Proc (Dict.t (list Q)) :=
  select_feature "ptl1" (c_ptl1 vars) region_selection ;;;
  select_feature "ptl2" (c_ptl2 vars) region_selection ;;;
  select_feature "ptll" (c_ptll vars) region_selection ;;;
  select_feature "mll" (c_mll vars) region_selection ;;;
  select_feature "dphill" (c_dphill vars) region_selection ;;;
  select_feature "drll" (c_drll vars) region_selection ;;;
  select_feature "mth" (c_mth vars) region_selection ;;;
  select_feature "nvtx" (c_nvtx vars) region_selection ;;;
  region_weights <- lift (getitem_mask weight region_selection) ;;
  add_feature "weights" (map Some region_weights) ;;;
  features <- attr features ;;
  ret (map (fun kv => (fst kv, normalize env (snd kv))) features).

(** One turn of [for lepton_flavor in regions]; [acc] holds the local
    variables [array_dict] and [nevents_after], the latter unbound at first. *)
Definition region_step (vars : EventVariables) (weight : list Q)
    (lepton_flavor : string) (acc : Dict.t (list Q) * option nat)
  : Proc (Dict.t (list Q) * option nat) :=
  own_flavor <- attr _lepton_flavor ;;
  if negb (String.eqb lepton_flavor own_flavor) then ret acc
  else
    cuts <- dict_getitem regions lepton_flavor ;;
    region_selection <- selections_all cuts ;;
    let nevents_after := count_true region_selection in
    if Nat.eqb nevents_after 0 then ret (fst acc, Some nevents_after)
    else
      array_dict <- fill_features vars weight region_selection ;;
      ret (array_dict, Some nevents_after).

Fixpoint for_regions (vars : EventVariables) (weight : list Q)
    (keys : list string) (acc : Dict.t (list Q) * option nat)
  : Proc (Dict.t (list Q) * option nat) :=
  match keys with
  | [] => ret acc
  | k :: keys' =>
      acc' <- region_step vars weight k acc ;;
      for_regions vars weight keys' acc'
  end.

(** *** [process] *)

Definition process (events : Events) : Proc Output :=
  let mc := has_genWeight events in
  set_is_mc mc ;;;
  let nevents := len events in
  array_dict0 <- attr array_dict ;;
  year <- attr _year ;;
  yearmod <- attr _yearmod ;;
  flavor <- attr _lepton_flavor ;;
  objs <- lift (object_selection year yearmod flavor mc events) ;;
  weights <- lift (weights_container year yearmod flavor events mc
                     (o_jets objs)) ;;
  let sumw := Qsum (Weights_weight weights) in
  let statistics := weightStatistics weights in
  let vars := variables events objs in
  register_selections year events mc objs ;;;
  cut_names <- dict_getitem regions flavor ;;
  sel <- get_selections ;;
  cutflow <- lift (cutflow_loop sel (Weights_weight weights) cut_names [] []) ;;
  acc <- for_regions vars (Weights_weight weights) (Dict.keys regions)
           (array_dict0, None) ;;
  nevents_after <- read_local "nevents_after" (snd acc) ;;
  ret (mkOutput (mkMetadata sumw statistics cutflow nevents nevents_after)
                (fst acc)).

End Processor.

(** * submit_lxplus.py: submission of the partitions to HTCondor

    [submit_lxplus.py] is embedded over a log of what it does to the outside
    world, in the order it does it: the condor file and the executable it
    writes for a job, the copy of the proxy, the call of [condor_submit].
    The templates, the directories it creates and what it prints are not part
    of the log, and the file system is taken to accept every write.  A string
    is a sequence of characters with a code below 256. *)

(** ** Python strings and values *)

(** [s.split(sep)] for a separator of one character. *)
Fixpoint split (sep : ascii) (s : string) : list string :=
  match s with
  | EmptyString => [EmptyString]
  | String c rest =>
      if Ascii.eqb c sep then EmptyString :: split sep rest
      else match split sep rest with
           | w :: ws => String c w :: ws
           | [] => [String c EmptyString]
           end
  end.

(** [str.isspace] on one character: tab to carriage return, the four
    separators, the blank, NEL and the no-break space. *)
Definition isspace (c : ascii) : bool :=
  let n := nat_of_ascii c in
  ((9 <=? n) && (n <=? 13) || (28 <=? n) && (n <=? 32)
   || (n =? 133) || (n =? 160))%nat.

Fixpoint lstrip (s : string) : string :=
  match s with
  | EmptyString => EmptyString
  | String c rest => if isspace c then lstrip rest else s
  end.

Fixpoint rstrip (s : string) : string :=
  match s with
  | EmptyString => EmptyString
  | String c rest =>
      match rstrip rest with
      | EmptyString => if isspace c then EmptyString else String c EmptyString
      | kept => String c kept
      end
  end.

(** [s.strip()] *)
Definition strip (s : string) : string := rstrip (lstrip s).

(** [s.startswith(prefix)] *)
Definition startswith (s prefix : string) : bool := String.prefix prefix s.

(** The values the argument dictionary holds under the keys read here:
    [argparse] delivers a [str], the partition loop of [main] stores an
    [int]. *)
Inductive pyval : Type :=
| PStr (s : string)
| PInt (z : Z).

(** Truth value of a Python value, as [if v:] takes it. *)
Definition truth (v : pyval) : bool :=
  match v with
  | PStr s => negb (String.eqb s EmptyString)
  | PInt z => negb (Z.eqb z 0)
  end.

(** What an f-string prints for [{v}]. *)
Definition format (v : pyval) : string :=
  match v with
  | PStr s => s
  | PInt z => DecimalString.NilZero.string_of_int (Z.to_int z)
  end.

(** The argument dictionary: the entries the job path and the job name are
    built from, declared with [type=str] in the parser, and the other
    entries, which only [get_command] reads. *)
Record Args : Type := mkArgs {
  args_processor : string;
  args_channel : string;
  args_lepton_flavor : string;
  args_year : string;
  args_sample : string;
  args_nsample : pyval;
  args_others : Dict.t pyval
}.

(** [args["nsample"] = v] *)
Definition set_nsample (args : Args) (v : pyval) : Args :=
  mkArgs (args_processor args) (args_channel args) (args_lepton_flavor args)
    (args_year args) (args_sample args) v (args_others args).

(** ** [get_jobpath] and [get_jobname] *)

Definition get_jobpath (args : Args) : string :=
  let path := args_processor args in
  let path :=
    if truth (PStr (args_channel args))
    then path ++ "/" ++ args_channel args else path in
  let path :=
    if truth (PStr (args_lepton_flavor args))
    then path ++ "/" ++ args_lepton_flavor args else path in
  let path := path ++ "/" ++ args_year args in
  let path := path ++ "/" ++ args_sample args in
  path.

Definition get_jobname (args : Args) : string :=
  let jobname := args_processor args in
  let jobname :=
    if truth (PStr (args_channel args))
    then jobname ++ "_" ++ args_channel args else jobname in
  let jobname :=
    if truth (PStr (args_lepton_flavor args))
    then jobname ++ "_" ++ args_lepton_flavor args else jobname in
  let jobname := jobname ++ "_" ++ args_sample args in
  let jobname :=
    if truth (args_nsample args)
    then jobname ++ "_" ++ format (args_nsample args) else jobname in
  jobname.

(** ** The submission log *)

Inductive submit_error : Type :=
| RuntimeError (msg : string).

Inductive action : Type :=
| WriteCondorFile (jobpath jobname processor year flavor : string)
| Copy (source destination : string)
| WriteExecutable (jobpath jobname cmd x509_path : string)
| CondorSubmit (jobpath jobname : string).

(** A step of the script: it extends the log and returns or raises. *)
Definition Job (A : Type) : Type :=
  list action -> (submit_error + A) * list action.

Definition job_ret {A : Type} (a : A) : Job A := fun log => (inr a, log).

Definition job_raise {A : Type} (e : submit_error) : Job A :=
  fun log => (inl e, log).

Definition job_bind {A B : Type} (m : Job A) (k : A -> Job B) : Job B :=
  fun log =>
    match m log with
    | (inr a, log') => k a log'
    | (inl e, log') => (inl e, log')
    end.

Definition perform (a : action) : Job unit :=
  fun log => (inr tt, (log ++ [a])%list).

Section Submit.

(** The machine the script runs on: [get_command] of [utils], the home
    directory and the text that [os.popen("voms-proxy-info").read()]
    returns. *)
Variable get_command : Args -> string.
Variable home : string.
Variable voms_proxy_info : string.

(** *** [move_X509] *)

(** The [try] block: the first line that starts with [path], what follows
    its last colon, stripped.  [None] is the [IndexError] of [[0]] on an empty
    list, the one exception the block can raise. *)
Definition x509_localpath : option string :=
  match filter (fun line => startswith line "path")
               (split "010"%char voms_proxy_info) with
  | line :: _ => Some (strip (last (split ":"%char line) EmptyString))
  | [] => None
  end.

Definition move_X509 : Job string :=
  match x509_localpath with
  | None =>
      job_raise (RuntimeError
        "x509 proxy could not be parsed, try creating it with 'voms-proxy-init --voms cms'")
  | Some localpath =>
      let x509_path :=
        home ++ "/private/" ++ last (split "/"%char localpath) EmptyString in
      job_bind (perform (Copy localpath x509_path)) (fun _ =>
      job_ret x509_path)
  end.

(** *** [submit_condor] *)

Definition submit_condor (args : Args) (cmd flavor : string) (submit : bool)
    : Job unit :=
  let jobpath := get_jobpath args in
  let jobname := get_jobname args in
  job_bind (perform (WriteCondorFile jobpath jobname (args_processor args)
                       (args_year args) flavor)) (fun _ =>
  job_bind move_X509 (fun x509_path =>
  job_bind (perform (WriteExecutable jobpath jobname cmd x509_path)) (fun _ =>
  if submit then perform (CondorSubmit jobpath jobname) else job_ret tt))).

(** *** [main] *)

(** The loop [for nsplit in range(1, len(root_files_list) + 1)]; the
    assignment to [args["nsample"]] stays for the next round. *)
Fixpoint for_nsplit (args : Args) (submit : bool) (nsplits : list Z)
    : Job unit :=
  match nsplits with
  | [] => job_ret tt
  | nsplit :: rest =>
      let args := set_nsample args (PInt nsplit) in
      job_bind (submit_condor args (get_command args) "workday" submit)
        (fun _ => for_nsplit args submit rest)
  end.

(** [main] from the point where the helpers of [utils] have delivered the
    arguments, the [submit] switch and the file lists of the partitions. *)
Definition main (args : Args) (submit : bool)
    (root_files_list : list (list string)) : Job unit :=
  if (List.length root_files_list =? 1)%nat
  then submit_condor args (get_command args) "longlunch" submit
  else for_nsplit args submit
         (map Z.of_nat (seq 1 (List.length root_files_list))).

End Submit.

Open Scope nat_scope.

(** * Specification vocabulary *)

Definition in_range (lo hi : Q) (xs : list Q) : Prop :=
  Forall (fun x => (lo <= x)%Q /\ (x <= hi)%Q) xs.

(** The lookups a call adds to the log. *)
Definition sends (m : M unit) (s : Store) (new : list Lookup) : Prop :=
  st_lookups (snd (m s)) = (st_lookups s ++ new)%list.

(** The factor a call appends to the ledger. *)
Definition registers (s s' : Store) (f : Factor) : Prop :=
  w_factors (st_weights s') = (w_factors (st_weights s) ++ [f])%list.

(** The five [add_<x>_weight] methods of the two lepton correctors. *)
Inductive WeightCall : Type :=
| Electron_id (self : ElectronCorrector) (id_working_point : string)
| Electron_reco (self : ElectronCorrector)
| Muon_id (self : MuonCorrector)
| Muon_iso (self : MuonCorrector)
| Muon_triggeriso (self : MuonCorrector).

Definition run_call (env : Environment)
    (c : WeightCall) : M unit :=
  match c with
  | Electron_id self wp => ElectronCorrector_add_id_weight env self wp
  | Electron_reco self => ElectronCorrector_add_reco_weight env self
  | Muon_id self => MuonCorrector_add_id_weight env self
  | Muon_iso self => MuonCorrector_add_iso_weight env self
  | Muon_triggeriso self => MuonCorrector_add_triggeriso_weight env self
  end.


Definition call_name (c : WeightCall) : string :=
  match c with
  | Electron_id _ _ => "electron_id"
  | Electron_reco _ => "electron_reco"
  | Muon_id _ => "muon_id"
  | Muon_iso _ => "muon_iso"
  | Muon_triggeriso _ => "muon_triggeriso"
  end.

(** The answer of the scale-factor service to a logged lookup, folded to one
    weight per event. *)
Definition call_answer (env : Environment)
    (c : WeightCall) (lk : Lookup) : result (list Q) :=
  match c with
  | Electron_id self _ | Electron_reco self =>
      sf <~ e_cset self (lk_key lk) (lk_args lk) ;; inr (unflat_sf env sf (e_n self))
  | Muon_id self | Muon_iso self | Muon_triggeriso self =>
      sf <~ m_cset self (lk_key lk) (lk_args lk) ;; inr (unflat_sf env sf (m_n self))
  end.

(** The systematic variant a logged lookup asks for: the second argument of
    the electron table, the fourth of the muon tables. *)
Definition lookup_variant (c : WeightCall) (lk : Lookup) : option arg :=
  match c with
  | Electron_id _ _ | Electron_reco _ => nth_error (lk_args lk) 1
  | Muon_id _ | Muon_iso _ | Muon_triggeriso _ => nth_error (lk_args lk) 3
  end.

Definition variant_names (c : WeightCall) : string * string * string :=
  match c with
  | Electron_id _ _ | Electron_reco _ => ("sf", "sfup", "sfdown")
  | Muon_id _ | Muon_iso _ | Muon_triggeriso _ => ("sf", "systup", "systdown")
  end.


(** What a successful call did in single-variation mode: one lookup, and a
    factor without variant arrays. *)
Definition nominal_only (env : Environment)
    (c : WeightCall) (s s' : Store) : Prop :=
  exists l0 sf,
    st_lookups s' = (st_lookups s ++ [l0])%list /\
    lookup_variant c l0 = Some (AStr (fst (fst (variant_names c)))) /\
    call_answer env c l0 = inr sf /\
    registers s s' (mkFactor (call_name c) sf None None).

(** The arguments of an electron ID lookup: eta as stored, pt clamped. *)
Definition electron_id_clamped (self : ElectronCorrector) (lk : Lookup) : Prop :=
  exists year variant wp pt,
    lk_args lk = [AStr year; AStr variant; AStr wp;
                  ANum (electrons_eta self); ANum pt] /\
    pt = np_clip (electrons_pt self) 10 (499999 # 1000) /\
    in_range 10 (499999 # 1000) pt.

(** The arguments of a muon lookup: |eta| and pt clamped. *)
Definition muon_clamped (self : MuonCorrector) (pt_lo pt_hi : Q) (lk : Lookup)
  : Prop :=
  exists year eta pt variant,
    lk_args lk = [AStr year; ANum eta; ANum pt; AStr variant] /\
    eta = np_clip (np_abs (muons_eta self)) 0 (2399 # 1000) /\
    in_range 0 (2399 # 1000) eta /\
    pt = np_clip (muons_pt self) pt_lo pt_hi /\
    in_range pt_lo pt_hi pt.

Definition bit (sel : PackedSelection) (name : string) (j : nat) : bool :=
  match Dict.get sel name with
  | Some m => nth j m false
  | None => false
  end.

Definition passing (sel : PackedSelection) (cuts : list string) (n : nat)
  : list nat :=
  filter (fun j => forallb (fun c => bit sel c j) cuts) (seq 0 n).

Definition selected_weight (w : list Q) (sel : PackedSelection)
    (cuts : list string) : Q :=
  Qsum (map (fun j => nth j w 0%Q) (passing sel cuts (List.length w))).

Fixpoint cutflow_spec (w : list Q) (sel : PackedSelection)
    (pre cuts : list string) : Dict.t Q :=
  match cuts with
  | [] => []
  | c :: rest =>
      (c, selected_weight w sel (pre ++ [c])%list)
        :: cutflow_spec w sel (pre ++ [c])%list rest
  end.

Fixpoint non_increasing (xs : list Q) : Prop :=
  match xs with
  | x :: (y :: _) as tail => (y <= x)%Q /\ non_increasing tail
  | _ => True
  end.

Definition registered (sel : PackedSelection) (names : list string) : Prop :=
  Forall (fun c => Dict.get sel c <> None) names.

Definition registry (env : Environment) (year : string) (events : Events)
    (mc : bool) (objs : Objects) (names_ele names_mu names_mf : list string)
  : PackedSelection :=
  [("lumi", filled (map Some (lumi_column env year mc events)));
   ("trigger_ele", filled (map Some (trigger_mask events names_ele)));
   ("trigger_mu", filled (map Some (trigger_mask events names_mu)));
   ("metfilters", filled (map Some (metfilters_mask events names_mf)));
   ("goodvertex",
    filled (map (fun e => Some (Z.ltb 0 (npvsGood e))) (rows events)));
   ("two_leptons",
    filled (map (fun l => Some (Nat.eqb (List.length l) 2)) (o_leptons objs)));
   ("neutral", filled (map neutral (o_leptons objs)));
   ("mass_range", filled (map (mass_range env) (o_leptons objs)));
   ("bjet_veto",
    filled (map (fun b => Some (Nat.eqb (List.length b) 0)) (o_bjets objs)));
   ("mthlt60",
    filled (map (fun p => mthlt60 env (fst p) (snd p))
                (combine (o_leptons objs) (o_met objs))));
   ("ee",
    filled (map (fun l => Some (pdg_product_is l (- (11 * 11))))
                (o_leptons objs)));
   ("mumu",
    filled (map (fun l => Some (pdg_product_is l (- (13 * 13))))
                (o_leptons objs)));
   ("emu",
    filled (map (fun l => Some (pdg_product_is l (- (11 * 13))))
                (o_leptons objs)))].

Definition configured (env : Environment) (year : string) (mc : bool)
    (names_ele names_mu names_mf : list string) : Prop :=
  exists cfg fcfg,
    Dict.get (triggers env) year = Some cfg /\
    Dict.get cfg "ele" = Some names_ele /\
    Dict.get cfg "mu" = Some names_mu /\
    Dict.get (metfilters_json env) year = Some fcfg /\
    Dict.get fcfg (if mc then "mc" else "data") = Some names_mf.

Definition with_selections (s : ZToLLProcessor) (sel : PackedSelection)
  : ZToLLProcessor :=
  snd (set_selections sel s).

Definition well_shaped (events : Events) (objs : Objects) : Prop :=
  List.length (o_leptons objs) = len events /\
  List.length (o_jets objs) = len events /\
  List.length (o_met objs) = len events /\
  List.length (o_bjets objs) = len events.

Definition region_mask (sel : PackedSelection) (cuts : list string) (n : nat)
  : list bool :=
  map (fun j => forallb (fun c => bit sel c j) cuts) (seq 0 n).

Definition ele_cuts : list string :=
  ["goodvertex"; "lumi"; "trigger_ele"; "metfilters"; "bjet_veto";
   "two_leptons"; "neutral"; "mass_range"; "mthlt60"; "ee"].

Definition mu_cuts : list string :=
  ["goodvertex"; "lumi"; "trigger_mu"; "metfilters"; "bjet_veto";
   "two_leptons"; "neutral"; "mass_range"; "mthlt60"; "mumu"].

(** What a chunk needs for [process] to run through: a flavor with a region,
    trigger and filter lists for the year, and a weight block that returned
    one weight per event. *)
Record ready (env : Environment) (s : ZToLLProcessor) (events : Events)
    (cuts : list string) (objs : Objects) (W : Weights)
    (names_ele names_mu names_mf : list string) : Prop := mkReady {
  ready_region : Dict.get regions (_lepton_flavor s) = Some cuts;
  ready_objects :
    object_selection env (_year s) (_yearmod s) (_lepton_flavor s)
      (has_genWeight events) events = inr objs;
  ready_weights :
    weights_container env (_year s) (_yearmod s) (_lepton_flavor s) events
      (has_genWeight events) (o_jets objs) = inr W;
  ready_shape : List.length (Weights_weight W) = len events;
  ready_config :
    configured env (_year s) (has_genWeight events)
      names_ele names_mu names_mf
}.

Definition is_field (name : string) (fields : list string) : bool :=
  existsb (String.eqb name) fields.

(** OR of the listed trigger bits the chunk carries. *)
Definition available_or (events : Events) (names : list string) : list bool :=
  map (fun e =>
         existsb (fun t => is_field t (HLT_fields events) && HLT e t) names)
      (rows events).

(** AND of the listed filter bits the chunk carries. *)
Definition available_and (events : Events) (names : list string) : list bool :=
  map (fun e =>
         forallb (fun mf => implb (is_field mf (Flag_fields events)) (Flag e mf))
                 names)
      (rows events).

(** The reading of "all bits listed": every listed name must be a branch. *)
Fixpoint listed_columns (fields : list string) (column : string -> list bool)
    (names : list string) : option (list (list bool)) :=
  match names with
  | [] => Some []
  | t :: names' =>
      if is_field t fields
      then option_map (cons (column t)) (listed_columns fields column names')
      else None
  end.

Definition or_of_all_listed (events : Events) (names : list string)
  : option (list bool) :=
  option_map
    (fun cols =>
       map (fun j => existsb (fun c => nth j c false) cols)
           (seq 0 (len events)))
    (listed_columns (HLT_fields events)
       (fun t => map (fun e => HLT e t) (rows events)) names).

Definition and_of_all_listed (events : Events) (names : list string)
  : option (list bool) :=
  option_map
    (fun cols =>
       map (fun j => forallb (fun c => nth j c true) cols)
           (seq 0 (len events)))
    (listed_columns (Flag_fields events)
       (fun mf => map (fun e => Flag e mf) (rows events)) names).

(** The keys [process] writes to [self.features], in the order it writes
    them. *)
Definition feature_names : list string :=
  ["ptl1"; "ptl2"; "ptll"; "mll"; "dphill"; "drll"; "mth"; "nvtx"; "weights"].

(** An instance after a sequence of chunks, whatever became of each. *)
Definition process_all (env : Environment) (chunks : list Events)
    (s : ZToLLProcessor) : ZToLLProcessor :=
  fold_left (fun s events => snd (process env events s)) chunks s.

Definition same_config (s1 s2 : ZToLLProcessor) : Prop :=
  _year s1 = _year s2 /\ _yearmod s1 = _yearmod s2 /\
  _lepton_flavor s1 = _lepton_flavor s2 /\
  _output_type s1 = _output_type s2 /\
  array_dict s1 = array_dict s2.

(** [self.features] holds the first [k] feature names, at least [i] of them. *)
Definition prefix_from (i : nat) (s : ZToLLProcessor) : Prop :=
  exists k, i <= k /\ Dict.keys (features s) = firstn k feature_names.

(** Two instances of one configuration, as far as a run can tell them
    apart before it has overwritten [i] features. *)
Definition base_rel (c s1 s2 : ZToLLProcessor) : Prop :=
  (same_config c s1 /\ same_config c s2) /\
  prefix_from 0 s1 /\ prefix_from 0 s2.

Definition feat_rel (c : ZToLLProcessor) (i : nat) (s1 s2 : ZToLLProcessor)
  : Prop :=
  (same_config c s1 /\ same_config c s2) /\
  selections s1 = selections s2 /\
  prefix_from i s1 /\ prefix_from i s2 /\
  firstn i (features s1) = firstn i (features s2).

(** Two runs of [m] from related stores return the same result and leave
    related stores: [Q] after a value, [base_rel] after an exception. *)
Definition agree {A : Type} (c : ZToLLProcessor)
    (R : ZToLLProcessor -> ZToLLProcessor -> Prop)
    (m : Proc A) (Q : ZToLLProcessor -> ZToLLProcessor -> Prop) : Prop :=
  forall s1 s2, R s1 s2 ->
    fst (m s1) = fst (m s2) /\
    match fst (m s1) with
    | inr _ => Q (snd (m s1)) (snd (m s2))
    | inl _ => base_rel c (snd (m s1)) (snd (m s2))
    end.

(** The arguments of an electron reconstruction lookup. *)
Definition electron_reco_clamped (self : ElectronCorrector) (lk : Lookup)
  : Prop :=
  lk_key lk = "UL-Electron-ID-SF" /\
  exists year variant pt,
    lk_args lk = [AStr year; AStr variant; AStr "RecoAbove20";
                  ANum (electrons_eta self); ANum pt] /\
    pt = np_clip (electrons_pt self) (201 # 10) (499999 # 1000) /\
    in_range (201 # 10) (499999 # 1000) pt.

(** The (ID, iso) working points for which muon ID and iso tables exist. *)
Definition supported_working_points (id iso : string) : Prop :=
  (iso = "loose" /\ (id = "loose" \/ id = "medium" \/ id = "tight")) \/
  (iso = "tight" /\ (id = "medium" \/ id = "tight")).

Definition has_variants (f : Factor) : Prop :=
  f_up f <> None /\ f_down f <> None.

(** The factor names the lepton block of [process] registers. *)
Definition lepton_factor_names (lepton_flavor : string) : list string :=
  if String.eqb lepton_flavor "ele"
  then ["electron_id"; "electron_reco"]
  else ["muon_id"; "muon_iso"; "muon_triggeriso"].

(** The trigger names the region of a flavor relies on. *)
Definition flavor_triggers (lepton_flavor : string)
    (names_ele names_mu : list string) : list string :=
  if String.eqb lepton_flavor "ele" then names_ele else names_mu.

(** The columns [process] stores in [self.features] for a region mask. *)
Definition selected_features (vars : EventVariables) (weight : list Q)
    (mask : list bool) : Dict.t (list (option Q)) :=
  [("ptl1", mask_select (c_ptl1 vars) mask);
   ("ptl2", mask_select (c_ptl2 vars) mask);
   ("ptll", mask_select (c_ptll vars) mask);
   ("mll", mask_select (c_mll vars) mask);
   ("dphill", mask_select (c_dphill vars) mask);
   ("drll", mask_select (c_drll vars) mask);
   ("mth", mask_select (c_mth vars) mask);
   ("nvtx", mask_select (c_nvtx vars) mask);
   ("weights", map Some (mask_select weight mask))].

(** The accumulators built from [self.features]. *)
Definition normalized (env : Environment) (feats : Dict.t (list (option Q)))
  : Dict.t (list Q) :=
  map (fun kv => (fst kv, normalize env (snd kv))) feats.

Definition set_all {V : Type} (d : Dict.t V) (kvs : list (string * V))
  : Dict.t V :=
  fold_left (fun d kv => Dict.set d (fst kv) (snd kv)) kvs d.

Record columns_fit (vars : EventVariables) (weight : list Q) (n : nat)
  : Prop := mkFit {
  fit_ptl1 : List.length (c_ptl1 vars) = n;
  fit_ptl2 : List.length (c_ptl2 vars) = n;
  fit_ptll : List.length (c_ptll vars) = n;
  fit_mll : List.length (c_mll vars) = n;
  fit_dphill : List.length (c_dphill vars) = n;
  fit_drll : List.length (c_drll vars) = n;
  fit_mth : List.length (c_mth vars) = n;
  fit_nvtx : List.length (c_nvtx vars) = n;
  fit_weight : List.length weight = n
}.


Definition put_features (s : ZToLLProcessor) (d : Dict.t (list (option Q)))
  : ZToLLProcessor :=
  mkProcessor (_year s) (_yearmod s) (_lepton_flavor s) (_output_type s) d
    (array_dict s) (is_mc s) (selections s).

(** [c in s] *)
Fixpoint contains (c : ascii) (s : string) : bool :=
  match s with
  | EmptyString => false
  | String d rest => Ascii.eqb d c || contains c rest
  end.

(** What the log says was written and submitted, in order. *)
Definition job_paths (log : list action) : list string :=
  flat_map (fun a => match a with
                     | WriteCondorFile jobpath _ _ _ _ => [jobpath]
                     | _ => []
                     end) log.

Definition job_names (log : list action) : list string :=
  flat_map (fun a => match a with
                     | WriteCondorFile _ jobname _ _ _ => [jobname]
                     | _ => []
                     end) log.

Definition job_flavors (log : list action) : list string :=
  flat_map (fun a => match a with
                     | WriteCondorFile _ _ _ _ flavor => [flavor]
                     | _ => []
                     end) log.

Definition executables (log : list action) : list string :=
  flat_map (fun a => match a with
                     | WriteExecutable _ jobname _ _ => [jobname]
                     | _ => []
                     end) log.

Definition submitted (log : list action) : list string :=
  flat_map (fun a => match a with
                     | CondorSubmit _ jobname => [jobname]
                     | _ => []
                     end) log.

(** The log entries of one job that finds its proxy. *)
Definition job_actions (args : Args) (cmd flavor : string) (submit : bool)
    (localpath x509_path : string) : list action :=
  [WriteCondorFile (get_jobpath args) (get_jobname args) (args_processor args)
     (args_year args) flavor;
   Copy localpath x509_path;
   WriteExecutable (get_jobpath args) (get_jobname args) cmd x509_path]
  ++ (if submit then [CondorSubmit (get_jobpath args) (get_jobname args)]
      else []).

(** The name of the job of partition [nsplit]. *)
Definition partition_name (args : Args) (nsplit : nat) : string :=
  get_jobname (set_nsample args (PInt (Z.of_nat nsplit))).

Definition proxy_error : submit_error :=
  RuntimeError
    "x509 proxy could not be parsed, try creating it with 'voms-proxy-init --voms cms'".

(** * Example inputs *)

Module Example.

(** One weight per event: the product of the event's per-object factors. *)
Fixpoint unflat (sf : list Q) (n : list nat) : list Q :=
  match n with
  | [] => []
  | k :: n' => fold_right Qmult 1%Q (firstn k sf) :: unflat (skipn k sf) n'
  end.

(** A table that answers 1 for every object of the first numeric column. *)
Definition unit_cset : CorrectionSet :=
  fun _ args =>
    match filter (fun a => match a with ANum _ => true | AStr _ => false end)
                 args with
    | ANum xs :: _ => inr (map (fun _ => 1%Q) xs)
    | _ => inl (LookupFailure "no numeric argument")
    end.

Definition sum_vectors (a b : Lepton) : LorentzVector :=
  mkVec (l_pt a + l_pt b)%Q 0%Q 0%Q (l_mass a + l_mass b)%Q.

Definition env : Environment :=
  mkEnvironment
    unflat
    [("2016APV", "2016preVFP_UL"); ("2016", "2016postVFP_UL");
     ("2017", "2017_UL"); ("2018", "2018_UL")]
    (fun _ _ => inr unit_cset)
    (mkElectronSelection 30 "wp80iso" "wp80iso")
    (mkMuonSelection 30 "tight" "tight")
    (mkJetSelection 20 6 "M" "M")
    (fun thr _ _ _ l => Qle_bool thr (l_pt l))
    (fun thr _ _ _ l => Qle_bool thr (l_pt l))
    (fun _ thr _ _ _ j => Qle_bool thr (j_pt j))
    (fun _ _ _ => true)
    (fun _ e => (Jet e, MET e))
    (fun pt phi _ _ _ => (pt, phi))
    (fun _ _ _ w => inr w)
    (fun _ _ _ _ w => inr w)
    (fun _ _ _ _ _ w => inr w)
    (fun _ _ _ _ _ _ _ _ _ w => inr w)
    (fun _ _ _ => true)
    [("2017",
      [("ele", ["Ele35_WPTight_Gsf"; "Ele115_CaloIdVT_GsfTrkIdT"; "Photon200"]);
       ("mu", ["IsoMu27"])])]
    [("2017",
      [("mc", ["goodVertices"; "BadPFMuonFilter"]);
       ("data", ["goodVertices"; "BadPFMuonFilter"; "eeBadScFilter"])])]
    sum_vectors
    (fun a b => a - b)%Q
    (fun _ _ => 1%Q)
    (fun x => x)
    (fun _ => 1%Q)
    (map (fun o => match o with Some x => x | None => 0%Q end)).

Definition electron (pt : Q) (charge : Z) : Lepton :=
  mkLepton pt 0%Q 0%Q (455 # 10)%Q charge (- (11 * charge))%Z.

(** An event with an opposite-charge electron pair that fired the trigger. *)
Definition z_event (weight : Q) : Event :=
  mkEvent 297050 1 weight 20
    [electron 45 1; electron 40 (-1)] [] [] (mkMet 10 0)
    (fun t => String.eqb t "Ele35_WPTight_Gsf")
    (fun _ => true).

(** An event with a good vertex and nothing else. *)
Definition empty_event (weight : Q) : Event :=
  mkEvent 297050 1 weight 1 [] [] [] (mkMet 10 0)
    (fun _ => false) (fun _ => true).

(** Real data from a period without the [Ele115] trigger branch. *)
Definition data_chunk : Events :=
  mkEvents "SingleElectron" false
    ["Ele35_WPTight_Gsf"; "Photon200"] ["goodVertices"; "BadPFMuonFilter"]
    [z_event 1; empty_event 1].

(** Simulation with one negative generator weight. *)
Definition mc_chunk : Events :=
  mkEvents "DYJetsToLL" true
    ["Ele35_WPTight_Gsf"; "Ele115_CaloIdVT_GsfTrkIdT"; "Photon200"]
    ["goodVertices"; "BadPFMuonFilter"]
    [z_event 1; empty_event (-1)].

Definition processor : ZToLLProcessor :=
  ZToLLProcessor_init "2017" EmptyString "ele" "array".

Definition store : Store := mkStore (Weights_new 1) [].

Definition muon_corrector (variation id_wp iso_wp : string) : MuonCorrector :=
  mkMuonCorrector variation id_wp iso_wp [45%Q] [(-3)%Q] [1] unit_cset
    "2017" EmptyString "2017_UL".

End Example.


Module ExampleRun.

Definition objects (events : Events) : Objects :=
  match object_selection Example.env "2017" EmptyString "ele" (has_genWeight events)
          events with
  | inr objs => objs
  | inl _ => mkObjects [] [] [] []
  end.

Definition weights (events : Events) : Weights :=
  match weights_container Example.env "2017" EmptyString "ele" events
          (has_genWeight events) (o_jets (objects events)) with
  | inr w => w
  | inl _ => Weights_new 0
  end.

Definition names_ele : list string :=
  ["Ele35_WPTight_Gsf"; "Ele115_CaloIdVT_GsfTrkIdT"; "Photon200"].

Definition names_mu : list string := ["IsoMu27"].

Definition names_mf (events : Events) : list string :=
  if has_genWeight events then ["goodVertices"; "BadPFMuonFilter"]
  else ["goodVertices"; "BadPFMuonFilter"; "eeBadScFilter"].

End ExampleRun.

Module ExampleHistory.

(** Real data in which no event has a lepton pair. *)
Definition quiet_chunk : Events :=
  mkEvents "SingleElectron" false
    ["Ele35_WPTight_Gsf"; "Photon200"] ["goodVertices"; "BadPFMuonFilter"]
    [Example.empty_event 1].

(** A chunk without events. *)
Definition no_events : Events :=
  mkEvents "SingleElectron" false
    ["Ele35_WPTight_Gsf"; "Photon200"] ["goodVertices"; "BadPFMuonFilter"] [].

(** A simulated chunk without events. *)
Definition no_simulated_events : Events :=
  mkEvents "DYJetsToLL" true
    ["Ele35_WPTight_Gsf"; "Ele115_CaloIdVT_GsfTrkIdT"; "Photon200"]
    ["goodVertices"; "BadPFMuonFilter"] [].

End ExampleHistory.

Module ExampleFailure.

(** A table whose [up] variants are missing. *)
Definition no_up_cset : CorrectionSet :=
  fun key args =>
    if existsb (fun a => match a with
                         | AStr v => String.eqb v "systup" || String.eqb v "sfup"
                         | ANum _ => false
                         end) args
    then inl (LookupFailure "variant not in table")
    else Example.unit_cset key args.

Definition muon_corrector : MuonCorrector :=
  mkMuonCorrector "nominal" "tight" "tight" [45%Q] [(-3)%Q] [1] no_up_cset
    "2017" EmptyString "2017_UL".

End ExampleFailure.

Module ExampleFlavor.

Definition tau_processor : ZToLLProcessor :=
  ZToLLProcessor_init "2017" EmptyString "tau" "array".

Definition mc_store : Store := mkStore (Weights_new 2) [].

(** Real data from a period with none of the listed electron triggers. *)
Definition untriggered_chunk : Events :=
  mkEvents "SingleElectron" false
    ["IsoMu27"] ["goodVertices"; "BadPFMuonFilter"]
    [Example.z_event 1; Example.empty_event 1].

End ExampleFlavor.

(** * Properties of the correctors *)

Section CorrectorProperties.

Variable env : Environment.

Lemma clip_in_range (lo hi x : Q) :
  (lo <= hi)%Q -> (lo <= clip lo hi x)%Q /\ (clip lo hi x <= hi)%Q.
Proof.
  intros Hle. unfold clip. split.
  - apply Q.min_glb; [apply Q.le_max_r | exact Hle].
  - apply Q.le_min_r.
Qed.

Lemma np_clip_in_range (lo hi : Q) (xs : list Q) :
  (lo <= hi)%Q -> in_range lo hi (np_clip xs lo hi).
Proof.
  intros Hle. unfold in_range, np_clip.
  apply Forall_forall. intros y Hy.
  apply in_map_iff in Hy. destruct Hy as [x [<- _]].
  apply clip_in_range; exact Hle.
Qed.

Lemma Weights_add_ok (name : string) (weight : list Q)
    (up down : option (list Q)) (w w' : Weights) :
  Weights_add name weight up down w = (inr tt, w') ->
  w_factors w' = (w_factors w ++ [mkFactor name weight up down])%list /\
  broadcast_mul (w_weight w) weight = Some (w_weight w') /\
  exists statistics,
    statistics_of weight = Some statistics /\
    w_stats w' = Dict.set (w_stats w) name statistics.
Proof.
  unfold Weights_add.
  destruct (endswith name "Up" || endswith name "Down"); [discriminate|].
  destruct (broadcast_mul (w_weight w) weight) as [product|]; [|discriminate].
  destruct (negb (variation_fits weight up)); [discriminate|].
  destruct (negb (variation_fits weight down)); [discriminate|].
  destruct (statistics_of weight) as [statistics|]; [|discriminate].
  intros H. injection H as <-. cbn [w_factors w_weight w_stats].
  split; [reflexivity|]. split; [reflexivity|].
  exists statistics. split; reflexivity.
Qed.

Lemma Weights_add_raises (name : string) (weight : list Q)
    (up down : option (list Q)) (w w' : Weights) (e : exn) :
  Weights_add name weight up down w = (inl e, w') ->
  w_stats w' = w_stats w /\
  (w' = w \/
   exists up' down',
     w_factors w' = (w_factors w ++ [mkFactor name weight up' down'])%list).
Proof.
  unfold Weights_add.
  destruct (endswith name "Up" || endswith name "Down").
  { intros H. injection H as _ <-. auto. }
  destruct (broadcast_mul (w_weight w) weight) as [product|].
  2: { intros H. injection H as _ <-. auto. }
  destruct (negb (variation_fits weight up)).
  { intros H. injection H as _ <-. split; [reflexivity|]. right.
    exists None, None. reflexivity. }
  destruct (negb (variation_fits weight down)).
  { intros H. injection H as _ <-. split; [reflexivity|]. right.
    exists up, None. reflexivity. }
  destruct (statistics_of weight) as [statistics|]; [discriminate|].
  intros H. injection H as _ <-. split; [reflexivity|]. right.
  exists up, down. reflexivity.
Qed.

Lemma weights_add_returns (name : string) (weight : list Q)
    (up down : option (list Q)) (s s' : Store) :
  weights_add name weight up down s = (inr tt, s') ->
  st_lookups s' = st_lookups s /\
  registers s s' (mkFactor name weight up down).
Proof.
  unfold weights_add, registers.
  destruct (Weights_add name weight up down (st_weights s)) as [r w] eqn:Ha.
  intros H. injection H as -> <-. apply Weights_add_ok in Ha.
  split; [reflexivity|]. apply Ha.
Qed.

Ltac sent_log :=
  first [ rewrite <- !app_assoc | idtac ];
  split; [reflexivity|]; split; [discriminate|];
  repeat constructor; eexists; reflexivity.

Lemma electron_add_sends (self : ElectronCorrector) (name wp : string)
    (eta pt : list Q) (s : Store) :
  exists new,
    sends (electron_add env self name wp eta pt) s new /\
    new <> [] /\
    Forall (fun lk => exists v,
              lk = mkLookup "UL-Electron-ID-SF"
                     (electron_id_args self v wp eta pt)) new.
Proof.
  unfold sends, electron_add, electron_sf, bind, evaluate, ret, weights_add.
  simpl.
  destruct (e_cset self _ (electron_id_args self "sf" wp eta pt)); simpl.
  { eexists [_]. sent_log. }
  destruct (String.eqb (e_variation self) "nominal"); simpl.
  - destruct (e_cset self _ (electron_id_args self "sfup" wp eta pt)); simpl.
    { eexists [_; _]. sent_log. }
    destruct (e_cset self _ (electron_id_args self "sfdown" wp eta pt)); simpl.
    { eexists [_; _; _]. sent_log. }
    destruct (Weights_add _ _ _ _ _); simpl; eexists [_; _; _]; sent_log.
  - destruct (Weights_add _ _ _ _ _); simpl; eexists [_]; sent_log.
Qed.

Lemma muon_add_sends (self : MuonCorrector) (name key : string)
    (eta pt : list Q) (s : Store) :
  exists new,
    sends (muon_add env self name key eta pt) s new /\
    new <> [] /\
    Forall (fun lk => exists v,
              lk = mkLookup key (muon_args self eta pt v)) new.
Proof.
  unfold sends, muon_add, muon_sf, bind, evaluate, ret, weights_add.
  simpl.
  destruct (m_cset self key (muon_args self eta pt "sf")); simpl.
  { eexists [_]. sent_log. }
  destruct (String.eqb (m_variation self) "nominal"); simpl.
  - destruct (m_cset self key (muon_args self eta pt "systup")); simpl.
    { eexists [_; _]. sent_log. }
    destruct (m_cset self key (muon_args self eta pt "systdown")); simpl.
    { eexists [_; _; _]. sent_log. }
    destruct (Weights_add _ _ _ _ _); simpl; eexists [_; _; _]; sent_log.
  - destruct (Weights_add _ _ _ _ _); simpl; eexists [_]; sent_log.
Qed.

Lemma add_weight_cases (self : MuonCorrector) (sf_type : string) (s : Store) :
  (exists e, MuonCorrector_add_weight env self sf_type s = (inl e, s)) \/
  (exists key,
     MuonCorrector_add_weight env self sf_type s =
       muon_add env self ("muon_" ++ sf_type) key
         (np_clip (np_abs (muons_eta self)) 0 (2399 # 1000))
         (np_clip (muons_pt self) 15 (119999 # 1000)) s).
Proof.
  unfold MuonCorrector_add_weight, bind, py_assert, dict_getitem, read_local,
    ret, raise.
  destruct (String.eqb (iso_wp self) "tight");
    [destruct (negb (String.eqb (id_wp self) "loose"))|];
    try (left; eexists; reflexivity).
  all: destruct (Dict.get id_corrections (id_wp self));
    try (left; eexists; reflexivity).
  all: destruct (iso_correction_after_tight self (iso_correction_after_loose self));
    try (left; eexists; reflexivity).
  all: match goal with |- context [Dict.get ?d ?k] => destruct (Dict.get d k) end;
    try (left; eexists; reflexivity).
  all: right; eexists; reflexivity.
Qed.

Lemma triggeriso_cases (self : MuonCorrector) (s : Store) :
  (exists e, MuonCorrector_add_triggeriso_weight env self s = (inl e, s)) \/
  (exists key,
     MuonCorrector_add_triggeriso_weight env self s =
       muon_add env self "muon_triggeriso" key
         (np_clip (np_abs (muons_eta self)) 0 (2399 # 1000))
         (np_clip (muons_pt self) 29 (199999 # 1000)) s).
Proof.
  unfold MuonCorrector_add_triggeriso_weight, bind, py_assert, dict_getitem,
    ret, raise.
  destruct (String.eqb (id_wp self) "tight" && String.eqb (iso_wp self) "tight");
    try (left; eexists; reflexivity).
  destruct (Dict.get triggeriso_keys (m_year self));
    try (left; eexists; reflexivity).
  right; eexists; reflexivity.
Qed.

Lemma sends_nothing (m : M unit) (s : Store) (e : exn) (Q : Lookup -> Prop) :
  m s = (inl e, s) -> exists new, sends m s new /\ Forall Q new.
Proof.
  intros H. exists []. unfold sends. rewrite H. simpl.
  rewrite app_nil_r. split; [reflexivity | constructor].
Qed.

Lemma muon_lookup_clamped (self : MuonCorrector) (key : string) (lo hi : Q)
    (lk : Lookup) :
  (lo <= hi)%Q ->
  (exists v, lk = mkLookup key
               (muon_args self
                  (np_clip (np_abs (muons_eta self)) 0 (2399 # 1000))
                  (np_clip (muons_pt self) lo hi) v)) ->
  muon_clamped self lo hi lk.
Proof.
  intros Hle [v ->]. unfold muon_clamped, muon_args. simpl.
  eexists _, _, _, _. split; [reflexivity|].
  split; [reflexivity|].
  split; [apply np_clip_in_range; unfold Qle; simpl; lia|].
  split; [reflexivity|].
  apply np_clip_in_range; exact Hle.
Qed.

Lemma muon_weight_sends (self : MuonCorrector) (sf_type : string) (s : Store) :
  exists new,
    sends (MuonCorrector_add_weight env self sf_type) s new /\
    Forall (muon_clamped self 15 (119999 # 1000)) new.
Proof.
  destruct (add_weight_cases self sf_type s) as [[e He] | [key Hk]].
  - eapply sends_nothing; exact He.
  - destruct (muon_add_sends self ("muon_" ++ sf_type) key
                (np_clip (np_abs (muons_eta self)) 0 (2399 # 1000))
                (np_clip (muons_pt self) 15 (119999 # 1000)) s)
      as [new [Hs [_ Hall]]].
    exists new. split.
    + unfold sends in *. rewrite Hk. exact Hs.
    + eapply Forall_impl; [|exact Hall].
      intros lk Hlk. eapply muon_lookup_clamped; [|exact Hlk].
      unfold Qle; simpl; lia.
Qed.

Lemma muon_triggeriso_sends (self : MuonCorrector) (s : Store) :
  exists new,
    sends (MuonCorrector_add_triggeriso_weight env self) s new /\
    Forall (muon_clamped self 29 (199999 # 1000)) new.
Proof.
  destruct (triggeriso_cases self s) as [[e He] | [key Hk]].
  - eapply sends_nothing; exact He.
  - destruct (muon_add_sends self "muon_triggeriso" key
                (np_clip (np_abs (muons_eta self)) 0 (2399 # 1000))
                (np_clip (muons_pt self) 29 (199999 # 1000)) s)
      as [new [Hs [_ Hall]]].
    exists new. split.
    + unfold sends in *. rewrite Hk. exact Hs.
    + eapply Forall_impl; [|exact Hall].
      intros lk Hlk. eapply muon_lookup_clamped; [|exact Hlk].
      unfold Qle; simpl; lia.
Qed.

(** C4: every lookup sent by the electron ID method carries eta as stored and
    pt clamped to [10.0, 499.999]; every lookup sent by the muon ID and iso
    methods carries |eta| clamped to [0.0, 2.399] and pt clamped to
    [15.0, 119.999]; every lookup sent by the muon trigger method carries
    |eta| clamped to [0.0, 2.399] and pt clamped to [29.0, 199.999]. *)
Theorem lookups_are_clamped (e : ElectronCorrector) (id_working_point : string)
    (m : MuonCorrector) (s : Store) :
  (exists new,
     sends (ElectronCorrector_add_id_weight env e id_working_point) s new /\
     new <> [] /\ Forall (electron_id_clamped e) new) /\
  (exists new,
     sends (MuonCorrector_add_id_weight env m) s new /\
     Forall (muon_clamped m 15 (119999 # 1000)) new) /\
  (exists new,
     sends (MuonCorrector_add_iso_weight env m) s new /\
     Forall (muon_clamped m 15 (119999 # 1000)) new) /\
  (exists new,
     sends (MuonCorrector_add_triggeriso_weight env m) s new /\
     Forall (muon_clamped m 29 (199999 # 1000)) new).
Proof.
  split; [|split; [|split]].
  - unfold ElectronCorrector_add_id_weight.
    destruct (electron_add_sends e "electron_id" id_working_point
                (electrons_eta e)
                (np_clip (electrons_pt e) 10 (499999 # 1000)) s)
      as [new [Hs [Hne Hall]]].
    exists new. split; [exact Hs|]. split; [exact Hne|].
    eapply Forall_impl; [|exact Hall].
    intros lk [v ->]. unfold electron_id_clamped, electron_id_args. simpl.
    eexists _, _, _, _. split; [reflexivity|]. split; [reflexivity|].
    apply np_clip_in_range. unfold Qle; simpl; lia.
  - apply muon_weight_sends.
  - apply muon_weight_sends.
  - apply muon_triggeriso_sends.
Qed.

(** C3: when the ID or the iso working point of a muon corrector is not
    "tight", [add_triggeriso_weight] fails on its opening assertion, which is
    the configuration error of the method; the store is returned as it was,
    so no lookup was sent and the ledger is unchanged. *)
Theorem triggeriso_requires_tight (self : MuonCorrector) (s : Store) :
  id_wp self <> "tight" \/ iso_wp self <> "tight" ->
  MuonCorrector_add_triggeriso_weight env self s =
    (inl (AssertionError
            "there's only available muon trigger SF for 'tight' ID and Iso"),
     s).
Proof.
  intros H. unfold MuonCorrector_add_triggeriso_weight, bind, py_assert.
  assert (Hb : String.eqb (id_wp self) "tight"
               && String.eqb (iso_wp self) "tight" = false).
  { apply andb_false_iff.
    destruct H as [H | H]; [left | right]; apply String.eqb_neq; exact H. }
  rewrite Hb. reflexivity.
Qed.

(** C10: with an iso working point other than "loose" and "tight", every
    call of [add_weight], and so of [add_id_weight] and [add_iso_weight],
    raises before any lookup and leaves the store as it was; for the
    documented ID working points the exception is the unbound local
    [iso_correction]. *)
Theorem add_weight_unbound_iso_correction (self : MuonCorrector) (s : Store) :
  iso_wp self <> "loose" -> iso_wp self <> "tight" ->
  exists e,
    (forall sf_type,
        MuonCorrector_add_weight env self sf_type s = (inl e, s)) /\
    MuonCorrector_add_id_weight env self s = (inl e, s) /\
    MuonCorrector_add_iso_weight env self s = (inl e, s) /\
    (In (id_wp self) ["loose"; "medium"; "tight"] ->
     e = UnboundLocalError "iso_correction").
Proof.
  intros Hl Ht.
  apply String.eqb_neq in Hl. apply String.eqb_neq in Ht.
  assert (Hiso : iso_correction_after_tight self (iso_correction_after_loose self)
                 = None).
  { unfold iso_correction_after_tight, iso_correction_after_loose.
    rewrite Hl, Ht. reflexivity. }
  unfold MuonCorrector_add_id_weight, MuonCorrector_add_iso_weight,
    MuonCorrector_add_weight, bind, py_assert, dict_getitem, read_local,
    ret, raise.
  rewrite Ht, Hiso.
  destruct (Dict.get id_corrections (id_wp self)) eqn:Hid.
  - exists (UnboundLocalError "iso_correction"). repeat split; reflexivity.
  - exists (KeyError (id_wp self)). repeat split; try reflexivity.
    intros Hin. simpl in Hin.
    destruct Hin as [H | [H | [H | []]]]; rewrite <- H in Hid;
      discriminate Hid.
Qed.

Lemma muon_add_ok (self : MuonCorrector) (name key : string)
    (eta pt : list Q) (s s' : Store) :
  muon_add env self name key eta pt s = (inr tt, s') ->
  let L := fun v => mkLookup key (muon_args self eta pt v) in
  let U := fun sf => unflat_sf env sf (m_n self) in
  if String.eqb (m_variation self) "nominal" then
    exists sf up down,
      m_cset self key (muon_args self eta pt "sf") = inr sf /\
      m_cset self key (muon_args self eta pt "systup") = inr up /\
      m_cset self key (muon_args self eta pt "systdown") = inr down /\
      st_lookups s' = (st_lookups s ++ [L "sf"; L "systup"; L "systdown"])%list /\
      registers s s' (mkFactor name (U sf) (Some (U up)) (Some (U down)))
  else
    exists sf,
      m_cset self key (muon_args self eta pt "sf") = inr sf /\
      st_lookups s' = (st_lookups s ++ [L "sf"])%list /\
      registers s s' (mkFactor name (U sf) None None).
Proof.
  unfold muon_add, muon_sf, bind, evaluate, ret.
  simpl.
  destruct (m_cset self key (muon_args self eta pt "sf")) as [e|sf]; simpl;
    [discriminate|].
  destruct (String.eqb (m_variation self) "nominal"); simpl.
  - destruct (m_cset self key (muon_args self eta pt "systup")) as [e|up];
      simpl; [discriminate|].
    destruct (m_cset self key (muon_args self eta pt "systdown")) as [e|down];
      simpl; [discriminate|].
    intros H. apply weights_add_returns in H. destruct H as [Hl Hr].
    cbn [st_lookups st_weights] in Hl, Hr.
    exists sf, up, down. rewrite Hl, <- !app_assoc.
    repeat split; try reflexivity. exact Hr.
  - intros H. apply weights_add_returns in H. destruct H as [Hl Hr].
    cbn [st_lookups st_weights] in Hl, Hr.
    exists sf. rewrite Hl. repeat split; try reflexivity. exact Hr.
Qed.

Lemma electron_add_ok (self : ElectronCorrector) (name wp : string)
    (eta pt : list Q) (s s' : Store) :
  electron_add env self name wp eta pt s = (inr tt, s') ->
  let L := fun v => mkLookup "UL-Electron-ID-SF"
                      (electron_id_args self v wp eta pt) in
  let U := fun sf => unflat_sf env sf (e_n self) in
  let C := e_cset self "UL-Electron-ID-SF" in
  if String.eqb (e_variation self) "nominal" then
    exists sf up down,
      C (electron_id_args self "sf" wp eta pt) = inr sf /\
      C (electron_id_args self "sfup" wp eta pt) = inr up /\
      C (electron_id_args self "sfdown" wp eta pt) = inr down /\
      st_lookups s' = (st_lookups s ++ [L "sf"; L "sfup"; L "sfdown"])%list /\
      registers s s' (mkFactor name (U sf) (Some (U up)) (Some (U down)))
  else
    exists sf,
      C (electron_id_args self "sf" wp eta pt) = inr sf /\
      st_lookups s' = (st_lookups s ++ [L "sf"])%list /\
      registers s s' (mkFactor name (U sf) None None).
Proof.
  unfold electron_add, electron_sf, bind, evaluate, ret.
  simpl.
  destruct (e_cset self _ (electron_id_args self "sf" wp eta pt)) as [e|sf];
    simpl; [discriminate|].
  destruct (String.eqb (e_variation self) "nominal"); simpl.
  - destruct (e_cset self _ (electron_id_args self "sfup" wp eta pt)) as [e|up];
      simpl; [discriminate|].
    destruct (e_cset self _ (electron_id_args self "sfdown" wp eta pt))
      as [e|down]; simpl; [discriminate|].
    intros H. apply weights_add_returns in H. destruct H as [Hl Hr].
    cbn [st_lookups st_weights] in Hl, Hr.
    exists sf, up, down. rewrite Hl, <- !app_assoc.
    repeat split; try reflexivity. exact Hr.
  - intros H. apply weights_add_returns in H. destruct H as [Hl Hr].
    cbn [st_lookups st_weights] in Hl, Hr.
    exists sf. rewrite Hl. repeat split; try reflexivity. exact Hr.
Qed.



End CorrectorProperties.

(** * Properties of the processor *)

Lemma filter_map_swap {A B : Type} (f : B -> bool) (g : A -> B) (l : list A) :
  filter f (map g l) = map g (filter (fun x => f (g x)) l).
Proof.
  induction l as [|x l IH]; simpl; [reflexivity|].
  destruct (f (g x)); simpl; rewrite IH; reflexivity.
Qed.

Lemma mask_select_index {A : Type} (d : A) (xs : list A) (mask : list bool) :
  List.length xs = List.length mask ->
  mask_select xs mask =
    map (fun j => nth j xs d)
        (filter (fun j => nth j mask false) (seq 0 (List.length xs))).
Proof.
  revert mask. induction xs as [|x xs IH]; intros [|b mask] Hlen;
    try discriminate; [reflexivity|].
  simpl in Hlen. injection Hlen as Hlen.
  unfold mask_select in *. simpl.
  rewrite <- seq_shift, filter_map_swap.
  destruct b; simpl; rewrite map_map; rewrite IH by exact Hlen; reflexivity.
Qed.

Lemma nth_map_seq {A : Type} (f : nat -> A) (d : A) (n j : nat) :
  j < n -> nth j (map f (seq 0 n)) d = f j.
Proof.
  intros Hj. rewrite (nth_indep _ d (f 0)) by (rewrite length_map, length_seq; exact Hj).
  rewrite (map_nth f (seq 0 n) 0 j). rewrite seq_nth by exact Hj. reflexivity.
Qed.

Lemma lookup_all_bits (sel : PackedSelection) (names : list string)
    (ms : list (list bool)) (j : nat) :
  lookup_all sel names = inr ms ->
  forallb (fun m => nth j m false) ms = forallb (fun c => bit sel c j) names.
Proof.
  revert ms. induction names as [|c names IH]; intros ms H; simpl in H.
  - injection H as <-. reflexivity.
  - destruct (Dict.get sel c) as [m|] eqn:Hc; [|discriminate].
    destruct (lookup_all sel names) as [e|ms'] eqn:Hl; simpl in H;
      [discriminate|].
    injection H as <-. simpl. unfold bit at 1. rewrite Hc.
    rewrite (IH ms' eq_refl). reflexivity.
Qed.

Lemma all_passing (sel : PackedSelection) (names : list string)
    (mask : list bool) :
  PackedSelection_all sel names = inr mask ->
  List.length mask = ps_size sel /\
  filter (fun j => nth j mask false) (seq 0 (ps_size sel)) =
    passing sel names (ps_size sel).
Proof.
  unfold PackedSelection_all.
  destruct (lookup_all sel names) as [e|ms] eqn:Hl; simpl; [discriminate|].
  intros H. injection H as <-. split.
  - rewrite length_map, length_seq. reflexivity.
  - unfold passing. apply filter_ext_in. intros j Hj.
    apply in_seq in Hj. rewrite nth_map_seq by lia.
    apply lookup_all_bits. exact Hl.
Qed.

Lemma getitem_mask_ok {A : Type} (xs : list A) (mask : list bool) :
  List.length xs = List.length mask ->
  getitem_mask xs mask = inr (mask_select xs mask).
Proof.
  intros H. unfold getitem_mask. rewrite H, Nat.eqb_refl. reflexivity.
Qed.

(** one turn of the loop *)
Lemma selected_sum (sel : PackedSelection) (w : list Q) (names : list string)
    (mask : list bool) :
  List.length w = ps_size sel ->
  PackedSelection_all sel names = inr mask ->
  getitem_mask w mask = inr (mask_select w mask) /\
  Qsum (mask_select w mask) = selected_weight w sel names.
Proof.
  intros Hw Hall. destruct (all_passing _ _ Hall) as [Hlen Hf].
  split; [apply getitem_mask_ok; congruence|].
  unfold selected_weight.
  rewrite (mask_select_index 0%Q) by congruence.
  rewrite Hw, Hf. reflexivity.
Qed.

Lemma set_fresh {V : Type} (d : Dict.t V) (k : string) (v : V) :
  ~ In k (Dict.keys d) -> Dict.set d k v = (d ++ [(k, v)])%list.
Proof.
  induction d as [|[k' v'] d IH]; simpl; intros Hk; [reflexivity|].
  destruct (String.eqb k k') eqn:E.
  - apply String.eqb_eq in E. exfalso. apply Hk. left. symmetry. exact E.
  - rewrite IH; [reflexivity|]. intros Hin. apply Hk. right. exact Hin.
Qed.

Lemma get_app_fresh {V : Type} (d d' : Dict.t V) (k : string) :
  ~ In k (Dict.keys d) -> Dict.get (d ++ d')%list k = Dict.get d' k.
Proof.
  induction d as [|[k' v'] d IH]; simpl; intros Hk; [reflexivity|].
  destruct (String.eqb k k') eqn:E.
  - apply String.eqb_eq in E. exfalso. apply Hk. left. symmetry. exact E.
  - apply IH. intros Hin. apply Hk. right. exact Hin.
Qed.

Lemma keys_cutflow_spec (w : list Q) (sel : PackedSelection)
    (pre cuts : list string) :
  Dict.keys (cutflow_spec w sel pre cuts) = cuts.
Proof.
  revert pre. induction cuts as [|c cuts IH]; intros pre; simpl;
    [reflexivity|].
  unfold Dict.keys in *. simpl. rewrite IH. reflexivity.
Qed.

Lemma get_cutflow_spec (w : list Q) (sel : PackedSelection)
    (pre cuts : list string) (i : nat) (name : string) :
  NoDup cuts ->
  nth_error cuts i = Some name ->
  Dict.get (cutflow_spec w sel pre cuts) name =
    Some (selected_weight w sel (pre ++ firstn (S i) cuts)%list).
Proof.
  revert pre i. induction cuts as [|c cuts IH]; intros pre i Hnd Hi.
  - destruct i; discriminate.
  - inversion Hnd as [|? ? Hc Hnd']; subst.
    destruct i as [|i]; simpl in Hi.
    + injection Hi as ->. simpl. rewrite String.eqb_refl. reflexivity.
    + simpl.
      destruct (String.eqb name c) eqn:E.
      * apply String.eqb_eq in E. subst c. exfalso. apply Hc.
        eapply nth_error_In. exact Hi.
      * rewrite (IH (pre ++ [c])%list i) by assumption.
        rewrite <- app_assoc. reflexivity.
Qed.

Lemma lookup_all_registered (sel : PackedSelection) (names : list string) :
  registered sel names -> exists ms, lookup_all sel names = inr ms.
Proof.
  induction names as [|c names IH]; intros H; simpl.
  - eexists; reflexivity.
  - inversion H as [|? ? Hc Hr]; subst.
    destruct (Dict.get sel c) as [m|]; [|congruence].
    destruct (IH Hr) as [ms ->]. eexists; reflexivity.
Qed.

Lemma all_registered (sel : PackedSelection) (names : list string) :
  registered sel names -> exists mask, PackedSelection_all sel names = inr mask.
Proof.
  intros H. destruct (lookup_all_registered H) as [ms Hms].
  unfold PackedSelection_all. rewrite Hms. eexists; reflexivity.
Qed.

Lemma cutflow_loop_spec (sel : PackedSelection) (w : list Q)
    (cuts pre : list string) (d : Dict.t Q) :
  List.length w = ps_size sel ->
  registered sel (pre ++ cuts)%list ->
  NoDup (Dict.keys d ++ cuts)%list ->
  cutflow_loop sel w cuts pre d = inr (d ++ cutflow_spec w sel pre cuts)%list.
Proof.
  intros Hw. revert pre d. induction cuts as [|c cuts IH]; intros pre d Hr Hnd.
  - simpl. rewrite app_nil_r. reflexivity.
  - simpl.
    assert (Hr1 : registered sel (pre ++ [c])%list).
    { unfold registered in *. rewrite Forall_app in *. destruct Hr as [H1 H2].
      split; [exact H1|]. inversion H2; subst. repeat constructor. assumption. }
    destruct (all_registered Hr1) as [mask Hmask]. rewrite Hmask. simpl.
    destruct (@selected_sum sel w _ mask Hw Hmask) as [Hget Hsum].
    rewrite Hget. simpl. rewrite Hsum.
    assert (Hfresh : ~ In c (Dict.keys d)).
    { apply NoDup_remove_2 in Hnd. intros Hin. apply Hnd.
      apply in_or_app. left. exact Hin. }
    rewrite set_fresh by exact Hfresh.
    rewrite IH.
    + rewrite <- app_assoc. reflexivity.
    + rewrite <- app_assoc. exact Hr.
    + unfold Dict.keys. rewrite map_app. simpl. rewrite <- app_assoc. simpl.
      exact Hnd.
Qed.

Lemma Qsum_filter_le (h : nat -> Q) (f g : nat -> bool) (l : list nat) :
  (forall j, (0 <= h j)%Q) ->
  (forall j, g j = true -> f j = true) ->
  (Qsum (map h (filter g l)) <= Qsum (map h (filter f l)))%Q.
Proof.
  intros Hh Hgf. induction l as [|j l IH]; simpl; [apply Qle_refl|].
  destruct (g j) eqn:Eg.
  - rewrite (Hgf j Eg). simpl. apply Qplus_le_compat; [apply Qle_refl | exact IH].
  - destruct (f j); simpl; [|exact IH].
    rewrite <- (Qplus_0_l (Qsum (map h (filter g l)))).
    apply Qplus_le_compat; [apply Hh | exact IH].
Qed.

Lemma nth_nonneg (w : list Q) (j : nat) :
  Forall (fun x => (0 <= x)%Q) w -> (0 <= nth j w 0%Q)%Q.
Proof.
  intros H. revert j. induction H as [|x w Hx Hw IH]; intros [|j]; simpl;
    try apply Qle_refl; auto.
Qed.

Lemma selected_weight_antitone (w : list Q) (sel : PackedSelection)
    (cuts more : list string) :
  Forall (fun x => (0 <= x)%Q) w ->
  (selected_weight w sel (cuts ++ more)%list <= selected_weight w sel cuts)%Q.
Proof.
  intros Hw. unfold selected_weight, passing.
  apply Qsum_filter_le.
  - intros j. apply nth_nonneg. exact Hw.
  - intros j H. rewrite forallb_app in H. apply andb_true_iff in H. tauto.
Qed.

Lemma cutflow_spec_non_increasing (w : list Q) (sel : PackedSelection)
    (pre cuts : list string) :
  Forall (fun x => (0 <= x)%Q) w ->
  non_increasing (map snd (cutflow_spec w sel pre cuts)).
Proof.
  intros Hw. revert pre. induction cuts as [|c cuts IH]; intros pre;
    [exact I|].
  destruct cuts as [|c' cuts]; [exact I|].
  specialize (IH (pre ++ [c])%list).
  change (map snd (cutflow_spec w sel pre (c :: c' :: cuts)))
    with (selected_weight w sel (pre ++ [c])%list
          :: map snd (cutflow_spec w sel (pre ++ [c])%list (c' :: cuts))).
  simpl in *. split; [|exact IH].
  apply selected_weight_antitone. exact Hw.
Qed.


Lemma bind_step {S A B : Type} (m : St S A) (k : A -> St S B) (s s1 : S)
    (a : A) :
  m s = (inr a, s1) -> bind m k s = k a s1.
Proof. intros H. unfold bind. rewrite H. reflexivity. Qed.

Lemma bind_fail {S A B : Type} (m : St S A) (k : A -> St S B) (s s1 : S)
    (e : exn) :
  m s = (inl e, s1) -> bind m k s = (inl e, s1).
Proof. intros H. unfold bind. rewrite H. reflexivity. Qed.

Lemma dict_getitem_ok {S V : Type} (d : Dict.t V) (k : string) (v : V) (s : S) :
  Dict.get d k = Some v -> dict_getitem d k s = (inr v, s).
Proof. intros H. unfold dict_getitem. rewrite H. reflexivity. Qed.

Lemma length_filled (m : list (option bool)) :
  List.length (filled m) = List.length m.
Proof. unfold filled. apply length_map. Qed.

Lemma filled_map_Some (m : list bool) : filled (map Some m) = m.
Proof.
  unfold filled. rewrite map_map. induction m; simpl; congruence.
Qed.

Lemma PackedSelection_add_ok (name : string) (m : list (option bool))
    (sel : PackedSelection) :
  Dict.mem sel name = false ->
  sel = [] \/ ps_size sel = List.length m ->
  PackedSelection_add name m sel = inr (sel ++ [(name, filled m)])%list.
Proof.
  intros Hmem Hsize. unfold PackedSelection_add. rewrite Hmem.
  destruct sel as [|p sel]; [reflexivity|].
  destruct Hsize as [H | H]; [discriminate|].
  rewrite H, Nat.eqb_refl. reflexivity.
Qed.

Lemma selections_add_ok (name : string) (m : list (option bool))
    (s : ZToLLProcessor) (sel : PackedSelection) :
  selections s = Some sel ->
  Dict.mem sel name = false ->
  sel = [] \/ ps_size sel = List.length m ->
  selections_add name m s =
    (inr tt, with_selections s (sel ++ [(name, filled m)])%list).
Proof.
  intros Hs Hmem Hsize.
  unfold selections_add, bind, get_selections, lift. rewrite Hs.
  rewrite PackedSelection_add_ok by assumption. reflexivity.
Qed.

Lemma with_selections_twice (s : ZToLLProcessor) (a b : PackedSelection) :
  with_selections (with_selections s a) b = with_selections s b.
Proof. reflexivity. Qed.

Lemma selections_with (s : ZToLLProcessor) (a : PackedSelection) :
  selections (with_selections s a) = Some a.
Proof. reflexivity. Qed.

Lemma length_trigger_mask (events : Events) (names : list string) :
  List.length (trigger_mask events names) = len events.
Proof.
  unfold trigger_mask.
  assert (H : forall acc, List.length acc = len events ->
            List.length
              (fold_left
                 (fun acc t =>
                    if existsb (String.eqb t) (HLT_fields events)
                    then map (fun p => orb (fst p) (snd p))
                           (combine acc (map (fun e => HLT e t) (rows events)))
                    else acc) names acc) = len events).
  { induction names as [|t names IH]; intros acc Hacc; simpl; [exact Hacc|].
    apply IH. destruct (existsb _ _); [|exact Hacc].
    rewrite length_map, length_combine, length_map, Hacc.
    unfold len. apply Nat.min_id. }
  apply H. apply repeat_length.
Qed.

Lemma length_metfilters_mask (events : Events) (names : list string) :
  List.length (metfilters_mask events names) = len events.
Proof.
  unfold metfilters_mask.
  assert (H : forall acc, List.length acc = len events ->
            List.length
              (fold_left
                 (fun acc mf =>
                    if existsb (String.eqb mf) (Flag_fields events)
                    then map (fun p => andb (fst p) (snd p))
                           (combine acc (map (fun e => Flag e mf) (rows events)))
                    else acc) names acc) = len events).
  { induction names as [|t names IH]; intros acc Hacc; simpl; [exact Hacc|].
    apply IH. destruct (existsb _ _); [|exact Hacc].
    rewrite length_map, length_combine, length_map, Hacc.
    unfold len. apply Nat.min_id. }
  apply H. apply repeat_length.
Qed.

Lemma length_lumi_column (env : Environment) (year : string) (mc : bool)
    (events : Events) :
  List.length (lumi_column env year mc events) = len events.
Proof.
  unfold lumi_column. destruct (negb mc).
  - apply length_map.
  - apply repeat_length.
Qed.

Lemma object_selection_shape (env : Environment)
    (year yearmod flavor : string) (mc : bool) (events : Events)
    (objs : Objects) :
  object_selection env year yearmod flavor mc events = inr objs ->
  well_shaped events objs.
Proof.
  unfold object_selection, good_leptons.
  assert (He : List.length (good_electrons env events) = len events)
    by apply length_map.
  assert (Hm : List.length (good_muons env events) = len events)
    by apply length_map.
  destruct (String.eqb flavor "ele"); simpl.
  - intros H. injection H as <-. unfold well_shaped. simpl.
    rewrite !length_map, length_combine, !length_map, He.
    unfold len. rewrite Nat.min_id. auto.
  - destruct (String.eqb flavor "mu"); simpl; [|discriminate].
    intros H. injection H as <-. unfold well_shaped. simpl.
    rewrite !length_map, length_combine, !length_map, Hm.
    unfold len. rewrite Nat.min_id. auto.
Qed.

Lemma object_selection_ok (env : Environment)
    (year yearmod flavor : string) (mc : bool) (events : Events) :
  flavor = "ele" \/ flavor = "mu" ->
  exists objs, object_selection env year yearmod flavor mc events = inr objs.
Proof.
  intros [-> | ->]; unfold object_selection, good_leptons; simpl;
    eexists; reflexivity.
Qed.


Ltac add_step :=
  erewrite bind_step;
  [| apply selections_add_ok;
     [ reflexivity
     | reflexivity
     | first [ left; reflexivity
             | right; simpl;
               rewrite ?length_filled, ?length_map, ?length_combine,
                 ?length_lumi_column, ?length_trigger_mask,
                 ?length_metfilters_mask;
               unfold len in *; lia ] ] ];
  rewrite ?with_selections_twice; simpl app.

Ltac get_step H :=
  erewrite bind_step; [| apply dict_getitem_ok; exact H ].

Lemma register_selections_ok (env : Environment) (year : string)
    (events : Events) (mc : bool) (objs : Objects)
    (names_ele names_mu names_mf : list string) (s : ZToLLProcessor) :
  well_shaped events objs ->
  configured env year mc names_ele names_mu names_mf ->
  register_selections env year events mc objs s =
    (inr tt,
     with_selections s
       (registry env year events mc objs names_ele names_mu names_mf)).
Proof.
  intros (Hl & Hj & Hm & Hb) (cfg & fcfg & H1 & H2 & H3 & H4 & H5).
  unfold register_selections.
  erewrite bind_step by reflexivity.
  fold (with_selections s PackedSelection_new).
  add_step.
  get_step H1. get_step H2. get_step H3.
  add_step. add_step.
  get_step H4. get_step H5.
  do 9 add_step.
  rewrite selections_add_ok with (sel := removelast (registry env year events mc objs names_ele names_mu names_mf)).
  - rewrite with_selections_twice. reflexivity.
  - reflexivity.
  - reflexivity.
  - right. simpl.
    rewrite ?length_filled, ?length_map, ?length_lumi_column.
    unfold len in *; lia.
Qed.


Lemma all_region_mask (sel : PackedSelection) (cuts : list string) :
  registered sel cuts ->
  PackedSelection_all sel cuts = inr (region_mask sel cuts (ps_size sel)).
Proof.
  intros H. destruct (lookup_all_registered H) as [ms Hms].
  unfold PackedSelection_all, region_mask. rewrite Hms. simpl. f_equal.
  apply map_ext. intros j. eapply lookup_all_bits. exact Hms.
Qed.

Lemma regions_cases (flavor : string) (cuts : list string) :
  Dict.get regions flavor = Some cuts ->
  (flavor = "ele" /\ cuts = ele_cuts) \/ (flavor = "mu" /\ cuts = mu_cuts).
Proof.
  unfold regions. simpl.
  destruct (String.eqb flavor "ele") eqn:E1.
  - intros H. injection H as <-. apply String.eqb_eq in E1. left. auto.
  - destruct (String.eqb flavor "mu") eqn:E2; [|discriminate].
    intros H. injection H as <-. apply String.eqb_eq in E2. right. auto.
Qed.

Lemma registry_registered (env : Environment) (year : string)
    (events : Events) (mc : bool) (objs : Objects)
    (ne nm nf cuts : list string) :
  cuts = ele_cuts \/ cuts = mu_cuts ->
  registered (registry env year events mc objs ne nm nf) cuts.
Proof.
  intros [-> | ->]; unfold registered, ele_cuts, mu_cuts;
    repeat constructor; discriminate.
Qed.

Lemma ps_size_registry (env : Environment) (year : string)
    (events : Events) (mc : bool) (objs : Objects) (ne nm nf : list string) :
  ps_size (registry env year events mc objs ne nm nf) = len events.
Proof.
  simpl. rewrite length_filled, length_map. apply length_lumi_column.
Qed.

Lemma length_region_mask (sel : PackedSelection) (cuts : list string) (n : nat) :
  List.length (region_mask sel cuts n) = n.
Proof. unfold region_mask. rewrite length_map. apply length_seq. Qed.

Lemma fill_features_ok (env : Environment) (vars : EventVariables)
    (w : list Q) (mask : list bool) (s : ZToLLProcessor) :
  List.length (c_ptl1 vars) = List.length mask ->
  List.length (c_ptl2 vars) = List.length mask ->
  List.length (c_ptll vars) = List.length mask ->
  List.length (c_mll vars) = List.length mask ->
  List.length (c_dphill vars) = List.length mask ->
  List.length (c_drll vars) = List.length mask ->
  List.length (c_mth vars) = List.length mask ->
  List.length (c_nvtx vars) = List.length mask ->
  List.length w = List.length mask ->
  exists arrays s',
    fill_features env vars w mask s = (inr arrays, s') /\
    selections s' = selections s /\
    _lepton_flavor s' = _lepton_flavor s.
Proof.
  intros H1 H2 H3 H4 H5 H6 H7 H8 H9.
  unfold fill_features, select_feature, bind, lift.
  rewrite !getitem_mask_ok by assumption. simpl.
  eexists _, _. repeat split; reflexivity.
Qed.

Lemma variables_shape (env : Environment) (events : Events) (objs : Objects) :
  well_shaped events objs ->
  let vars := variables env events objs in
  List.length (c_ptl1 vars) = len events /\
  List.length (c_ptl2 vars) = len events /\
  List.length (c_ptll vars) = len events /\
  List.length (c_mll vars) = len events /\
  List.length (c_dphill vars) = len events /\
  List.length (c_drll vars) = len events /\
  List.length (c_mth vars) = len events /\
  List.length (c_nvtx vars) = len events.
Proof.
  intros (Hl & Hj & Hm & Hb). simpl.
  rewrite !length_map, length_combine, Hl, Hm, Nat.min_id.
  unfold len. repeat split; reflexivity.
Qed.

Lemma region_step_other (env : Environment) (vars : EventVariables)
    (w : list Q) (k : string) (acc : Dict.t (list Q) * option nat)
    (s : ZToLLProcessor) :
  String.eqb k (_lepton_flavor s) = false ->
  region_step env vars w k acc s = (inr acc, s).
Proof.
  intros H. unfold region_step, bind, attr. rewrite H. reflexivity.
Qed.

Lemma region_step_own (env : Environment) (vars : EventVariables)
    (w : list Q) (k : string) (acc : Dict.t (list Q) * option nat)
    (s : ZToLLProcessor) (sel : PackedSelection) (cuts : list string) :
  String.eqb k (_lepton_flavor s) = true ->
  Dict.get regions k = Some cuts ->
  selections s = Some sel ->
  registered sel cuts ->
  List.length (c_ptl1 vars) = ps_size sel ->
  List.length (c_ptl2 vars) = ps_size sel ->
  List.length (c_ptll vars) = ps_size sel ->
  List.length (c_mll vars) = ps_size sel ->
  List.length (c_dphill vars) = ps_size sel ->
  List.length (c_drll vars) = ps_size sel ->
  List.length (c_mth vars) = ps_size sel ->
  List.length (c_nvtx vars) = ps_size sel ->
  List.length w = ps_size sel ->
  let mask := region_mask sel cuts (ps_size sel) in
  exists arrays s',
    region_step env vars w k acc s
      = (inr (arrays, Some (count_true mask)), s') /\
    selections s' = Some sel /\
    _lepton_flavor s' = _lepton_flavor s /\
    (count_true mask = 0 -> arrays = fst acc).
Proof.
  intros Hk Hcuts Hsel Hreg H1 H2 H3 H4 H5 H6 H7 H8 H9 mask.
  unfold region_step.
  erewrite bind_step by reflexivity. rewrite Hk. change (negb true) with false. cbv iota.
  erewrite bind_step by (apply dict_getitem_ok; exact Hcuts).
  erewrite bind_step;
    [| unfold selections_all, bind, get_selections, lift; rewrite Hsel;
       rewrite all_region_mask by exact Hreg; reflexivity ].
  fold mask.
  destruct (Nat.eqb (count_true mask) 0) eqn:E.
  - eexists _, _. split; [reflexivity|]. split; [exact Hsel|].
    split; reflexivity.
  - assert (Hm : List.length mask = ps_size sel) by apply length_region_mask.
    destruct (@fill_features_ok env vars w mask s)
      as (arrays & s' & Hf & Hs' & Hfl'); try congruence.
    erewrite bind_step by exact Hf.
    eexists _, _. split; [reflexivity|]. split; [congruence|].
    split; [exact Hfl'|].
    intros H0. apply Nat.eqb_neq in E. contradiction.
Qed.

Lemma for_regions_ok (env : Environment) (vars : EventVariables)
    (w : list Q) (ad : Dict.t (list Q)) (s : ZToLLProcessor)
    (sel : PackedSelection) (cuts : list string) :
  Dict.get regions (_lepton_flavor s) = Some cuts ->
  selections s = Some sel ->
  registered sel cuts ->
  List.length (c_ptl1 vars) = ps_size sel ->
  List.length (c_ptl2 vars) = ps_size sel ->
  List.length (c_ptll vars) = ps_size sel ->
  List.length (c_mll vars) = ps_size sel ->
  List.length (c_dphill vars) = ps_size sel ->
  List.length (c_drll vars) = ps_size sel ->
  List.length (c_mth vars) = ps_size sel ->
  List.length (c_nvtx vars) = ps_size sel ->
  List.length w = ps_size sel ->
  let mask := region_mask sel cuts (ps_size sel) in
  exists arrays s',
    for_regions env vars w (Dict.keys regions) (ad, None) s
      = (inr (arrays, Some (count_true mask)), s') /\
    selections s' = Some sel /\
    (count_true mask = 0 -> arrays = ad).
Proof.
  intros Hcuts Hsel Hreg H1 H2 H3 H4 H5 H6 H7 H8 H9 mask.
  change (Dict.keys regions) with ["ele"; "mu"]. unfold for_regions.
  destruct (regions_cases _ Hcuts) as [[Hfl Hc] | [Hfl Hc]].
  - destruct (@region_step_own env vars w "ele" (ad, None) s sel cuts)
      as (arrays & s1 & Hstep & Hs1 & Hf1 & Hz); try assumption.
    { rewrite Hfl. reflexivity. }
    { rewrite <- Hfl. exact Hcuts. }
    erewrite bind_step by exact Hstep.
    erewrite bind_step
      by (apply region_step_other; rewrite Hf1, Hfl; reflexivity).
    eexists _, _. split; [reflexivity|]. split; [exact Hs1 | exact Hz].
  - erewrite bind_step
      by (apply region_step_other; rewrite Hfl; reflexivity).
    destruct (@region_step_own env vars w "mu" (ad, None) s sel cuts)
      as (arrays & s1 & Hstep & Hs1 & Hf1 & Hz); try assumption.
    { rewrite Hfl. reflexivity. }
    { rewrite <- Hfl. exact Hcuts. }
    erewrite bind_step by exact Hstep.
    eexists _, _. split; [reflexivity|]. split; [exact Hs1 | exact Hz].
Qed.


Lemma process_spec (env : Environment) (s : ZToLLProcessor) (events : Events)
    (cuts : list string) (objs : Objects) (W : Weights)
    (ne nm nf : list string) :
  ready env s events cuts objs W ne nm nf ->
  let sel := registry env (_year s) events (has_genWeight events) objs ne nm nf in
  let mask := region_mask sel cuts (len events) in
  exists arrays s',
    process env events s =
      (inr (mkOutput
              (mkMetadata (Qsum (Weights_weight W)) (weightStatistics W)
                 (cutflow_spec (Weights_weight W) sel [] cuts)
                 (len events) (count_true mask))
              arrays), s') /\
    selections s' = Some sel /\
    (count_true mask = 0 -> arrays = array_dict s).
Proof.
  intros [Hreg Hobj Hw Hshape Hcfg] sel mask.
  pose proof (object_selection_shape _ _ _ _ _ _ Hobj) as Hws.
  pose proof (variables_shape env Hws) as Hv. cbv zeta in Hv.
  destruct Hv as (V1 & V2 & V3 & V4 & V5 & V6 & V7 & V8).
  assert (Hsize : ps_size sel = len events) by apply ps_size_registry.
  assert (Hcases := regions_cases _ Hreg).
  assert (Hregd : registered sel cuts).
  { apply registry_registered. destruct Hcases as [[_ ->] | [_ ->]]; auto. }
  unfold process.
  do 5 (erewrite bind_step by reflexivity).
  cbn [_year _yearmod _lepton_flavor array_dict].
  unfold lift at 1. erewrite bind_step by (rewrite Hobj; reflexivity).
  unfold lift at 1. erewrite bind_step by (rewrite Hw; reflexivity).
  erewrite bind_step
    by (apply register_selections_ok with (names_ele := ne) (names_mu := nm)
          (names_mf := nf); assumption).
  erewrite bind_step by (apply dict_getitem_ok; exact Hreg).
  erewrite bind_step by reflexivity.
  fold sel.
  unfold lift at 1.
  erewrite bind_step;
    [| rewrite cutflow_loop_spec;
       [ reflexivity | congruence | exact Hregd
       | simpl; destruct Hcases as [[_ ->] | [_ ->]];
         repeat constructor; simpl; intuition discriminate ] ].
  set (s1 := with_selections _ sel).
  destruct (@for_regions_ok env (variables env events objs)
              (Weights_weight W) (array_dict s) s1 sel cuts)
    as (arrays & s2 & Hfor & Hs2 & Hz);
    try congruence; try assumption; try reflexivity.
  erewrite bind_step by exact Hfor.
  erewrite bind_step by reflexivity.
  exists arrays, s2. unfold mask. rewrite <- Hsize.
  split; [reflexivity|]. split; assumption.
Qed.


Lemma map_combine_map {A B C D : Type} (f : B -> C -> D) (g : A -> B)
    (h : A -> C) (l : list A) :
  map (fun p => f (fst p) (snd p)) (combine (map g l) (map h l)) =
    map (fun x => f (g x) (h x)) l.
Proof. induction l as [|x l IH]; simpl; [reflexivity|]. rewrite IH. reflexivity. Qed.

Lemma repeat_as_map {A B : Type} (b : B) (l : list A) :
  repeat b (List.length l) = map (fun _ => b) l.
Proof. induction l as [|x l IH]; simpl; [reflexivity|]. rewrite IH. reflexivity. Qed.

Lemma trigger_mask_available (events : Events) (names : list string) :
  trigger_mask events names = available_or events names.
Proof.
  unfold trigger_mask, available_or, len.
  rewrite repeat_as_map.
  assert (H : forall g : Event -> bool,
             fold_left
               (fun acc t =>
                  if existsb (String.eqb t) (HLT_fields events)
                  then map (fun p => orb (fst p) (snd p))
                         (combine acc (map (fun e => HLT e t) (rows events)))
                  else acc) names (map g (rows events)) =
             map (fun e =>
                    g e || existsb
                             (fun t => is_field t (HLT_fields events) && HLT e t)
                             names) (rows events)).
  { induction names as [|t names IH]; intros g; simpl.
    - apply map_ext. intros e. rewrite orb_false_r. reflexivity.
    - change (existsb (String.eqb t) (HLT_fields events))
        with (is_field t (HLT_fields events)).
      destruct (is_field t (HLT_fields events)) eqn:E.
      + rewrite (map_combine_map orb g (fun e => HLT e t)).
        rewrite IH. apply map_ext. intros e. simpl.
        rewrite orb_assoc. reflexivity.
      + rewrite IH. apply map_ext. intros e. reflexivity. }
  rewrite H. apply map_ext. intros e. reflexivity.
Qed.

Lemma metfilters_mask_available (events : Events) (names : list string) :
  metfilters_mask events names = available_and events names.
Proof.
  unfold metfilters_mask, available_and, len.
  rewrite repeat_as_map.
  assert (H : forall g : Event -> bool,
             fold_left
               (fun acc mf =>
                  if existsb (String.eqb mf) (Flag_fields events)
                  then map (fun p => andb (fst p) (snd p))
                         (combine acc (map (fun e => Flag e mf) (rows events)))
                  else acc) names (map g (rows events)) =
             map (fun e =>
                    g e && forallb
                             (fun mf => implb (is_field mf (Flag_fields events))
                                          (Flag e mf))
                             names) (rows events)).
  { induction names as [|t names IH]; intros g; simpl.
    - apply map_ext. intros e. rewrite andb_true_r. reflexivity.
    - change (existsb (String.eqb t) (Flag_fields events))
        with (is_field t (Flag_fields events)).
      destruct (is_field t (Flag_fields events)) eqn:E.
      + rewrite (map_combine_map andb g (fun e => Flag e t)).
        rewrite IH. apply map_ext. intros e. simpl.
        rewrite andb_assoc. reflexivity.
      + rewrite IH. apply map_ext. intros e. reflexivity. }
  rewrite H. apply map_ext. intros e. reflexivity.
Qed.

Ltac example_ready :=
  constructor;
  [ reflexivity
  | vm_compute; reflexivity
  | vm_compute; reflexivity
  | vm_compute; reflexivity
  | eexists _, _; repeat split; reflexivity ].

Lemma count_true_region_mask (sel : PackedSelection) (cuts : list string)
    (n : nat) :
  count_true (region_mask sel cuts n) = List.length (passing sel cuts n).
Proof.
  unfold count_true, region_mask, passing.
  rewrite filter_map_swap, length_map. reflexivity.
Qed.

(** C1: when [process] runs through a chunk, the cutflow it returns has one
    entry per cut of the instance's region, in list order, and the entry of
    the i-th cut is the sum of the combined nominal weights of exactly those
    events for which every one of the first i registered masks of the
    region holds. *)
Theorem cutflow_records_prefix_sums (env : Environment) (s : ZToLLProcessor)
    (events : Events) (cuts : list string) (objs : Objects) (W : Weights)
    (ne nm nf : list string) :
  ready env s events cuts objs W ne nm nf ->
  exists out s' sel,
    process env events s = (inr out, s') /\
    selections s' = Some sel /\
    Dict.keys (cutflow (metadata out)) = cuts /\
    forall i name,
      nth_error cuts i = Some name ->
      Dict.get (cutflow (metadata out)) name =
        Some (selected_weight (Weights_weight W) sel (firstn (S i) cuts)).
Proof.
  intros Hready.
  destruct (process_spec Hready) as (arrays & s' & Hrun & Hsel & _).
  eexists _, s', _. split; [exact Hrun|]. split; [exact Hsel|].
  simpl. split; [apply keys_cutflow_spec|].
  intros i name Hi.
  apply (get_cutflow_spec (Weights_weight W) _ [] (cuts := cuts)); [|exact Hi].
  destruct (regions_cases _ (ready_region Hready)) as [[_ ->] | [_ ->]];
    repeat constructor; simpl; intuition discriminate.
Qed.

Lemma cutflow_records_prefix_sums_witness :
  exists out s' sel,
    process Example.env Example.data_chunk Example.processor = (inr out, s') /\
    selections s' = Some sel /\
    Dict.keys (cutflow (metadata out)) = ele_cuts /\
    forall i name,
      nth_error ele_cuts i = Some name ->
      Dict.get (cutflow (metadata out)) name =
        Some (selected_weight
                (Weights_weight (ExampleRun.weights Example.data_chunk)) sel
                (firstn (S i) ele_cuts)).
Proof.
  apply (@cutflow_records_prefix_sums Example.env Example.processor
           Example.data_chunk ele_cuts
           (ExampleRun.objects Example.data_chunk)
           (ExampleRun.weights Example.data_chunk)
           ExampleRun.names_ele ExampleRun.names_mu
           (ExampleRun.names_mf Example.data_chunk)).
  example_ready.
Defined.

(** C2 (amended): when every combined nominal weight of the chunk is
    non-negative, the cutflow sums, read in the order of the region's cuts,
    never increase from one cut to the next. *)
Theorem cutflow_non_increasing (env : Environment) (s : ZToLLProcessor)
    (events : Events) (cuts : list string) (objs : Objects) (W : Weights)
    (ne nm nf : list string) :
  ready env s events cuts objs W ne nm nf ->
  Forall (fun x => (0 <= x)%Q) (Weights_weight W) ->
  exists out s',
    process env events s = (inr out, s') /\
    Dict.keys (cutflow (metadata out)) = cuts /\
    non_increasing (map snd (cutflow (metadata out))).
Proof.
  intros Hready Hpos.
  destruct (process_spec Hready) as (arrays & s' & Hrun & _).
  eexists _, s'. split; [exact Hrun|]. simpl.
  split; [apply keys_cutflow_spec|].
  apply cutflow_spec_non_increasing. exact Hpos.
Qed.

Lemma cutflow_non_increasing_witness :
  exists out s',
    process Example.env Example.data_chunk Example.processor = (inr out, s') /\
    Dict.keys (cutflow (metadata out)) = ele_cuts /\
    non_increasing (map snd (cutflow (metadata out))).
Proof.
  apply (@cutflow_non_increasing Example.env Example.processor
           Example.data_chunk ele_cuts
           (ExampleRun.objects Example.data_chunk)
           (ExampleRun.weights Example.data_chunk)
           ExampleRun.names_ele ExampleRun.names_mu
           (ExampleRun.names_mf Example.data_chunk)).
  - example_ready.
  - vm_compute. repeat constructor; discriminate.
Defined.

(** C2 as stated fails: a negative generator weight that a later cut
    removes raises the selected sum. *)
Lemma cutflow_increases_on_negative_weight :
  exists out,
    fst (process Example.env Example.mc_chunk Example.processor) = inr out /\
    ~ non_increasing (map snd (cutflow (metadata out))).
Proof.
  eexists. split; [vm_compute; reflexivity|].
  simpl. intros (_ & H & _). revert H. vm_compute. intros H. apply H.
  reflexivity.
Qed.

(** A real-data chunk carries weight 1 for every event. *)
Lemma data_weights_nonnegative (env : Environment) (year yearmod flavor : string)
    (events : Events) (jets : list (list JetObj)) (W : Weights) :
  weights_container env year yearmod flavor events false jets = inr W ->
  Forall (fun x => (0 <= x)%Q) (Weights_weight W).
Proof.
  unfold weights_container. intros H. injection H as <-. simpl.
  apply Forall_forall. intros x Hx. apply repeat_spec in Hx. subst x.
  discriminate.
Qed.

(** C9 (amended): the registered trigger mask of each channel is the
    elementwise OR of those listed trigger bits that are branches of the
    chunk, and the registered MET-filter mask is the elementwise AND of those
    listed filter bits, for the chunk's data/MC kind, that are branches of
    the chunk; a listed name the chunk does not carry is skipped. *)
Theorem registered_trigger_and_filter_masks (env : Environment)
    (s : ZToLLProcessor) (events : Events) (cuts : list string)
    (objs : Objects) (W : Weights) (ne nm nf : list string) :
  ready env s events cuts objs W ne nm nf ->
  exists out s' sel,
    process env events s = (inr out, s') /\
    selections s' = Some sel /\
    Dict.get sel "trigger_ele" = Some (available_or events ne) /\
    Dict.get sel "trigger_mu" = Some (available_or events nm) /\
    Dict.get sel "metfilters" = Some (available_and events nf).
Proof.
  intros Hready.
  destruct (process_spec Hready) as (arrays & s' & Hrun & Hsel & _).
  eexists _, s', _. split; [exact Hrun|]. split; [exact Hsel|].
  simpl. rewrite !filled_map_Some.
  rewrite !trigger_mask_available, metfilters_mask_available.
  repeat split; reflexivity.
Qed.

Lemma registered_trigger_and_filter_masks_witness :
  exists out s' sel,
    process Example.env Example.data_chunk Example.processor = (inr out, s') /\
    selections s' = Some sel /\
    Dict.get sel "trigger_ele"
      = Some (available_or Example.data_chunk ExampleRun.names_ele) /\
    Dict.get sel "trigger_mu"
      = Some (available_or Example.data_chunk ExampleRun.names_mu) /\
    Dict.get sel "metfilters"
      = Some (available_and Example.data_chunk
                (ExampleRun.names_mf Example.data_chunk)).
Proof.
  apply (@registered_trigger_and_filter_masks Example.env Example.processor
           Example.data_chunk ele_cuts
           (ExampleRun.objects Example.data_chunk)
           (ExampleRun.weights Example.data_chunk)
           ExampleRun.names_ele ExampleRun.names_mu
           (ExampleRun.names_mf Example.data_chunk)).
  example_ready.
Defined.

(** C9 as stated fails: a listed trigger bit that is no branch of the chunk
    is skipped, so the registered mask is not the OR of all listed bits. *)
Lemma listed_bit_missing_is_skipped :
  exists sel mask,
    selections (snd (process Example.env Example.data_chunk Example.processor))
      = Some sel /\
    Dict.get sel "trigger_ele" = Some mask /\
    is_field "Ele115_CaloIdVT_GsfTrkIdT" (HLT_fields Example.data_chunk)
      = false /\
    or_of_all_listed Example.data_chunk ExampleRun.names_ele <> Some mask.
Proof.
  eexists _, _. split; [vm_compute; reflexivity|].
  split; [vm_compute; reflexivity|].
  split; [reflexivity|].
  vm_compute. discriminate.
Qed.

(** When every listed name is a branch, the two readings agree. *)
Lemma listed_columns_all (fields : list string) (column : string -> list bool)
    (names : list string) :
  forallb (fun t => is_field t fields) names = true ->
  listed_columns fields column names = Some (map column names).
Proof.
  induction names as [|t names IH]; simpl; [reflexivity|].
  intros H. apply andb_true_iff in H. destruct H as [Ht Hn].
  rewrite Ht, IH by exact Hn. reflexivity.
Qed.

(** C6: for a chunk of real data the jets and the MET that object
    selection hands to every later mask and feature are the raw input
    branches; the MET half rests on [met_phi_corrections] leaving data
    unchanged. *)
Theorem data_kinematics_pass_through (env : Environment)
    (year yearmod flavor : string) (events : Events) (objs : Objects) :
  has_genWeight events = false ->
  object_selection env year yearmod flavor (has_genWeight events) events
    = inr objs ->
  o_jets objs = map Jet (rows events) /\
  o_met objs = map MET (rows events).
Proof.
  intros Hmc. rewrite Hmc. unfold object_selection.
  destruct (good_leptons env flavor events) as [e|leptons]; simpl;
    [discriminate|].
  intros H. injection H as <-. simpl. rewrite !map_map. split.
  - apply map_ext. intros e. reflexivity.
  - apply map_ext. intros e. unfold kinematic_correction. simpl.
    destruct (MET e). reflexivity.
Qed.

Lemma data_kinematics_pass_through_witness :
  o_jets (ExampleRun.objects Example.data_chunk)
    = map Jet (rows Example.data_chunk) /\
  o_met (ExampleRun.objects Example.data_chunk)
    = map MET (rows Example.data_chunk).
Proof.
  apply (@data_kinematics_pass_through Example.env "2017" EmptyString "ele"
           Example.data_chunk (ExampleRun.objects Example.data_chunk)).
  - reflexivity.
  - vm_compute. reflexivity.
Defined.


Section Agreement.

Variable c : ZToLLProcessor.

Lemma agree_bind {A B : Type} (R Q Q' : ZToLLProcessor -> ZToLLProcessor -> Prop)
    (m : Proc A) (k : A -> Proc B) :
  agree c R m Q -> (forall a, agree c Q (k a) Q') -> agree c R (bind m k) Q'.
Proof.
  intros Hm Hk s1 s2 HR. unfold bind.
  destruct (Hm s1 s2 HR) as [Hres Hpost].
  destruct (m s1) as [[e1|a1] t1], (m s2) as [[e2|a2] t2]; simpl in *;
    try discriminate.
  - injection Hres as ->. split; [reflexivity | assumption].
  - injection Hres as <-. apply Hk. exact Hpost.
Qed.

Lemma agree_weaken {A : Type} (R R' Q Q' : ZToLLProcessor -> ZToLLProcessor -> Prop)
    (m : Proc A) :
  agree c R m Q ->
  (forall s1 s2, R' s1 s2 -> R s1 s2) ->
  (forall s1 s2, Q s1 s2 -> Q' s1 s2) ->
  agree c R' m Q'.
Proof.
  intros Hm HR HQ s1 s2 H. destruct (Hm s1 s2 (HR _ _ H)) as [Hres Hpost].
  split; [exact Hres|].
  destruct (fst (m s1)); [exact Hpost | apply HQ; exact Hpost].
Qed.

(** A step that leaves the store alone and does not look at it. *)
Lemma agree_pure {A : Type} (R : ZToLLProcessor -> ZToLLProcessor -> Prop)
    (m : Proc A) (r : result A) :
  (forall s, m s = (r, s)) ->
  (forall s1 s2, R s1 s2 -> base_rel c s1 s2) ->
  agree c R m R.
Proof.
  intros Hm HR s1 s2 H. rewrite !Hm. simpl. split; [reflexivity|].
  destruct r; [apply HR|]; exact H.
Qed.

Lemma agree_attr {A : Type} (R : ZToLLProcessor -> ZToLLProcessor -> Prop)
    (f : ZToLLProcessor -> A) :
  (forall s1 s2, R s1 s2 -> f s1 = f s2) ->
  agree c R (attr f) R.
Proof.
  intros Hf s1 s2 H. unfold attr. simpl. split; [|exact H].
  rewrite (Hf s1 s2 H). reflexivity.
Qed.

Lemma feat_rel_base (i : nat) (s1 s2 : ZToLLProcessor) :
  feat_rel c i s1 s2 -> base_rel c s1 s2.
Proof.
  intros (Hc & _ & (k1 & _ & H1) & (k2 & _ & H2) & _).
  split; [exact Hc|]. split; [exists k1 | exists k2]; split; auto; lia.
Qed.

Lemma feat_rel_0 (i : nat) (s1 s2 : ZToLLProcessor) :
  feat_rel c i s1 s2 -> feat_rel c 0 s1 s2.
Proof.
  intros (Hc & Hs & (k1 & _ & H1) & (k2 & _ & H2) & _).
  split; [exact Hc|]. split; [exact Hs|].
  split; [exists k1; split; [lia | exact H1]|].
  split; [exists k2; split; [lia | exact H2]|]. reflexivity.
Qed.

Lemma agree_set_is_mc (b : bool) : agree c (base_rel c) (set_is_mc b) (base_rel c).
Proof.
  intros s1 s2 H. simpl. split; [reflexivity|]. exact H.
Qed.

Lemma agree_set_selections (sel : PackedSelection) :
  agree c (base_rel c) (set_selections sel) (feat_rel c 0).
Proof.
  intros s1 s2 (Hc & H1 & H2). simpl. split; [reflexivity|].
  split; [exact Hc|]. split; [reflexivity|]. auto.
Qed.

Lemma agree_get_selections (i : nat) :
  agree c (feat_rel c i) get_selections (feat_rel c i).
Proof.
  intros s1 s2 H. pose proof H as (Hc & Hs & _).
  unfold get_selections. rewrite Hs.
  destruct (selections s2); simpl; split; try reflexivity;
    [exact H | eapply feat_rel_base; exact H].
Qed.

Lemma agree_lift {A : Type} (i : nat) (r : result A) :
  agree c (feat_rel c i) (lift r) (feat_rel c i).
Proof.
  apply agree_pure with (r := r); [reflexivity | apply feat_rel_base].
Qed.

Lemma agree_lift_base {A : Type} (r : result A) :
  agree c (base_rel c) (lift r) (base_rel c).
Proof. apply agree_pure with (r := r); [reflexivity | auto]. Qed.

Lemma agree_dict_getitem {V : Type} (i : nat) (d : Dict.t V) (k : string) :
  agree c (feat_rel c i) (dict_getitem d k) (feat_rel c i).
Proof.
  unfold dict_getitem. destruct (Dict.get d k).
  - apply agree_pure with (r := inr v); [reflexivity | apply feat_rel_base].
  - apply agree_pure with (r := inl (KeyError k));
      [reflexivity | apply feat_rel_base].
Qed.

Lemma agree_ret {A : Type} (i : nat) (a : A) :
  agree c (feat_rel c i) (ret a) (feat_rel c i).
Proof.
  apply agree_pure with (r := inr a); [reflexivity | apply feat_rel_base].
Qed.

Lemma agree_read_local {V : Type} (i : nat) (name : string) (v : option V) :
  agree c (feat_rel c i) (read_local name v) (feat_rel c i).
Proof.
  unfold read_local. destruct v.
  - apply agree_ret.
  - apply agree_pure with (r := inl (UnboundLocalError name));
      [reflexivity | apply feat_rel_base].
Qed.

Lemma agree_selections_add (i : nat) (name : string)
    (m : list (option bool)) :
  agree c (feat_rel c i) (selections_add name m) (feat_rel c i).
Proof.
  unfold selections_add.
  eapply agree_bind; [apply agree_get_selections|]. intros sel.
  eapply agree_bind; [apply agree_lift|]. intros sel'.
  intros s1 s2 (Hc & Hs & H1 & H2 & Hf). simpl. split; [reflexivity|].
  split; [exact Hc|]. split; [reflexivity|]. auto.
Qed.

Lemma agree_selections_all (i : nat) (names : list string) :
  agree c (feat_rel c i) (selections_all names) (feat_rel c i).
Proof.
  unfold selections_all.
  eapply agree_bind; [apply agree_get_selections|]. intros sel.
  apply agree_lift.
Qed.

Lemma agree_register_selections (env : Environment) (year : string)
    (events : Events) (mc : bool) (objs : Objects) :
  agree c (base_rel c) (register_selections env year events mc objs) (feat_rel c 0).
Proof.
  unfold register_selections.
  eapply agree_bind; [apply agree_set_selections|]. intros _.
  repeat first
    [ apply agree_selections_add
    | eapply agree_bind;
      [ first [ apply agree_selections_add | apply agree_dict_getitem ] | intro ] ].
Qed.

End Agreement.


Lemma keys_nil {V : Type} (d : Dict.t V) : Dict.keys d = [] -> d = [].
Proof. destruct d; [reflexivity | discriminate]. Qed.

Lemma set_prefix {V : Type} (names : list string) (d : Dict.t V) (k i : nat)
    (name : string) (v : V) :
  NoDup names ->
  Dict.keys d = firstn k names ->
  i <= k ->
  nth_error names i = Some name ->
  (exists k', S i <= k' /\ Dict.keys (Dict.set d name v) = firstn k' names) /\
  firstn (S i) (Dict.set d name v) = (firstn i d ++ [(name, v)])%list.
Proof.
  revert names d k. induction i as [|i IH]; intros names d k Hnd Hk Hik Hn.
  - destruct names as [|n0 names]; [discriminate|]. injection Hn as ->.
    destruct k as [|k].
    + apply keys_nil in Hk. subst d. simpl. split; [|reflexivity].
      exists 1. split; [lia | reflexivity].
    + destruct d as [|[k0 v0] d]; [discriminate|]. simpl in Hk.
      injection Hk as -> Hk. simpl. rewrite String.eqb_refl. simpl.
      split; [|reflexivity].
      exists (S k). split; [lia|]. simpl. rewrite Hk. reflexivity.
  - destruct names as [|n0 names]; [discriminate|]. simpl in Hn.
    destruct k as [|k]; [lia|].
    destruct d as [|[k0 v0] d]; [discriminate|]. simpl in Hk.
    injection Hk as -> Hk.
    inversion Hnd as [|? ? Hnotin Hnd']; subst.
    assert (Hne : String.eqb name n0 = false).
    { apply String.eqb_neq. intros ->. apply Hnotin.
      eapply nth_error_In. exact Hn. }
    simpl. rewrite Hne.
    destruct (IH names d k Hnd' Hk ltac:(lia) Hn) as [(k' & Hk' & Hkeys) Hfirst].
    split.
    + exists (S k'). split; [lia|]. simpl. rewrite <- Hkeys. reflexivity.
    + change ((n0, v0) :: firstn (S i) (Dict.set d name v)
              = ((n0, v0) :: firstn i d ++ [(name, v)])%list).
      rewrite Hfirst. reflexivity.
Qed.

Lemma NoDup_feature_names : NoDup feature_names.
Proof. repeat constructor; simpl; intuition discriminate. Qed.

Section FeatureAgreement.

Variable c : ZToLLProcessor.

Lemma agree_add_feature (i : nat) (name : string) (v : list (option Q)) :
  nth_error feature_names i = Some name ->
  agree c (feat_rel c i) (add_feature name v) (feat_rel c (S i)).
Proof.
  intros Hn s1 s2 (Hc & Hs & (k1 & Hk1 & K1) & (k2 & Hk2 & K2) & Hf).
  split; [reflexivity|].
  destruct (set_prefix (features s1) v NoDup_feature_names K1 Hk1 Hn)
    as [P1 F1].
  destruct (set_prefix (features s2) v NoDup_feature_names K2 Hk2 Hn)
    as [P2 F2].
  cbn [add_feature fst snd]. unfold feat_rel, prefix_from.
  cbn [features selections].
  split; [exact Hc|]. split; [exact Hs|].
  split; [exact P1|]. split; [exact P2|].
  rewrite F1, F2, Hf. reflexivity.
Qed.

Lemma agree_select_feature (i : nat) (name : string)
    (column : list (option Q)) (mask : list bool) :
  nth_error feature_names i = Some name ->
  agree c (feat_rel c i) (select_feature name column mask) (feat_rel c (S i)).
Proof.
  intros Hn. unfold select_feature.
  eapply agree_bind; [apply agree_lift|]. intros selected.
  apply agree_add_feature. exact Hn.
Qed.

Lemma feat_rel_features (s1 s2 : ZToLLProcessor) :
  feat_rel c (List.length feature_names) s1 s2 -> features s1 = features s2.
Proof.
  intros (_ & _ & (k1 & Hk1 & K1) & (k2 & Hk2 & K2) & Hf).
  assert (L1 : List.length (features s1) = List.length feature_names).
  { unfold Dict.keys in K1. rewrite <- (length_map fst), K1.
    rewrite firstn_all2 by exact Hk1. reflexivity. }
  assert (L2 : List.length (features s2) = List.length feature_names).
  { unfold Dict.keys in K2. rewrite <- (length_map fst), K2.
    rewrite firstn_all2 by exact Hk2. reflexivity. }
  rewrite <- L1, firstn_all in Hf. rewrite L1, <- L2, firstn_all in Hf.
  exact Hf.
Qed.

Lemma agree_fill_features (env : Environment) (vars : EventVariables)
    (w : list Q) (mask : list bool) :
  agree c (feat_rel c 0) (fill_features env vars w mask) (feat_rel c 0).
Proof.
  unfold fill_features.
  do 8 (eapply agree_bind; [apply agree_select_feature; reflexivity|]; intros _).
  eapply agree_bind; [apply agree_lift|]. intros region_weights.
  eapply agree_bind; [apply agree_add_feature; reflexivity|]. intros _.
  eapply agree_bind.
  - apply agree_attr. apply feat_rel_features.
  - intros feats.
    apply agree_weaken with (R := feat_rel c 9) (Q := feat_rel c 9);
      [apply agree_ret | auto | apply feat_rel_0].
Qed.

Lemma same_config_flavor (s1 s2 : ZToLLProcessor) :
  same_config c s1 /\ same_config c s2 -> _lepton_flavor s1 = _lepton_flavor s2.
Proof. unfold same_config. intuition congruence. Qed.

Lemma agree_region_step (env : Environment) (vars : EventVariables)
    (w : list Q) (k : string) (acc : Dict.t (list Q) * option nat) :
  agree c (feat_rel c 0) (region_step env vars w k acc) (feat_rel c 0).
Proof.
  unfold region_step.
  eapply agree_bind.
  - apply agree_attr. intros s1 s2 H. apply same_config_flavor. apply H.
  - intros own. destruct (negb (String.eqb k own)); [apply agree_ret|].
    eapply agree_bind; [apply agree_dict_getitem|]. intros cuts.
    eapply agree_bind; [apply agree_selections_all|]. intros mask.
    destruct (Nat.eqb (count_true mask) 0); [apply agree_ret|].
    eapply agree_bind; [apply agree_fill_features|]. intros arrays.
    apply agree_ret.
Qed.

Lemma agree_for_regions (env : Environment) (vars : EventVariables)
    (w : list Q) (keys : list string) (acc : Dict.t (list Q) * option nat) :
  agree c (feat_rel c 0) (for_regions env vars w keys acc) (feat_rel c 0).
Proof.
  revert acc. induction keys as [|k keys IH]; intros acc; simpl.
  - apply agree_ret.
  - eapply agree_bind; [apply agree_region_step|]. intros acc'. apply IH.
Qed.

Lemma agree_process (env : Environment) (events : Events) :
  agree c (base_rel c) (process env events) (base_rel c).
Proof.
  unfold process.
  eapply agree_bind; [apply agree_set_is_mc|]. intros _.
  eapply agree_bind.
  { apply agree_attr. unfold base_rel, same_config. intuition congruence. }
  intros ad.
  eapply agree_bind.
  { apply agree_attr. unfold base_rel, same_config. intuition congruence. }
  intros year.
  eapply agree_bind.
  { apply agree_attr. unfold base_rel, same_config. intuition congruence. }
  intros yearmod.
  eapply agree_bind.
  { apply agree_attr. unfold base_rel, same_config. intuition congruence. }
  intros flavor.
  eapply agree_bind; [apply agree_lift_base|]. intros objs.
  eapply agree_bind; [apply agree_lift_base|]. intros weights.
  eapply agree_bind; [apply agree_register_selections|]. intros _.
  eapply agree_bind; [apply agree_dict_getitem|]. intros cut_names.
  eapply agree_bind; [apply agree_get_selections|]. intros sel.
  eapply agree_bind; [apply agree_lift|]. intros cutflow.
  eapply agree_bind; [apply agree_for_regions|]. intros acc.
  eapply agree_bind; [apply agree_read_local|]. intros nevents_after.
  apply agree_weaken with (R := feat_rel c 0) (Q := feat_rel c 0);
    [apply agree_ret | auto | apply feat_rel_base].
Qed.

End FeatureAgreement.

Lemma base_rel_init (year yearmod flavor otype : string) :
  let s0 := ZToLLProcessor_init year yearmod flavor otype in
  base_rel s0 s0 s0.
Proof.
  simpl. unfold base_rel, same_config, prefix_from. simpl.
  repeat split; exists 0; split; auto.
Qed.

Lemma base_rel_process (env : Environment) (c s1 s2 : ZToLLProcessor)
    (e1 e2 : Events) :
  base_rel c s1 s2 ->
  base_rel c (snd (process env e1 s1)) (snd (process env e2 s2)).
Proof.
  intros (Hc & P1 & P2).
  assert (H1 : base_rel c s1 s1) by (unfold base_rel; tauto).
  assert (H2 : base_rel c s2 s2) by (unfold base_rel; tauto).
  destruct (agree_process env e1 H1) as [_ G1].
  destruct (agree_process env e2 H2) as [_ G2].
  assert (B1 : base_rel c (snd (process env e1 s1)) (snd (process env e1 s1)))
    by (destruct (fst (process env e1 s1)); exact G1).
  assert (B2 : base_rel c (snd (process env e2 s2)) (snd (process env e2 s2)))
    by (destruct (fst (process env e2 s2)); exact G2).
  unfold base_rel in *. tauto.
Qed.

Lemma base_rel_process_left (env : Environment) (c s1 s2 : ZToLLProcessor)
    (e1 : Events) :
  base_rel c s1 s2 -> base_rel c (snd (process env e1 s1)) s2.
Proof.
  intros (Hc & P1 & P2).
  assert (H1 : base_rel c s1 s1) by (unfold base_rel; tauto).
  destruct (agree_process env e1 H1) as [_ G1].
  assert (B1 : base_rel c (snd (process env e1 s1)) (snd (process env e1 s1)))
    by (destruct (fst (process env e1 s1)); exact G1).
  unfold base_rel in *. tauto.
Qed.

Lemma base_rel_sym (c s1 s2 : ZToLLProcessor) :
  base_rel c s1 s2 -> base_rel c s2 s1.
Proof. unfold base_rel. tauto. Qed.

Lemma base_rel_process_all (env : Environment) (c : ZToLLProcessor)
    (chunks : list Events) (s1 s2 : ZToLLProcessor) :
  base_rel c s1 s2 -> base_rel c (process_all env chunks s1) s2.
Proof.
  revert s1. induction chunks as [|e chunks IH]; intros s1 H; simpl;
    [exact H|].
  apply IH. apply base_rel_process_left. exact H.
Qed.

(** C8: whatever chunks an instance processed before, and however those
    runs ended, [process] returns the same result (feature table and
    metadata, or exception) for a given chunk. *)
Theorem process_result_independent_of_history (env : Environment)
    (year yearmod flavor otype : string) (before1 before2 : list Events)
    (events : Events) :
  let instance := ZToLLProcessor_init year yearmod flavor otype in
  fst (process env events (process_all env before1 instance)) =
  fst (process env events (process_all env before2 instance)).
Proof.
  intros instance.
  apply (@agree_process instance env events).
  apply base_rel_process_all. apply base_rel_sym.
  apply base_rel_process_all. apply base_rel_init.
Qed.






(** A chunk without events selects no event. *)
Lemma empty_chunk_selects_nothing (sel : PackedSelection)
    (cuts : list string) (events : Events) :
  rows events = [] -> passing sel cuts (len events) = [].
Proof. intros H. unfold len. rewrite H. reflexivity. Qed.

Example process_chunk_without_events :
  fst (process Example.env ExampleHistory.no_events
         (process_all Example.env [Example.data_chunk] Example.processor)) =
  inr (mkOutput
         (mkMetadata 0%Q []
            (map (fun c => (c, 0%Q)) ele_cuts) 0 0)
         []).
Proof. vm_compute. reflexivity. Qed.

(** C8 as stated fails in its first half: the instance does keep state
    between invocations.  A fresh instance has no features; after a chunk
    that selects events it holds that chunk's columns, and it still holds
    them after a later chunk that selects none. *)
Lemma features_are_retained :
  features Example.processor = [] /\
  features (process_all Example.env [Example.data_chunk] Example.processor)
    <> [] /\
  features
    (process_all Example.env [Example.data_chunk; ExampleHistory.quiet_chunk]
       Example.processor)
    = features
        (process_all Example.env [Example.data_chunk] Example.processor) /\
  is_mc (process_all Example.env [Example.data_chunk] Example.processor)
    = Some false.
Proof.
  split; [reflexivity|]. split; [vm_compute; discriminate|].
  split; vm_compute; reflexivity.
Qed.

Lemma triggeriso_requires_tight_witness :
  MuonCorrector_add_triggeriso_weight Example.env
    (Example.muon_corrector "nominal" "loose" "tight") Example.store =
  (inl (AssertionError
          "there's only available muon trigger SF for 'tight' ID and Iso"),
   Example.store).
Proof.
  apply (@triggeriso_requires_tight Example.env
           (Example.muon_corrector "nominal" "loose" "tight") Example.store).
  left. simpl. discriminate.
Defined.


Example single_variation_sends_one_lookup :
  nominal_only Example.env
    (Muon_id (Example.muon_corrector "JESUp" "tight" "tight"))
    Example.store
    (snd (MuonCorrector_add_id_weight Example.env
            (Example.muon_corrector "JESUp" "tight" "tight") Example.store)).
Proof.
  eexists _, _. vm_compute. repeat split; reflexivity.
Qed.

Lemma add_weight_unbound_iso_correction_witness :
  exists e,
    (forall sf_type,
        MuonCorrector_add_weight Example.env
          (Example.muon_corrector "nominal" "tight" "medium") sf_type
          Example.store = (inl e, Example.store)) /\
    MuonCorrector_add_id_weight Example.env
      (Example.muon_corrector "nominal" "tight" "medium") Example.store
      = (inl e, Example.store) /\
    MuonCorrector_add_iso_weight Example.env
      (Example.muon_corrector "nominal" "tight" "medium") Example.store
      = (inl e, Example.store) /\
    (In "tight" ["loose"; "medium"; "tight"] ->
     e = UnboundLocalError "iso_correction").
Proof.
  apply (@add_weight_unbound_iso_correction Example.env
           (Example.muon_corrector "nominal" "tight" "medium") Example.store);
    simpl; discriminate.
Defined.


(** X1: every lookup sent by the electron reconstruction method asks the
    electron table for the "RecoAbove20" working point, with eta as stored
    and pt clamped to [20.1, 499.999]; at least the nominal lookup is
    sent. *)
Theorem reco_lookups_are_clamped (env : Environment) (e : ElectronCorrector)
    (s : Store) :
  exists new,
    sends (ElectronCorrector_add_reco_weight env e) s new /\
    new <> [] /\ Forall (electron_reco_clamped e) new.
Proof.
  unfold ElectronCorrector_add_reco_weight.
  destruct (electron_add_sends env e "electron_reco" "RecoAbove20"
              (electrons_eta e)
              (np_clip (electrons_pt e) (201 # 10) (499999 # 1000)) s)
    as [new [Hs [Hne Hall]]].
  exists new. split; [exact Hs|]. split; [exact Hne|].
  eapply Forall_impl; [|exact Hall].
  intros lk [v ->]. split; [reflexivity|].
  unfold electron_id_args. simpl.
  eexists _, _, _. split; [reflexivity|]. split; [reflexivity|].
  apply np_clip_in_range. unfold Qle; simpl; lia.
Qed.

Lemma weights_add_fails (name : string) (weight : list Q)
    (up down : option (list Q)) (s s' : Store) (e : exn) :
  weights_add name weight up down s = (inl e, s') ->
  st_lookups s' = st_lookups s /\
  w_stats (st_weights s') = w_stats (st_weights s) /\
  (st_weights s' = st_weights s \/
   exists f, registers s s' f /\ f_name f = name).
Proof.
  unfold weights_add, registers.
  destruct (Weights_add name weight up down (st_weights s)) as [r w] eqn:Ha.
  intros H. injection H as -> <-. apply Weights_add_raises in Ha.
  destruct Ha as [Hst [-> | (up' & down' & Hf)]]; cbn [st_lookups st_weights].
  - auto.
  - split; [reflexivity|]. split; [exact Hst|]. right.
    eexists. split; [exact Hf | reflexivity].
Qed.

Lemma muon_add_fails (env : Environment) (self : MuonCorrector)
    (name key : string) (eta pt : list Q) (s s' : Store) (e : exn) :
  muon_add env self name key eta pt s = (inl e, s') ->
  w_stats (st_weights s') = w_stats (st_weights s) /\
  (st_weights s' = st_weights s \/
   exists f, registers s s' f /\ f_name f = name).
Proof.
  unfold muon_add, muon_sf, bind, evaluate, ret. simpl.
  destruct (m_cset self key (muon_args self eta pt "sf")); simpl;
    [intros H; injection H as _ <-; auto|].
  destruct (String.eqb (m_variation self) "nominal"); simpl.
  - destruct (m_cset self key (muon_args self eta pt "systup")); simpl;
      [intros H; injection H as _ <-; auto|].
    destruct (m_cset self key (muon_args self eta pt "systdown")); simpl;
      [intros H; injection H as _ <-; auto|].
    intros H. apply weights_add_fails in H. apply H.
  - intros H. apply weights_add_fails in H. apply H.
Qed.

Lemma electron_add_fails (env : Environment) (self : ElectronCorrector)
    (name wp : string) (eta pt : list Q) (s s' : Store) (e : exn) :
  electron_add env self name wp eta pt s = (inl e, s') ->
  w_stats (st_weights s') = w_stats (st_weights s) /\
  (st_weights s' = st_weights s \/
   exists f, registers s s' f /\ f_name f = name).
Proof.
  unfold electron_add, electron_sf, bind, evaluate, ret. simpl.
  destruct (e_cset self _ (electron_id_args self "sf" wp eta pt)); simpl;
    [intros H; injection H as _ <-; auto|].
  destruct (String.eqb (e_variation self) "nominal"); simpl.
  - destruct (e_cset self _ (electron_id_args self "sfup" wp eta pt)); simpl;
      [intros H; injection H as _ <-; auto|].
    destruct (e_cset self _ (electron_id_args self "sfdown" wp eta pt)); simpl;
      [intros H; injection H as _ <-; auto|].
    intros H. apply weights_add_fails in H. apply H.
  - intros H. apply weights_add_fails in H. apply H.
Qed.

Lemma run_call_fails (env : Environment) (c : WeightCall) (s s' : Store)
    (e : exn) :
  run_call env c s = (inl e, s') ->
  w_stats (st_weights s') = w_stats (st_weights s) /\
  (st_weights s' = st_weights s \/
   exists f, registers s s' f /\ f_name f = call_name c).
Proof.
  destruct c as [self wp | self | self | self | self]; cbn [run_call call_name];
    intros Hrun.
  - eapply electron_add_fails. exact Hrun.
  - eapply electron_add_fails. exact Hrun.
  - unfold MuonCorrector_add_id_weight in Hrun.
    destruct (add_weight_cases env self "id" s) as [[e' He] | [key Hk]].
    + rewrite He in Hrun. injection Hrun as _ <-. auto.
    + rewrite Hk in Hrun. eapply muon_add_fails. exact Hrun.
  - unfold MuonCorrector_add_iso_weight in Hrun.
    destruct (add_weight_cases env self "iso" s) as [[e' He] | [key Hk]].
    + rewrite He in Hrun. injection Hrun as _ <-. auto.
    + rewrite Hk in Hrun. eapply muon_add_fails. exact Hrun.
  - destruct (triggeriso_cases env self s) as [[e' He] | [key Hk]].
    + rewrite He in Hrun. injection Hrun as _ <-. auto.
    + rewrite Hk in Hrun. eapply muon_add_fails. exact Hrun.
Qed.

Lemma weights_add_statistics (name : string) (weight : list Q)
    (up down : option (list Q)) (s s' : Store) :
  weights_add name weight up down s = (inr tt, s') ->
  exists f statistics,
    registers s s' f /\ f_name f = name /\
    statistics_of (f_weight f) = Some statistics /\
    weightStatistics (st_weights s')
      = Dict.set (weightStatistics (st_weights s)) name statistics.
Proof.
  unfold weights_add, registers, weightStatistics.
  destruct (Weights_add name weight up down (st_weights s)) as [r w] eqn:Ha.
  intros H. injection H as -> <-. apply Weights_add_ok in Ha.
  destruct Ha as (Hf & _ & statistics & Hst & Hd).
  exists (mkFactor name weight up down), statistics.
  cbn [st_weights f_name f_weight]. auto.
Qed.

Lemma muon_add_returns (env : Environment) (self : MuonCorrector)
    (name key : string) (eta pt : list Q) (s s' : Store) :
  muon_add env self name key eta pt s = (inr tt, s') ->
  exists f statistics,
    registers s s' f /\ f_name f = name /\
    statistics_of (f_weight f) = Some statistics /\
    weightStatistics (st_weights s')
      = Dict.set (weightStatistics (st_weights s)) name statistics.
Proof.
  unfold muon_add, muon_sf, bind, evaluate, ret. simpl.
  destruct (m_cset self key (muon_args self eta pt "sf")); simpl;
    [discriminate|].
  destruct (String.eqb (m_variation self) "nominal"); simpl.
  - destruct (m_cset self key (muon_args self eta pt "systup")); simpl;
      [discriminate|].
    destruct (m_cset self key (muon_args self eta pt "systdown")); simpl;
      [discriminate|].
    intros H. apply weights_add_statistics in H. exact H.
  - intros H. apply weights_add_statistics in H. exact H.
Qed.

Lemma electron_add_returns (env : Environment) (self : ElectronCorrector)
    (name wp : string) (eta pt : list Q) (s s' : Store) :
  electron_add env self name wp eta pt s = (inr tt, s') ->
  exists f statistics,
    registers s s' f /\ f_name f = name /\
    statistics_of (f_weight f) = Some statistics /\
    weightStatistics (st_weights s')
      = Dict.set (weightStatistics (st_weights s)) name statistics.
Proof.
  unfold electron_add, electron_sf, bind, evaluate, ret. simpl.
  destruct (e_cset self _ (electron_id_args self "sf" wp eta pt)); simpl;
    [discriminate|].
  destruct (String.eqb (e_variation self) "nominal"); simpl.
  - destruct (e_cset self _ (electron_id_args self "sfup" wp eta pt)); simpl;
      [discriminate|].
    destruct (e_cset self _ (electron_id_args self "sfdown" wp eta pt)); simpl;
      [discriminate|].
    intros H. apply weights_add_statistics in H. exact H.
  - intros H. apply weights_add_statistics in H. exact H.
Qed.

Lemma run_call_returns (env : Environment) (c : WeightCall)
    (s s' : Store) :
  run_call env c s = (inr tt, s') ->
  exists f statistics,
    registers s s' f /\ f_name f = call_name c /\
    statistics_of (f_weight f) = Some statistics /\
    weightStatistics (st_weights s')
      = Dict.set (weightStatistics (st_weights s)) (call_name c) statistics.
Proof.
  destruct c as [self wp | self | self | self | self]; cbn [run_call call_name];
    intros Hrun.
  - eapply electron_add_returns. exact Hrun.
  - eapply electron_add_returns. exact Hrun.
  - unfold MuonCorrector_add_id_weight in Hrun.
    destruct (add_weight_cases env self "id" s) as [[e He] | [key Hk]];
      [rewrite He in Hrun; discriminate|].
    rewrite Hk in Hrun. eapply muon_add_returns. exact Hrun.
  - unfold MuonCorrector_add_iso_weight in Hrun.
    destruct (add_weight_cases env self "iso" s) as [[e He] | [key Hk]];
      [rewrite He in Hrun; discriminate|].
    rewrite Hk in Hrun. eapply muon_add_returns. exact Hrun.
  - destruct (triggeriso_cases env self s) as [[e He] | [key Hk]];
      [rewrite He in Hrun; discriminate|].
    rewrite Hk in Hrun. eapply muon_add_returns. exact Hrun.
Qed.

(** X2: an [add_<x>_weight] call of the two correctors that returns has
    registered exactly one factor, under the method's own name, and the
    statistics of its weight under that name.  A call that raises records no
    statistics; it leaves the container as it was, or, when the exception
    comes from the container's [add] after the factor was stored, with this
    one factor more. *)
Theorem call_registers_one_factor_or_none (env : Environment)
    (c : WeightCall) (s : Store) :
  match fst (run_call env c s) with
  | inr _ =>
      exists f statistics,
        registers s (snd (run_call env c s)) f /\ f_name f = call_name c /\
        statistics_of (f_weight f) = Some statistics /\
        weightStatistics (st_weights (snd (run_call env c s)))
          = Dict.set (weightStatistics (st_weights s)) (call_name c) statistics
  | inl _ =>
      weightStatistics (st_weights (snd (run_call env c s)))
        = weightStatistics (st_weights s) /\
      (st_weights (snd (run_call env c s)) = st_weights s \/
       exists f,
         registers s (snd (run_call env c s)) f /\ f_name f = call_name c)
  end.
Proof.
  destruct (run_call env c s) as [[e | []] s'] eqn:Hrun; simpl.
  - eapply run_call_fails. exact Hrun.
  - apply (@run_call_returns env c s s' Hrun).
Qed.

(** A corrector over a chunk without events: the zero-length column is
    stored, then its statistics raise. *)
Example empty_column_is_stored_without_statistics :
  run_call Example.env
    (Muon_triggeriso
       (mkMuonCorrector "JESUp" "tight" "tight" [] [] [] Example.unit_cset
          "2017" EmptyString "2017_UL"))
    (mkStore (Weights_new 0) [])
  = (inl (ValueError
            "zero-size array to reduction operation minimum which has no identity"),
     mkStore (mkWeights [] [mkFactor "muon_triggeriso" [] None None] [])
       [mkLookup "NUM_IsoMu27_DEN_CutBasedIdTight_and_PFIsoTight"
          [AStr "2017_UL"; ANum []; ANum []; AStr "sf"]]).
Proof. vm_compute. reflexivity. Qed.

Example failed_up_lookup_registers_nothing :
  fst (run_call Example.env (Muon_triggeriso ExampleFailure.muon_corrector)
         Example.store) = inl (LookupFailure "variant not in table") /\
  List.length
    (st_lookups
       (snd (run_call Example.env (Muon_triggeriso ExampleFailure.muon_corrector)
               Example.store))) = 2 /\
  st_weights
    (snd (run_call Example.env (Muon_triggeriso ExampleFailure.muon_corrector)
            Example.store)) = st_weights Example.store.
Proof. vm_compute. repeat split; reflexivity. Qed.

(** X3: with a tight iso and a loose ID working point, [add_weight] fails on
    its assertion that no such scale factors exist, before any lookup, for
    either scale-factor type, and leaves the store as it was. *)
Theorem add_weight_rejects_loose_id_tight_iso (env : Environment)
    (self : MuonCorrector) (sf_type : string) (s : Store) :
  iso_wp self = "tight" -> id_wp self = "loose" ->
  MuonCorrector_add_weight env self sf_type s =
    (inl (AssertionError "there's no available SFs"), s).
Proof.
  intros Hiso Hid. unfold MuonCorrector_add_weight, bind, py_assert.
  rewrite Hiso, Hid. reflexivity.
Qed.

Lemma add_weight_rejects_loose_id_tight_iso_witness :
  MuonCorrector_add_weight Example.env
    (Example.muon_corrector "nominal" "loose" "tight") "id" Example.store =
  (inl (AssertionError "there's no available SFs"), Example.store).
Proof.
  apply (@add_weight_rejects_loose_id_tight_iso Example.env
           (Example.muon_corrector "nominal" "loose" "tight") "id"
           Example.store); reflexivity.
Defined.

Lemma supported_iso_key (self : MuonCorrector) :
  supported_working_points (id_wp self) (iso_wp self) ->
  exists id_key iso_key,
    Dict.get id_corrections (id_wp self) = Some id_key /\
    iso_correction_after_tight self (iso_correction_after_loose self)
      = Some iso_key /\
    (String.eqb (iso_wp self) "tight" = true ->
     negb (String.eqb (id_wp self) "loose") = true).
Proof.
  unfold iso_correction_after_tight, iso_correction_after_loose.
  intros [[Hiso Hid] | [Hiso Hid]]; rewrite Hiso;
    repeat (destruct Hid as [Hid | Hid]); rewrite Hid; simpl;
    eexists _, _; (split; [reflexivity|]); (split; [reflexivity|]);
    intros H; first [reflexivity | discriminate H].
Qed.

(** X4: for supported working points, a scale-factor type other than "id"
    and "iso" makes [add_weight] raise the KeyError of the key table,
    before any lookup. *)
Theorem add_weight_unknown_sf_type (env : Environment) (self : MuonCorrector)
    (sf_type : string) (s : Store) :
  supported_working_points (id_wp self) (iso_wp self) ->
  sf_type <> "id" -> sf_type <> "iso" ->
  MuonCorrector_add_weight env self sf_type s = (inl (KeyError sf_type), s).
Proof.
  intros Hsup Hid Hiso.
  destruct (@supported_iso_key self Hsup) as (id_key & iso_key & H1 & H2 & H3).
  apply String.eqb_neq in Hid. apply String.eqb_neq in Hiso.
  unfold MuonCorrector_add_weight, bind, py_assert, dict_getitem, read_local.
  rewrite H1, H2.
  destruct (String.eqb (iso_wp self) "tight");
    [rewrite (H3 eq_refl)|]; simpl; rewrite Hid, Hiso; reflexivity.
Qed.

Lemma add_weight_unknown_sf_type_witness :
  MuonCorrector_add_weight Example.env
    (Example.muon_corrector "nominal" "tight" "tight") "trigger" Example.store =
  (inl (KeyError "trigger"), Example.store).
Proof.
  apply (@add_weight_unknown_sf_type Example.env
           (Example.muon_corrector "nominal" "tight" "tight") "trigger"
           Example.store).
  - right. split; [reflexivity|]. right. reflexivity.
  - discriminate.
  - discriminate.
Defined.

(** X5: with tight working points, a year other than "2016", "2017" and
    "2018" makes [add_triggeriso_weight] raise the KeyError of its key
    table, before any lookup. *)
Theorem triggeriso_unknown_year (env : Environment) (self : MuonCorrector)
    (s : Store) :
  id_wp self = "tight" -> iso_wp self = "tight" ->
  m_year self <> "2016" -> m_year self <> "2017" -> m_year self <> "2018" ->
  MuonCorrector_add_triggeriso_weight env self s =
    (inl (KeyError (m_year self)), s).
Proof.
  intros Hid Hiso H16 H17 H18.
  apply String.eqb_neq in H16. apply String.eqb_neq in H17.
  apply String.eqb_neq in H18.
  unfold MuonCorrector_add_triggeriso_weight, bind, py_assert, dict_getitem.
  rewrite Hid, Hiso. simpl. rewrite H16, H17, H18. reflexivity.
Qed.

Lemma triggeriso_unknown_year_witness :
  MuonCorrector_add_triggeriso_weight Example.env
    (mkMuonCorrector "nominal" "tight" "tight" [45%Q] [0%Q] [1]
       Example.unit_cset "2016APV" EmptyString "2016preVFP_UL")
    Example.store =
  (inl (KeyError "2016APV"), Example.store).
Proof.
  apply (@triggeriso_unknown_year Example.env
           (mkMuonCorrector "nominal" "tight" "tight" [45%Q] [0%Q] [1]
              Example.unit_cset "2016APV" EmptyString "2016preVFP_UL")
           Example.store); simpl; try reflexivity; discriminate.
Defined.

Lemma unsupported_fails (env : Environment) (self : MuonCorrector)
    (sf_type : string) (s : Store) :
  ~ supported_working_points (id_wp self) (iso_wp self) ->
  exists e, MuonCorrector_add_weight env self sf_type s = (inl e, s).
Proof.
  intros Hns.
  unfold MuonCorrector_add_weight, bind, py_assert, dict_getitem, read_local,
    iso_correction_after_tight, iso_correction_after_loose.
  unfold supported_working_points in Hns.
  destruct (String.eqb (iso_wp self) "tight") eqn:Et;
  destruct (String.eqb (iso_wp self) "loose") eqn:El;
  destruct (String.eqb (id_wp self) "loose") eqn:Il;
  destruct (String.eqb (id_wp self) "medium") eqn:Im;
  destruct (String.eqb (id_wp self) "tight") eqn:It;
  simpl; rewrite ?Il, ?Im, ?It; simpl;
  try (eexists; reflexivity);
  exfalso; apply Hns;
  rewrite ?String.eqb_eq in *; intuition.
Qed.

(** X6: the muon ID and iso methods send a lookup only for the five
    supported pairs of working points: loose iso with any documented ID,
    tight iso with a medium or tight ID. *)
Theorem muon_lookup_needs_supported_working_points (env : Environment)
    (self : MuonCorrector) (sf_type : string) (s : Store) :
  st_lookups (snd (MuonCorrector_add_weight env self sf_type s))
    <> st_lookups s ->
  supported_working_points (id_wp self) (iso_wp self).
Proof.
  intros Hsent.
  assert (Hdec : forall a b : string, a = b \/ a <> b).
  { intros a b. destruct (String.eqb a b) eqn:E;
      [left; apply String.eqb_eq | right; apply String.eqb_neq]; exact E. }
  assert (Hcases : supported_working_points (id_wp self) (iso_wp self) \/
                   ~ supported_working_points (id_wp self) (iso_wp self)).
  { unfold supported_working_points.
    destruct (Hdec (iso_wp self) "loose"), (Hdec (iso_wp self) "tight"),
      (Hdec (id_wp self) "loose"), (Hdec (id_wp self) "medium"),
      (Hdec (id_wp self) "tight"); tauto. }
  destruct Hcases as [H | H]; [exact H|].
  destruct (@unsupported_fails env self sf_type s H) as [e He].
  rewrite He in Hsent. exfalso. apply Hsent. reflexivity.
Qed.

Lemma muon_lookup_needs_supported_working_points_witness :
  supported_working_points "tight" "tight".
Proof.
  apply (@muon_lookup_needs_supported_working_points Example.env
           (Example.muon_corrector "nominal" "tight" "tight") "id"
           Example.store).
  vm_compute. discriminate.
Defined.


Lemma bind_inv {S A B : Type} (m : St S A) (k : A -> St S B) (s s' : S)
    (b : B) :
  bind m k s = (inr b, s') ->
  exists a s1, m s = (inr a, s1) /\ k a s1 = (inr b, s').
Proof.
  unfold bind. destruct (m s) as [[e|a] s1]; [discriminate|].
  intros H. exists a, s1. split; [reflexivity | exact H].
Qed.

Lemma electron_init_ok (env : Environment) (electrons : list (list Lepton))
    (year year_mod variation : string) (s s' : Store)
    (self : ElectronCorrector) :
  ElectronCorrector_init env electrons year year_mod variation s
    = (inr self, s') ->
  s' = s /\ e_variation self = variation /\
  electrons_pt self = map l_pt (ak_flatten electrons) /\
  electrons_eta self = map l_eta (ak_flatten electrons) /\
  e_n self = ak_num electrons /\
  Dict.get (pog_years env) (year ++ year_mod) = Some (e_pog_year self).
Proof.
  unfold ElectronCorrector_init, bind, lift, dict_getitem.
  destruct (get_cset env "electron" (year ++ year_mod)); [discriminate|].
  destruct (Dict.get (pog_years env) (year ++ year_mod)); simpl;
    [|discriminate].
  intros H. injection H as <- <-. repeat split; reflexivity.
Qed.

Lemma muon_init_ok (env : Environment) (muons : list (list Lepton))
    (year year_mod variation id iso : string) (s s' : Store)
    (self : MuonCorrector) :
  MuonCorrector_init env muons year year_mod variation id iso s
    = (inr self, s') ->
  s' = s /\ m_variation self = variation /\
  id_wp self = id /\ iso_wp self = iso /\
  muons_pt self = map l_pt (ak_flatten muons) /\
  muons_eta self = map l_eta (ak_flatten muons) /\
  m_n self = ak_num muons /\
  Dict.get (pog_years env) (year ++ year_mod) = Some (m_pog_year self).
Proof.
  unfold MuonCorrector_init, bind, lift, dict_getitem.
  destruct (get_cset env "muon" (year ++ year_mod)); [discriminate|].
  destruct (Dict.get (pog_years env) (year ++ year_mod)); simpl;
    [|discriminate].
  intros H. injection H as <- <-. repeat split; reflexivity.
Qed.

Lemma length_flatten {A : Type} (xs : list (list A)) :
  List.length (ak_flatten xs) = list_sum (ak_num xs).
Proof. unfold ak_flatten, ak_num. apply length_concat. Qed.

(** X7: a constructor first loads the correction set of its lepton kind
    for the run period, and an exception of that load is the constructor's;
    with the set loaded, a run period that [pog_years] does not list raises
    the KeyError of that lookup.  A constructed corrector holds the loaded
    set, the listed period and flat pt and eta columns with one entry per
    object, in step with its per-event counts.  In every case the ledger and
    the lookup log are left untouched. *)
Theorem corrector_construction (env : Environment)
    (leptons : list (list Lepton)) (year year_mod variation id iso : string)
    (s : Store) :
  match get_cset env "electron" (year ++ year_mod) with
  | inl e =>
      ElectronCorrector_init env leptons year year_mod variation s = (inl e, s)
  | inr cset =>
      match Dict.get (pog_years env) (year ++ year_mod) with
      | None =>
          ElectronCorrector_init env leptons year year_mod variation s
            = (inl (KeyError (year ++ year_mod)), s)
      | Some pog_year =>
          exists e,
            ElectronCorrector_init env leptons year year_mod variation s
              = (inr e, s) /\
            e_cset e = cset /\ e_pog_year e = pog_year /\
            List.length (electrons_pt e) = list_sum (e_n e) /\
            List.length (electrons_eta e) = list_sum (e_n e) /\
            List.length (e_n e) = List.length leptons
      end
  end /\
  match get_cset env "muon" (year ++ year_mod) with
  | inl e =>
      MuonCorrector_init env leptons year year_mod variation id iso s
        = (inl e, s)
  | inr cset =>
      match Dict.get (pog_years env) (year ++ year_mod) with
      | None =>
          MuonCorrector_init env leptons year year_mod variation id iso s
            = (inl (KeyError (year ++ year_mod)), s)
      | Some pog_year =>
          exists m,
            MuonCorrector_init env leptons year year_mod variation id iso s
              = (inr m, s) /\
            m_cset m = cset /\ m_pog_year m = pog_year /\
            List.length (muons_pt m) = list_sum (m_n m) /\
            List.length (muons_eta m) = list_sum (m_n m) /\
            List.length (m_n m) = List.length leptons
      end
  end.
Proof.
  unfold ElectronCorrector_init, MuonCorrector_init, bind, lift, dict_getitem.
  split.
  - destruct (get_cset env "electron" (year ++ year_mod)) as [e|cset];
      [reflexivity|].
    destruct (Dict.get (pog_years env) (year ++ year_mod)) as [pog_year|];
      simpl; [|reflexivity].
    eexists. split; [reflexivity|]. simpl.
    rewrite !length_map, length_flatten. unfold ak_num. rewrite length_map.
    repeat split; reflexivity.
  - destruct (get_cset env "muon" (year ++ year_mod)) as [e|cset];
      [reflexivity|].
    destruct (Dict.get (pog_years env) (year ++ year_mod)) as [pog_year|];
      simpl; [|reflexivity].
    eexists. split; [reflexivity|]. simpl.
    rewrite !length_map, length_flatten. unfold ak_num. rewrite length_map.
    repeat split; reflexivity.
Qed.

Lemma electron_add_nominal (env : Environment) (self : ElectronCorrector)
    (name wp : string) (eta pt : list Q) (s s' : Store) :
  e_variation self = "nominal" ->
  electron_add env self name wp eta pt s = (inr tt, s') ->
  exists f, registers s s' f /\ f_name f = name /\ has_variants f.
Proof.
  intros Hv Hrun. apply electron_add_ok in Hrun. cbv zeta in Hrun.
  rewrite Hv in Hrun. simpl in Hrun.
  destruct Hrun as (sf & up & down & _ & _ & _ & _ & Hr).
  eexists. split; [exact Hr|]. split; [reflexivity|].
  split; discriminate.
Qed.

Lemma muon_add_nominal (env : Environment) (self : MuonCorrector)
    (name key : string) (eta pt : list Q) (s s' : Store) :
  m_variation self = "nominal" ->
  muon_add env self name key eta pt s = (inr tt, s') ->
  exists f, registers s s' f /\ f_name f = name /\ has_variants f.
Proof.
  intros Hv Hrun. apply muon_add_ok in Hrun. cbv zeta in Hrun.
  rewrite Hv in Hrun. simpl in Hrun.
  destruct Hrun as (sf & up & down & _ & _ & _ & _ & Hr).
  eexists. split; [exact Hr|]. split; [reflexivity|].
  split; discriminate.
Qed.

Lemma muon_weight_nominal (env : Environment) (self : MuonCorrector)
    (sf_type : string) (s s' : Store) :
  m_variation self = "nominal" ->
  MuonCorrector_add_weight env self sf_type s = (inr tt, s') ->
  exists f, registers s s' f /\ f_name f = "muon_" ++ sf_type /\
            has_variants f.
Proof.
  intros Hv Hrun.
  destruct (add_weight_cases env self sf_type s) as [[e He] | [key Hk]];
    [rewrite He in Hrun; discriminate|].
  rewrite Hk in Hrun. eapply muon_add_nominal; eassumption.
Qed.

Lemma muon_triggeriso_nominal (env : Environment) (self : MuonCorrector)
    (s s' : Store) :
  m_variation self = "nominal" ->
  MuonCorrector_add_triggeriso_weight env self s = (inr tt, s') ->
  (exists f, registers s s' f /\ f_name f = "muon_triggeriso" /\
             has_variants f) /\
  id_wp self = "tight" /\ iso_wp self = "tight".
Proof.
  intros Hv Hrun. split.
  - destruct (triggeriso_cases env self s) as [[e He] | [key Hk]];
      [rewrite He in Hrun; discriminate|].
    rewrite Hk in Hrun. eapply muon_add_nominal; eassumption.
  - unfold MuonCorrector_add_triggeriso_weight, bind, py_assert in Hrun.
    destruct (String.eqb (id_wp self) "tight") eqn:E1;
      destruct (String.eqb (iso_wp self) "tight") eqn:E2;
      simpl in Hrun; try discriminate.
    apply String.eqb_eq in E1. apply String.eqb_eq in E2. auto.
Qed.

Lemma lepton_weights_factors (env : Environment)
    (year yearmod flavor : string) (events : Events) (s s' : Store) :
  lepton_weights env year yearmod flavor events s = (inr tt, s') ->
  (exists fs,
     w_factors (st_weights s') = (w_factors (st_weights s) ++ fs)%list /\
     map f_name fs = lepton_factor_names flavor /\
     Forall has_variants fs) /\
  (flavor <> "ele" ->
   muon_id_wp (ztoll_muon_selection env) = "tight" /\
   muon_iso_wp (ztoll_muon_selection env) = "tight").
Proof.
  unfold lepton_weights, lepton_factor_names.
  destruct (String.eqb flavor "ele") eqn:Efl; intros Hrun.
  - apply bind_inv in Hrun. destruct Hrun as (self & s1 & Hinit & Hrun).
    apply electron_init_ok in Hinit.
    destruct Hinit as (-> & Hv & _).
    apply bind_inv in Hrun. destruct Hrun as ([] & s2 & Hid & Hreco).
    destruct (@electron_add_nominal env self _ _ _ _ s s2 Hv Hid)
      as (f1 & R1 & N1 & V1).
    destruct (@electron_add_nominal env self _ _ _ _ s2 s' Hv Hreco)
      as (f2 & R2 & N2 & V2).
    split.
    + exists [f1; f2]. unfold registers in *. rewrite R2, R1, <- app_assoc.
      split; [reflexivity|]. simpl. rewrite N1, N2.
      split; [reflexivity|].
      repeat (apply Forall_cons; [assumption|]). apply Forall_nil.
    + intros Hne. apply String.eqb_eq in Efl. contradiction.
  - apply bind_inv in Hrun. destruct Hrun as (self & s1 & Hinit & Hrun).
    apply muon_init_ok in Hinit.
    destruct Hinit as (-> & Hv & Hidwp & Hisowp & _).
    apply bind_inv in Hrun. destruct Hrun as ([] & s2 & Hid & Hrun).
    apply bind_inv in Hrun. destruct Hrun as ([] & s3 & Hiso & Htrig).
    destruct (@muon_weight_nominal env self _ s s2 Hv Hid)
      as (f1 & R1 & N1 & V1).
    destruct (@muon_weight_nominal env self _ s2 s3 Hv Hiso)
      as (f2 & R2 & N2 & V2).
    destruct (@muon_triggeriso_nominal env self s3 s' Hv Htrig)
      as ((f3 & R3 & N3 & V3) & T1 & T2).
    split.
    + exists [f1; f2; f3]. unfold registers in *.
      rewrite R3, R2, R1, <- !app_assoc.
      split; [reflexivity|]. simpl. rewrite N1, N2, N3.
      split; [reflexivity|].
      repeat (apply Forall_cons; [assumption|]). apply Forall_nil.
    + intros _. rewrite <- Hidwp, <- Hisowp. auto.
Qed.

(** X8: when the lepton block of [process] returns, it has appended to the
    ledger exactly the factors electron_id and electron_reco (electron
    flavor) or muon_id, muon_iso and muon_triggeriso (otherwise), in this
    order and each with its up and down variants. *)
Theorem lepton_block_registers_factors_with_variants (env : Environment)
    (year yearmod flavor : string) (events : Events) (s s' : Store) :
  lepton_weights env year yearmod flavor events s = (inr tt, s') ->
  exists fs,
    w_factors (st_weights s') = (w_factors (st_weights s) ++ fs)%list /\
    map f_name fs = lepton_factor_names flavor /\
    Forall has_variants fs.
Proof.
  intros Hrun.
  apply (@lepton_weights_factors env year yearmod flavor events s s' Hrun).
Qed.

(** X9: for a flavor other than "ele" the lepton block of [process] can
    return only when the configured muon ID and iso working points are both
    "tight": with any other configuration every simulated muon chunk
    raises. *)
Theorem muon_block_needs_tight_working_points (env : Environment)
    (year yearmod flavor : string) (events : Events) (s s' : Store) :
  flavor <> "ele" ->
  lepton_weights env year yearmod flavor events s = (inr tt, s') ->
  muon_id_wp (ztoll_muon_selection env) = "tight" /\
  muon_iso_wp (ztoll_muon_selection env) = "tight".
Proof.
  intros Hfl Hrun.
  destruct (@lepton_weights_factors env year yearmod flavor events s s' Hrun)
    as [_ H].
  apply H. exact Hfl.
Qed.


Lemma lepton_block_registers_factors_with_variants_witness :
  exists fs,
    w_factors
      (st_weights
         (snd (lepton_weights Example.env "2017" EmptyString "ele"
                 Example.mc_chunk ExampleFlavor.mc_store)))
      = (w_factors (st_weights ExampleFlavor.mc_store) ++ fs)%list /\
    map f_name fs = ["electron_id"; "electron_reco"] /\
    Forall has_variants fs.
Proof.
  apply (@lepton_block_registers_factors_with_variants Example.env
           "2017" EmptyString "ele" Example.mc_chunk ExampleFlavor.mc_store).
  vm_compute. reflexivity.
Defined.

Lemma muon_block_needs_tight_working_points_witness :
  muon_id_wp (ztoll_muon_selection Example.env) = "tight" /\
  muon_iso_wp (ztoll_muon_selection Example.env) = "tight".
Proof.
  apply (@muon_block_needs_tight_working_points Example.env
           "2017" EmptyString "mu" Example.mc_chunk ExampleFlavor.mc_store
           (snd (lepton_weights Example.env "2017" EmptyString "mu"
                   Example.mc_chunk ExampleFlavor.mc_store))).
  - discriminate.
  - vm_compute. reflexivity.
Defined.

(** X10: an instance whose lepton flavor is neither "ele" nor "mu" fails on
    every chunk with the unbound local [muons] of the lepton choice; by then
    only [self.is_mc] has been written. *)
Theorem unknown_flavor_raises (env : Environment) (events : Events)
    (s : ZToLLProcessor) :
  _lepton_flavor s <> "ele" -> _lepton_flavor s <> "mu" ->
  process env events s =
    (inl (UnboundLocalError "muons"),
     snd (set_is_mc (has_genWeight events) s)).
Proof.
  intros He Hm. apply String.eqb_neq in He. apply String.eqb_neq in Hm.
  unfold process.
  do 5 (erewrite bind_step by reflexivity).
  cbn [_year _yearmod _lepton_flavor array_dict set_is_mc snd].
  apply bind_fail. unfold lift, object_selection, good_leptons.
  rewrite He, Hm. reflexivity.
Qed.

Lemma unknown_flavor_raises_witness :
  process Example.env Example.data_chunk ExampleFlavor.tau_processor =
    (inl (UnboundLocalError "muons"),
     snd (set_is_mc false ExampleFlavor.tau_processor)).
Proof.
  apply (@unknown_flavor_raises Example.env Example.data_chunk
           ExampleFlavor.tau_processor); discriminate.
Defined.

Lemma length_passing (sel : PackedSelection) (cuts : list string) (n : nat) :
  List.length (passing sel cuts n) <= n.
Proof.
  unfold passing.
  pose proof (filter_length_le
                (fun j => forallb (fun c => bit sel c j) cuts) (seq 0 n)) as H.
  rewrite length_seq in H. exact H.
Qed.

(** X11: the [events_after] of a returned chunk is the number of events that
    pass every cut of the instance's region; it never exceeds
    [events_before], the number of input events. *)
Theorem events_after_counts_selected (env : Environment)
    (s : ZToLLProcessor) (events : Events) (cuts : list string)
    (objs : Objects) (W : Weights) (ne nm nf : list string) :
  ready env s events cuts objs W ne nm nf ->
  exists out s' sel,
    process env events s = (inr out, s') /\
    selections s' = Some sel /\
    events_before (metadata out) = len events /\
    events_after (metadata out) = List.length (passing sel cuts (len events)) /\
    events_after (metadata out) <= events_before (metadata out).
Proof.
  intros Hready.
  destruct (process_spec Hready) as (arrays & s' & Hrun & Hsel & _).
  eexists _, s', _. split; [exact Hrun|]. split; [exact Hsel|]. simpl.
  rewrite count_true_region_mask.
  split; [reflexivity|]. split; [reflexivity|]. apply length_passing.
Qed.

Lemma events_after_counts_selected_witness :
  exists out s' sel,
    process Example.env Example.data_chunk Example.processor = (inr out, s') /\
    selections s' = Some sel /\
    events_before (metadata out) = 2 /\
    events_after (metadata out)
      = List.length (passing sel ele_cuts 2) /\
    events_after (metadata out) <= events_before (metadata out).
Proof.
  apply (@events_after_counts_selected Example.env Example.processor
           Example.data_chunk ele_cuts
           (ExampleRun.objects Example.data_chunk)
           (ExampleRun.weights Example.data_chunk)
           ExampleRun.names_ele ExampleRun.names_mu
           (ExampleRun.names_mf Example.data_chunk)).
  example_ready.
Defined.


Lemma nth_repeat_lt {A : Type} (x d : A) (n j : nat) :
  j < n -> nth j (repeat x n) d = x.
Proof.
  revert j. induction n as [|n IH]; intros [|j] H; simpl; try lia;
    [reflexivity|]. apply IH. lia.
Qed.

Lemma Qsum_ones (h : nat -> Q) (l : list nat) :
  (forall j, In j l -> h j = 1%Q) ->
  (Qsum (map h l) == inject_Z (Z.of_nat (List.length l)))%Q.
Proof.
  induction l as [|j l IH]; intros H.
  - reflexivity.
  - change (Qsum (map h (j :: l))) with (h j + Qsum (map h l))%Q.
    rewrite (H j (or_introl eq_refl)), IH by (intros; apply H; right; assumption).
    change (List.length (j :: l)) with (S (List.length l)).
    rewrite Nat2Z.inj_succ, <- Z.add_1_l, inject_Z_plus. reflexivity.
Qed.

Lemma in_passing_lt (sel : PackedSelection) (cuts : list string) (n j : nat) :
  In j (passing sel cuts n) -> j < n.
Proof.
  unfold passing. intros H. apply filter_In in H. destruct H as [H _].
  apply in_seq in H. lia.
Qed.

Lemma selected_weight_ones (sel : PackedSelection) (cuts : list string)
    (n : nat) :
  (selected_weight (repeat 1%Q n) sel cuts
   == inject_Z (Z.of_nat (List.length (passing sel cuts n))))%Q.
Proof.
  unfold selected_weight. rewrite repeat_length.
  apply Qsum_ones. intros j Hj. apply nth_repeat_lt.
  eapply in_passing_lt. exact Hj.
Qed.

Lemma Qsum_repeat_one (n : nat) :
  (Qsum (repeat 1%Q n) == inject_Z (Z.of_nat n))%Q.
Proof.
  induction n as [|n IH]; [reflexivity|].
  change (Qsum (repeat 1%Q (S n))) with (1 + Qsum (repeat 1%Q n))%Q.
  rewrite IH, Nat2Z.inj_succ, <- Z.add_1_l, inject_Z_plus. reflexivity.
Qed.

Lemma region_cuts_nodup (flavor : string) (cuts : list string) :
  Dict.get regions flavor = Some cuts -> NoDup cuts.
Proof.
  intros H. destruct (regions_cases _ H) as [[_ ->] | [_ ->]];
    repeat constructor; simpl; intuition discriminate.
Qed.

(** X12: for a chunk of real data every event weighs 1, so the returned
    [sumw] is the number of input events and the cutflow entry of the i-th
    cut is the number of events that pass the first i cuts. *)
Theorem data_cutflow_counts_events (env : Environment) (s : ZToLLProcessor)
    (events : Events) (cuts : list string) (objs : Objects) (W : Weights)
    (ne nm nf : list string) :
  has_genWeight events = false ->
  ready env s events cuts objs W ne nm nf ->
  exists out s' sel,
    process env events s = (inr out, s') /\
    selections s' = Some sel /\
    (sumw (metadata out) == inject_Z (Z.of_nat (len events)))%Q /\
    forall i name,
      nth_error cuts i = Some name ->
      exists v,
        Dict.get (cutflow (metadata out)) name = Some v /\
        (v == inject_Z
                (Z.of_nat
                   (List.length
                      (passing sel (firstn (S i) cuts) (len events)))))%Q.
Proof.
  intros Hdata Hready.
  destruct (process_spec Hready) as (arrays & s' & Hrun & Hsel & _).
  assert (HW : Weights_weight W = repeat 1%Q (len events)).
  { pose proof (ready_weights Hready) as Hw. rewrite Hdata in Hw.
    unfold weights_container in Hw. injection Hw as <-. reflexivity. }
  eexists _, s', _. split; [exact Hrun|]. split; [exact Hsel|]. simpl.
  rewrite HW. split; [apply Qsum_repeat_one|].
  intros i name Hi. eexists. split.
  - apply (get_cutflow_spec (repeat 1%Q (len events)) _ [] (cuts := cuts));
      [|exact Hi].
    eapply region_cuts_nodup. exact (ready_region Hready).
  - simpl. apply selected_weight_ones.
Qed.

Lemma data_cutflow_counts_events_witness :
  exists out s' sel,
    process Example.env Example.data_chunk Example.processor = (inr out, s') /\
    selections s' = Some sel /\
    (sumw (metadata out) == inject_Z (Z.of_nat 2))%Q /\
    forall i name,
      nth_error ele_cuts i = Some name ->
      exists v,
        Dict.get (cutflow (metadata out)) name = Some v /\
        (v == inject_Z
                (Z.of_nat
                   (List.length
                      (passing sel (firstn (S i) ele_cuts) 2))))%Q.
Proof.
  apply (@data_cutflow_counts_events Example.env Example.processor
           Example.data_chunk ele_cuts
           (ExampleRun.objects Example.data_chunk)
           (ExampleRun.weights Example.data_chunk)
           ExampleRun.names_ele ExampleRun.names_mu
           (ExampleRun.names_mf Example.data_chunk)).
  - reflexivity.
  - example_ready.
Defined.

Lemma passing_ext (sel : PackedSelection) (cuts cuts' : list string) (n : nat) :
  (forall j, j < n ->
     forallb (fun c => bit sel c j) cuts = forallb (fun c => bit sel c j) cuts') ->
  passing sel cuts n = passing sel cuts' n.
Proof.
  intros H. unfold passing. apply filter_ext_in. intros j Hj.
  apply in_seq in Hj. apply H. lia.
Qed.

Lemma lumi_bit_simulation (env : Environment) (year : string)
    (events : Events) (objs : Objects) (ne nm nf : list string) (j : nat) :
  j < len events ->
  bit (registry env year events true objs ne nm nf) "lumi" j = true.
Proof.
  intros Hj. unfold bit. simpl. rewrite filled_map_Some.
  unfold lumi_column. simpl. apply nth_repeat_lt. exact Hj.
Qed.

(** X13: the luminosity mask is all-true for simulation, so in a simulated
    chunk the "lumi" entry of the cutflow equals the "goodvertex" entry
    before it. *)
Theorem lumi_cut_keeps_simulation (env : Environment) (s : ZToLLProcessor)
    (events : Events) (cuts : list string) (objs : Objects) (W : Weights)
    (ne nm nf : list string) :
  has_genWeight events = true ->
  ready env s events cuts objs W ne nm nf ->
  exists out s' v,
    process env events s = (inr out, s') /\
    Dict.get (cutflow (metadata out)) "goodvertex" = Some v /\
    Dict.get (cutflow (metadata out)) "lumi" = Some v.
Proof.
  intros Hmc Hready.
  destruct (process_spec Hready) as (arrays & s' & Hrun & Hsel & _).
  pose proof (ready_shape Hready) as Hshape.
  eexists _, s', _. split; [exact Hrun|]. simpl.
  destruct (regions_cases _ (ready_region Hready)) as [[_ ->] | [_ ->]];
    simpl; (split; [reflexivity|]); f_equal;
    unfold selected_weight; rewrite Hshape; f_equal; f_equal;
    apply passing_ext; intros j Hj; simpl;
    rewrite Hmc;
    rewrite (@lumi_bit_simulation env (_year s) events objs ne nm nf j Hj);
    rewrite !andb_true_r; reflexivity.
Qed.

Lemma lumi_cut_keeps_simulation_witness :
  exists out s' v,
    process Example.env Example.mc_chunk Example.processor = (inr out, s') /\
    Dict.get (cutflow (metadata out)) "goodvertex" = Some v /\
    Dict.get (cutflow (metadata out)) "lumi" = Some v.
Proof.
  apply (@lumi_cut_keeps_simulation Example.env Example.processor
           Example.mc_chunk ele_cuts
           (ExampleRun.objects Example.mc_chunk)
           (ExampleRun.weights Example.mc_chunk)
           ExampleRun.names_ele ExampleRun.names_mu
           (ExampleRun.names_mf Example.mc_chunk)).
  - reflexivity.
  - example_ready.
Defined.


Lemma available_or_none (events : Events) (names : list string) :
  forallb (fun t => negb (is_field t (HLT_fields events))) names = true ->
  available_or events names = repeat false (len events).
Proof.
  intros H. unfold available_or, len. rewrite repeat_as_map.
  apply map_ext. intros e.
  induction names as [|t names IH]; simpl in *; [reflexivity|].
  apply andb_true_iff in H. destruct H as [Ht Hn].
  apply negb_true_iff in Ht. rewrite Ht. simpl. apply IH. exact Hn.
Qed.

Lemma filter_none {A : Type} (f : A -> bool) (l : list A) :
  (forall x, In x l -> f x = false) -> filter f l = [].
Proof.
  induction l as [|x l IH]; intros H; simpl; [reflexivity|].
  rewrite (H x (or_introl eq_refl)). apply IH.
  intros y Hy. apply H. right. exact Hy.
Qed.

Lemma nth_repeat_false (n j : nat) : nth j (repeat false n) false = false.
Proof.
  revert j. induction n as [|n IH]; intros [|j]; simpl; auto.
Qed.

(** X14: when none of the trigger names listed for the instance's flavor is
    a branch of the chunk, the trigger mask is all-false: no event is
    selected, [events_after] is zero and the returned table is the untouched
    accumulator dictionary. *)
Theorem no_trigger_branch_selects_nothing (env : Environment)
    (s : ZToLLProcessor) (events : Events) (cuts : list string)
    (objs : Objects) (W : Weights) (ne nm nf : list string) :
  ready env s events cuts objs W ne nm nf ->
  forallb (fun t => negb (is_field t (HLT_fields events)))
          (flavor_triggers (_lepton_flavor s) ne nm) = true ->
  exists out s',
    process env events s = (inr out, s') /\
    events_after (metadata out) = 0 /\
    arrays out = array_dict s.
Proof.
  intros Hready Hnone.
  destruct (process_spec Hready) as (arrays & s' & Hrun & _ & Hzero).
  assert (Hcount :
    count_true
      (region_mask
         (registry env (_year s) events (has_genWeight events) objs ne nm nf)
         cuts (len events)) = 0).
  { rewrite count_true_region_mask.
    replace (passing _ cuts (len events)) with (@nil nat); [reflexivity|].
    symmetry. unfold passing.
    apply filter_none. intros j _.
    unfold flavor_triggers in Hnone.
    destruct (regions_cases _ (ready_region Hready)) as [[Hfl ->] | [Hfl ->]];
      rewrite Hfl in Hnone; simpl in Hnone;
      apply available_or_none in Hnone;
      unfold ele_cuts, mu_cuts; simpl;
      unfold bit at 3; simpl;
      rewrite filled_map_Some, trigger_mask_available, Hnone,
        nth_repeat_false;
      rewrite !andb_false_r; reflexivity. }
  eexists _, s'. split; [exact Hrun|]. simpl.
  split; [exact Hcount | apply Hzero; exact Hcount].
Qed.

Lemma no_trigger_branch_selects_nothing_witness :
  exists out s',
    process Example.env ExampleFlavor.untriggered_chunk Example.processor
      = (inr out, s') /\
    events_after (metadata out) = 0 /\
    arrays out = array_dict Example.processor.
Proof.
  apply (@no_trigger_branch_selects_nothing Example.env Example.processor
           ExampleFlavor.untriggered_chunk ele_cuts
           (ExampleRun.objects ExampleFlavor.untriggered_chunk)
           (ExampleRun.weights ExampleFlavor.untriggered_chunk)
           ExampleRun.names_ele ExampleRun.names_mu
           (ExampleRun.names_mf ExampleFlavor.untriggered_chunk)).
  - example_ready.
  - vm_compute. reflexivity.
Defined.

(** X15: whatever chunks an instance has processed, and however those runs
    ended, its configuration attributes are the ones it was constructed with,
    its accumulator dictionary is still empty, and the keys of
    [self.features] are an initial segment of the nine feature names. *)
Theorem instance_invariants (env : Environment)
    (year yearmod flavor otype : string) (history : list Events) :
  let s := process_all env history
             (ZToLLProcessor_init year yearmod flavor otype) in
  _year s = year /\ _yearmod s = yearmod /\ _lepton_flavor s = flavor /\
  _output_type s = otype /\ array_dict s = [] /\
  exists k, Dict.keys (features s) = firstn k feature_names.
Proof.
  intros s.
  assert (H : base_rel (ZToLLProcessor_init year yearmod flavor otype) s
                (ZToLLProcessor_init year yearmod flavor otype)).
  { apply base_rel_process_all. apply base_rel_init. }
  destruct H as ((Hc & _) & (k & _ & Hk) & _).
  unfold same_config in Hc. simpl in Hc.
  destruct Hc as (H1 & H2 & H3 & H4 & H5).
  repeat split; try congruence. exists k. exact Hk.
Qed.

Lemma existsb_perm {A : Type} (f : A -> bool) (l l' : list A) :
  Permutation l l' -> existsb f l = existsb f l'.
Proof.
  induction 1; simpl; try congruence.
  destruct (f x), (f y); reflexivity.
Qed.

Lemma forallb_perm {A : Type} (f : A -> bool) (l l' : list A) :
  Permutation l l' -> forallb f l = forallb f l'.
Proof.
  induction 1; simpl; try congruence.
  destruct (f x), (f y); reflexivity.
Qed.

(** X16: the trigger mask and the MET-filter mask of a chunk do not depend
    on the order in which the configuration lists the names. *)
Theorem masks_ignore_listing_order (events : Events)
    (names names' : list string) :
  Permutation names names' ->
  trigger_mask events names = trigger_mask events names' /\
  metfilters_mask events names = metfilters_mask events names'.
Proof.
  intros Hp.
  rewrite !trigger_mask_available, !metfilters_mask_available.
  unfold available_or, available_and. split; apply map_ext; intros e.
  - apply existsb_perm. exact Hp.
  - apply forallb_perm. exact Hp.
Qed.

Lemma masks_ignore_listing_order_witness :
  trigger_mask Example.data_chunk ["Photon200"; "Ele35_WPTight_Gsf"]
    = trigger_mask Example.data_chunk ["Ele35_WPTight_Gsf"; "Photon200"] /\
  metfilters_mask Example.data_chunk ["Photon200"; "Ele35_WPTight_Gsf"]
    = metfilters_mask Example.data_chunk ["Ele35_WPTight_Gsf"; "Photon200"].
Proof.
  apply (@masks_ignore_listing_order Example.data_chunk
           ["Photon200"; "Ele35_WPTight_Gsf"]
           ["Ele35_WPTight_Gsf"; "Photon200"]).
  apply perm_swap.
Defined.


Lemma skipn_cons_nth {A : Type} (l : list A) (i : nat) (x : A) (t : list A) :
  skipn i l = x :: t -> nth_error l i = Some x /\ skipn (S i) l = t.
Proof.
  revert l. induction i as [|i IH]; intros [|y l] H; simpl in *;
    try discriminate.
  - injection H as -> ->. auto.
  - apply IH. exact H.
Qed.

Lemma set_all_prefix {V : Type} (names : list string) (rest : list (string * V))
    (i k : nat) (d : Dict.t V) :
  NoDup names ->
  Dict.keys d = firstn k names ->
  i <= k ->
  map fst rest = skipn i names ->
  set_all d rest = (firstn i d ++ rest)%list.
Proof.
  intros Hnd. revert i k d.
  induction rest as [|[nm v] rest IH]; intros i k d Hk Hik Hrest.
  - simpl. rewrite app_nil_r. symmetry. apply firstn_all2.
    simpl in Hrest. symmetry in Hrest.
    assert (Hlen : List.length names <= i).
    { destruct (Nat.le_gt_cases (List.length names) i) as [H | H]; [exact H|].
      exfalso. apply (f_equal (@List.length string)) in Hrest.
      rewrite length_skipn in Hrest. simpl in Hrest. lia. }
    unfold Dict.keys in Hk. rewrite <- (length_map fst), Hk, length_firstn.
    lia.
  - simpl in Hrest. symmetry in Hrest.
    apply skipn_cons_nth in Hrest. destruct Hrest as [Hn Hskip].
    destruct (set_prefix d v Hnd Hk Hik Hn) as [(k' & Hk' & Hkeys) Hfirst].
    change (set_all d ((nm, v) :: rest)) with (set_all (Dict.set d nm v) rest).
    rewrite (IH (S i) k' (Dict.set d nm v) Hkeys Hk' (eq_sym Hskip)).
    rewrite Hfirst, <- app_assoc. reflexivity.
Qed.

Lemma set_all_names {V : Type} (names : list string) (kvs : list (string * V))
    (k : nat) (d : Dict.t V) :
  NoDup names ->
  Dict.keys d = firstn k names ->
  map fst kvs = names ->
  set_all d kvs = kvs.
Proof.
  intros Hnd Hk Hkvs.
  rewrite (@set_all_prefix V names kvs 0 k d Hnd Hk (Nat.le_0_l k) Hkvs).
  reflexivity.
Qed.

Lemma length_mask_select {A : Type} (xs : list A) (mask : list bool) :
  List.length xs = List.length mask ->
  List.length (mask_select xs mask) = count_true mask.
Proof.
  unfold mask_select, count_true. rewrite length_map.
  revert mask. induction xs as [|x xs IH]; intros [|b mask] H;
    try discriminate; [reflexivity|].
  simpl in *. injection H as H. destruct b; simpl; rewrite IH by exact H;
    reflexivity.
Qed.

Lemma select_feature_run (name : string) (column : list (option Q))
    (mask : list bool) (s : ZToLLProcessor) :
  List.length column = List.length mask ->
  select_feature name column mask s =
    (inr tt,
     put_features s (Dict.set (features s) name (mask_select column mask))).
Proof.
  intros H. unfold select_feature, bind, lift.
  rewrite getitem_mask_ok by exact H. reflexivity.
Qed.

Lemma fill_features_value (env : Environment) (vars : EventVariables)
    (w : list Q) (mask : list bool) (s : ZToLLProcessor) :
  columns_fit vars w (List.length mask) ->
  prefix_from 0 s ->
  exists s',
    fill_features env vars w mask s =
      (inr (normalized env (selected_features vars w mask)), s') /\
    features s' = selected_features vars w mask /\
    selections s' = selections s /\
    _lepton_flavor s' = _lepton_flavor s.
Proof.
  intros [H1 H2 H3 H4 H5 H6 H7 H8 H9] (k & _ & Hk).
  assert (Hset : set_all (features s) (selected_features vars w mask)
                 = selected_features vars w mask).
  { apply (@set_all_names _ feature_names _ k);
      [apply NoDup_feature_names | exact Hk | reflexivity]. }
  exists (put_features s (selected_features vars w mask)).
  split; [|repeat split; reflexivity].
  unfold fill_features.
  erewrite bind_step by (apply select_feature_run; exact H1).
  erewrite bind_step by (apply select_feature_run; exact H2).
  erewrite bind_step by (apply select_feature_run; exact H3).
  erewrite bind_step by (apply select_feature_run; exact H4).
  erewrite bind_step by (apply select_feature_run; exact H5).
  erewrite bind_step by (apply select_feature_run; exact H6).
  erewrite bind_step by (apply select_feature_run; exact H7).
  erewrite bind_step by (apply select_feature_run; exact H8).
  unfold lift at 1.
  erewrite bind_step by (rewrite getitem_mask_ok by exact H9; reflexivity).
  erewrite bind_step by reflexivity.
  erewrite bind_step by reflexivity.
  unfold ret. rewrite <- Hset at 1 2. reflexivity.
Qed.

Lemma region_step_selected (env : Environment) (vars : EventVariables)
    (w : list Q) (k : string) (acc : Dict.t (list Q) * option nat)
    (s : ZToLLProcessor) (sel : PackedSelection) (cuts : list string) :
  String.eqb k (_lepton_flavor s) = true ->
  Dict.get regions k = Some cuts ->
  selections s = Some sel ->
  registered sel cuts ->
  columns_fit vars w (ps_size sel) ->
  prefix_from 0 s ->
  let mask := region_mask sel cuts (ps_size sel) in
  count_true mask <> 0 ->
  exists s',
    region_step env vars w k acc s
      = (inr (normalized env (selected_features vars w mask),
              Some (count_true mask)), s') /\
    features s' = selected_features vars w mask /\
    selections s' = Some sel /\
    _lepton_flavor s' = _lepton_flavor s.
Proof.
  intros Hk Hcuts Hsel Hreg Hfit Hpre mask Hcount.
  assert (Hm : List.length mask = ps_size sel) by apply length_region_mask.
  rewrite <- Hm in Hfit.
  destruct (@fill_features_value env vars w mask s Hfit Hpre)
    as (s' & Hfill & Hfeat & Hsel' & Hfl').
  exists s'. split; [|split; [exact Hfeat | split; [congruence | exact Hfl']]].
  unfold region_step.
  erewrite bind_step by reflexivity. rewrite Hk.
  change (negb true) with false. cbv iota.
  erewrite bind_step by (apply dict_getitem_ok; exact Hcuts).
  erewrite bind_step;
    [| unfold selections_all, bind, get_selections, lift; rewrite Hsel;
       rewrite all_region_mask by exact Hreg; reflexivity ].
  fold mask.
  apply Nat.eqb_neq in Hcount. rewrite Hcount.
  erewrite bind_step by exact Hfill. reflexivity.
Qed.

Lemma for_regions_selected (env : Environment) (vars : EventVariables)
    (w : list Q) (ad : Dict.t (list Q)) (s : ZToLLProcessor)
    (sel : PackedSelection) (cuts : list string) :
  Dict.get regions (_lepton_flavor s) = Some cuts ->
  selections s = Some sel ->
  registered sel cuts ->
  columns_fit vars w (ps_size sel) ->
  prefix_from 0 s ->
  let mask := region_mask sel cuts (ps_size sel) in
  count_true mask <> 0 ->
  exists s',
    for_regions env vars w (Dict.keys regions) (ad, None) s
      = (inr (normalized env (selected_features vars w mask),
              Some (count_true mask)), s') /\
    features s' = selected_features vars w mask.
Proof.
  intros Hcuts Hsel Hreg Hfit Hpre mask Hcount.
  change (Dict.keys regions) with ["ele"; "mu"]. unfold for_regions.
  destruct (regions_cases _ Hcuts) as [[Hfl Hc] | [Hfl Hc]].
  - destruct (@region_step_selected env vars w "ele" (ad, None) s sel cuts)
      as (s1 & Hstep & Hfeat & Hs1 & Hf1); try assumption.
    { rewrite Hfl. reflexivity. }
    { rewrite <- Hfl. exact Hcuts. }
    erewrite bind_step by exact Hstep.
    erewrite bind_step
      by (apply region_step_other; rewrite Hf1, Hfl; reflexivity).
    exists s1. split; [reflexivity | exact Hfeat].
  - erewrite bind_step
      by (apply region_step_other; rewrite Hfl; reflexivity).
    destruct (@region_step_selected env vars w "mu" (ad, None) s sel cuts)
      as (s1 & Hstep & Hfeat & Hs1 & Hf1); try assumption.
    { rewrite Hfl. reflexivity. }
    { rewrite <- Hfl. exact Hcuts. }
    erewrite bind_step by exact Hstep.
    exists s1. split; [reflexivity | exact Hfeat].
Qed.

Lemma process_selected (env : Environment) (s : ZToLLProcessor)
    (events : Events) (cuts : list string) (objs : Objects) (W : Weights)
    (ne nm nf : list string) :
  ready env s events cuts objs W ne nm nf ->
  prefix_from 0 s ->
  let sel := registry env (_year s) events (has_genWeight events) objs ne nm nf in
  let mask := region_mask sel cuts (len events) in
  let feats :=
    selected_features (variables env events objs) (Weights_weight W) mask in
  count_true mask <> 0 ->
  exists out s',
    process env events s = (inr out, s') /\
    arrays out = normalized env feats /\
    events_after (metadata out) = count_true mask /\
    features s' = feats.
Proof.
  intros [Hreg Hobj Hw Hshape Hcfg] Hpre sel mask feats Hcount.
  pose proof (object_selection_shape _ _ _ _ _ _ Hobj) as Hws.
  pose proof (variables_shape env Hws) as Hv. cbv zeta in Hv.
  destruct Hv as (V1 & V2 & V3 & V4 & V5 & V6 & V7 & V8).
  assert (Hsize : ps_size sel = len events) by apply ps_size_registry.
  assert (Hcases := regions_cases _ Hreg).
  assert (Hregd : registered sel cuts).
  { apply registry_registered. destruct Hcases as [[_ ->] | [_ ->]]; auto. }
  assert (Hfit : columns_fit (variables env events objs) (Weights_weight W)
                   (ps_size sel)).
  { rewrite Hsize. constructor; assumption. }
  unfold process.
  do 5 (erewrite bind_step by reflexivity).
  cbn [_year _yearmod _lepton_flavor array_dict].
  unfold lift at 1. erewrite bind_step by (rewrite Hobj; reflexivity).
  unfold lift at 1. erewrite bind_step by (rewrite Hw; reflexivity).
  erewrite bind_step
    by (apply register_selections_ok with (names_ele := ne) (names_mu := nm)
          (names_mf := nf); assumption).
  erewrite bind_step by (apply dict_getitem_ok; exact Hreg).
  erewrite bind_step by reflexivity.
  fold sel.
  unfold lift at 1.
  erewrite bind_step;
    [| rewrite cutflow_loop_spec;
       [ reflexivity | congruence | exact Hregd
       | simpl; destruct Hcases as [[_ ->] | [_ ->]];
         repeat constructor; simpl; intuition discriminate ] ].
  set (s1 := with_selections _ sel).
  assert (Hpre1 : prefix_from 0 s1) by exact Hpre.
  destruct (@for_regions_selected env (variables env events objs)
              (Weights_weight W) (array_dict s) s1 sel cuts)
    as (s2 & Hfor & Hfeat);
    try assumption; try reflexivity.
  { unfold mask in Hcount. rewrite <- Hsize in Hcount. exact Hcount. }
  erewrite bind_step by exact Hfor.
  erewrite bind_step by reflexivity.
  eexists _, s2. split; [reflexivity|]. simpl.
  unfold feats, mask. rewrite <- Hsize.
  repeat split; try reflexivity. exact Hfeat.
Qed.

Lemma selected_features_lengths (vars : EventVariables) (w : list Q)
    (mask : list bool) :
  columns_fit vars w (List.length mask) ->
  Forall (fun kv => List.length (snd kv) = count_true mask)
         (selected_features vars w mask).
Proof.
  intros [H1 H2 H3 H4 H5 H6 H7 H8 H9]. unfold selected_features.
  repeat (apply Forall_cons;
          [simpl; rewrite ?length_map; apply length_mask_select; assumption|]).
  apply Forall_nil.
Qed.

(** X17: on an instance with any history, a chunk that runs through and
    selects at least one event returns a table with exactly the nine feature
    names in order; each entry is [normalize] of the column selected by the
    region mask, each selected column has [events_after] entries, and the
    instance keeps these columns in [self.features]. *)
Theorem feature_table_contents (env : Environment)
    (year yearmod flavor otype : string) (history : list Events)
    (events : Events) (cuts : list string) (objs : Objects) (W : Weights)
    (ne nm nf : list string) :
  let s := process_all env history
             (ZToLLProcessor_init year yearmod flavor otype) in
  let sel := registry env (_year s) events (has_genWeight events) objs ne nm nf in
  let feats :=
    selected_features (variables env events objs) (Weights_weight W)
      (region_mask sel cuts (len events)) in
  ready env s events cuts objs W ne nm nf ->
  passing sel cuts (len events) <> [] ->
  exists out s',
    process env events s = (inr out, s') /\
    arrays out = normalized env feats /\
    Dict.keys (arrays out) = feature_names /\
    Forall (fun kv => List.length (snd kv) = events_after (metadata out)) feats /\
    features s' = feats.
Proof.
  intros s sel feats Hready Hsome.
  assert (Hpre : prefix_from 0 s).
  { assert (H : base_rel (ZToLLProcessor_init year yearmod flavor otype) s
                  (ZToLLProcessor_init year yearmod flavor otype)).
    { apply base_rel_process_all. apply base_rel_init. }
    destruct H as (_ & H & _). exact H. }
  assert (Hcount : count_true (region_mask sel cuts (len events)) <> 0).
  { rewrite count_true_region_mask. intros H0.
    apply Hsome. apply length_zero_iff_nil. exact H0. }
  destruct (@process_selected env s events cuts objs W ne nm nf Hready Hpre
              Hcount) as (out & s' & Hrun & Harr & Hafter & Hfeat).
  exists out, s'. split; [exact Hrun|]. split; [exact Harr|].
  split; [rewrite Harr; reflexivity|]. split; [|exact Hfeat].
  rewrite Hafter. apply selected_features_lengths.
  pose proof (object_selection_shape _ _ _ _ _ _ (ready_objects Hready)) as Hws.
  pose proof (variables_shape env Hws) as Hv. cbv zeta in Hv.
  destruct Hv as (V1 & V2 & V3 & V4 & V5 & V6 & V7 & V8).
  rewrite length_region_mask.
  constructor; try assumption. exact (ready_shape Hready).
Qed.

Lemma feature_table_contents_witness :
  exists out s',
    process Example.env Example.data_chunk
      (process_all Example.env [ExampleHistory.quiet_chunk] Example.processor)
      = (inr out, s') /\
    arrays out =
      normalized Example.env
        (selected_features
           (variables Example.env Example.data_chunk
              (ExampleRun.objects Example.data_chunk))
           (Weights_weight (ExampleRun.weights Example.data_chunk))
           (region_mask
              (registry Example.env "2017" Example.data_chunk false
                 (ExampleRun.objects Example.data_chunk)
                 ExampleRun.names_ele ExampleRun.names_mu
                 (ExampleRun.names_mf Example.data_chunk))
              ele_cuts 2)) /\
    Dict.keys (arrays out) = feature_names /\
    Forall (fun kv => List.length (snd kv) = events_after (metadata out))
      (selected_features
         (variables Example.env Example.data_chunk
            (ExampleRun.objects Example.data_chunk))
         (Weights_weight (ExampleRun.weights Example.data_chunk))
         (region_mask
            (registry Example.env "2017" Example.data_chunk false
               (ExampleRun.objects Example.data_chunk)
               ExampleRun.names_ele ExampleRun.names_mu
               (ExampleRun.names_mf Example.data_chunk))
            ele_cuts 2)) /\
    features s' =
      selected_features
        (variables Example.env Example.data_chunk
           (ExampleRun.objects Example.data_chunk))
        (Weights_weight (ExampleRun.weights Example.data_chunk))
        (region_mask
           (registry Example.env "2017" Example.data_chunk false
              (ExampleRun.objects Example.data_chunk)
              ExampleRun.names_ele ExampleRun.names_mu
              (ExampleRun.names_mf Example.data_chunk))
           ele_cuts 2).
Proof.
  apply (@feature_table_contents Example.env
           "2017" EmptyString "ele" "array" [ExampleHistory.quiet_chunk]
           Example.data_chunk ele_cuts
           (ExampleRun.objects Example.data_chunk)
           (ExampleRun.weights Example.data_chunk)
           ExampleRun.names_ele ExampleRun.names_mu
           (ExampleRun.names_mf Example.data_chunk)).
  - example_ready.
  - vm_compute. discriminate.
Defined.


(** * Properties of the submission script *)
Lemma append_inj_l (s a b : string) : (s ++ a = s ++ b)%string -> a = b.
Proof.
  induction s as [|c s IH]; simpl; intros H; [exact H|].
  injection H as H. auto.
Qed.

Lemma append_not_self (s : string) (c : ascii) (t : string) :
  s <> (s ++ String c t)%string.
Proof.
  induction s as [|d s IH]; simpl; [discriminate|].
  intros H. injection H as H. exact (IH H).
Qed.

Lemma to_int_not_nil (z : Z) :
  Z.to_int z <> Decimal.Pos Decimal.Nil /\ Z.to_int z <> Decimal.Neg Decimal.Nil.
Proof.
  destruct z as [|p|p]; simpl; split; try discriminate; intros H;
    injection H as H; exact (DecimalPos.Unsigned.to_uint_nonnil p H).
Qed.

Lemma format_int_inj (a b : Z) : format (PInt a) = format (PInt b) -> a = b.
Proof.
  simpl. intros H.
  destruct (to_int_not_nil a) as [Ha1 Ha2].
  destruct (to_int_not_nil b) as [Hb1 Hb2].
  pose proof (DecimalString.NilZero.isi _ Ha1 Ha2) as Ia.
  pose proof (DecimalString.NilZero.isi _ Hb1 Hb2) as Ib.
  rewrite H in Ia. rewrite Ia in Ib. injection Ib as Ib.
  apply DecimalZ.to_int_inj. exact Ib.
Qed.

Lemma jobname_nsample_inj (args : Args) (a b : Z) :
  get_jobname (set_nsample args (PInt a))
    = get_jobname (set_nsample args (PInt b)) -> a = b.
Proof.
  unfold get_jobname. cbn [set_nsample args_processor args_channel
    args_lepton_flavor args_sample args_nsample truth].
  set (base := (_ ++ "_" ++ args_sample args)%string).
  destruct (Z.eqb_spec a 0) as [-> | Ha], (Z.eqb_spec b 0) as [-> | Hb];
    cbn [negb]; intros H.
  - reflexivity.
  - exfalso. exact (@append_not_self _ _ _ H).
  - exfalso. symmetry in H. exact (@append_not_self _ _ _ H).
  - apply append_inj_l in H. injection H as H.
    apply format_int_inj. exact H.
Qed.

(** X18: two partitions of one submission never get the same job name:
    the names built for the partition numbers [a] and [b] from the same
    arguments are equal only if [a = b]. *)
Theorem partition_job_names_differ (args : Args) (a b : Z) :
  get_jobname (set_nsample args (PInt a))
    = get_jobname (set_nsample args (PInt b)) -> a = b.
Proof. apply jobname_nsample_inj. Qed.

Lemma partition_job_names_differ_witness :
  get_jobname (set_nsample (mkArgs "ztoll" EmptyString "ele" "2017" "DYJets"
                              (PStr EmptyString) []) (PInt 3))
    = get_jobname (set_nsample (mkArgs "ztoll" EmptyString "ele" "2017"
                                  "DYJets" (PStr EmptyString) []) (PInt 3))
  /\ 3%Z = 3%Z.
Proof.
  split; [reflexivity|].
  apply (@partition_job_names_differ
           (mkArgs "ztoll" EmptyString "ele" "2017" "DYJets"
              (PStr EmptyString) []) 3 3).
  reflexivity.
Defined.

Lemma jobpath_set_nsample (args : Args) (v : pyval) :
  get_jobpath (set_nsample args v) = get_jobpath args.
Proof. reflexivity. Qed.

Lemma submit_condor_ok (home info : string) (args : Args)
    (cmd flavor : string) (submit : bool) (localpath : string)
    (log : list action) :
  x509_localpath info = Some localpath ->
  submit_condor home info args cmd flavor submit log
    = (inr tt,
       (log ++ job_actions args cmd flavor submit localpath
                 (home ++ "/private/"
                    ++ last (split "/"%char localpath) EmptyString))%list).
Proof.
  intros H. unfold submit_condor, move_X509, job_bind, perform, job_ret,
    job_actions.
  rewrite H. destruct submit; cbn [app]; rewrite <- !app_assoc; reflexivity.
Qed.

Lemma for_nsplit_ok (get_command : Args -> string) (home info : string)
    (submit : bool) (localpath : string) (nsplits : list Z) :
  x509_localpath info = Some localpath ->
  forall (args : Args) (log : list action),
  for_nsplit get_command home info args submit nsplits log
    = (inr tt,
       (log ++ flat_map (fun k =>
                 job_actions (set_nsample args (PInt k))
                   (get_command (set_nsample args (PInt k))) "workday" submit
                   localpath
                   (home ++ "/private/"
                      ++ last (split "/"%char localpath) EmptyString))
               nsplits)%list).
Proof.
  intros H. induction nsplits as [|k rest IH]; intros args log.
  - cbn [for_nsplit flat_map]. unfold job_ret. rewrite app_nil_r. reflexivity.
  - cbn [for_nsplit flat_map]. unfold job_bind at 1.
    erewrite submit_condor_ok by exact H.
    rewrite IH. rewrite <- app_assoc. reflexivity.
Qed.

Lemma projections_of_jobs (args : Args) (cmd : Args -> string)
    (flavor : string) (submit : bool) (localpath dst : string)
    (nsplits : list Z) :
  let log := flat_map (fun k =>
               job_actions (set_nsample args (PInt k))
                 (cmd (set_nsample args (PInt k))) flavor submit localpath dst)
               nsplits in
  job_paths log = repeat (get_jobpath args) (List.length nsplits) /\
  job_flavors log = repeat flavor (List.length nsplits) /\
  job_names log
    = map (fun k => get_jobname (set_nsample args (PInt k))) nsplits /\
  executables log
    = map (fun k => get_jobname (set_nsample args (PInt k))) nsplits /\
  submitted log
    = (if submit
       then map (fun k => get_jobname (set_nsample args (PInt k))) nsplits
       else []).
Proof.
  cbv zeta. unfold job_paths, job_flavors, job_names, executables, submitted.
  induction nsplits as [|k rest (I1 & I2 & I3 & I4 & I5)].
  - destruct submit; repeat split; reflexivity.
  - cbn [flat_map]. rewrite !flat_map_app, I1, I2, I3, I4, I5.
    unfold job_actions. rewrite jobpath_set_nsample.
    destruct submit; repeat split; reflexivity.
Qed.

Lemma partition_names_nodup (args : Args) (n : nat) :
  NoDup (map (fun k => get_jobname (set_nsample args (PInt k)))
           (map Z.of_nat (seq 1 n))).
Proof.
  rewrite map_map. generalize (seq_NoDup n 1).
  induction (seq 1 n) as [|k ks IH]; intros Hnd; [constructor|].
  inversion Hnd as [|? ? Hk Hks]; subst. cbn [map]. constructor; [|auto].
  intros Hin. apply in_map_iff in Hin as (j & Hj & Hin).
  apply jobname_nsample_inj in Hj. apply Nat2Z.inj in Hj. subst j. auto.
Qed.

(** X19: when the proxy is found, [main] goes through and writes one job
    per file list: the single job of an unsplit sample under the name of the
    arguments with flavor longlunch, otherwise the partitions 1..n with
    flavor workday.  All jobs of a run share the job path, their names are
    pairwise different, each gets its executable, and every job is submitted
    if [submit] is set and none otherwise. *)
Theorem main_writes_one_job_per_partition
    (get_command : Args -> string) (home info : string) (args : Args)
    (submit : bool) (root_files_list : list (list string))
    (localpath : string) :
  x509_localpath info = Some localpath ->
  let n := List.length root_files_list in
  exists log,
    main get_command home info args submit root_files_list [] = (inr tt, log) /\
    job_names log
      = (if n =? 1 then [get_jobname args]
         else map (partition_name args) (seq 1 n)) /\
    NoDup (job_names log) /\
    job_paths log = repeat (get_jobpath args) n /\
    job_flavors log = repeat (if n =? 1 then "longlunch" else "workday") n /\
    executables log = job_names log /\
    submitted log = (if submit then job_names log else []).
Proof.
  intros H n. unfold main. fold n. destruct (Nat.eqb_spec n 1) as [E | E].
  - erewrite submit_condor_ok by exact H. eexists. split; [reflexivity|].
    rewrite E. unfold job_actions.
    destruct submit; cbn; repeat split; try reflexivity;
      repeat constructor; simpl; tauto.
  - erewrite for_nsplit_ok by exact H. eexists.
    split; [reflexivity|]. cbn [app].
    destruct (projections_of_jobs args get_command "workday" submit localpath
                (home ++ "/private/"
                   ++ last (split "/"%char localpath) EmptyString)
                (map Z.of_nat (seq 1 n))) as (P1 & P2 & P3 & P4 & P5).
    rewrite length_map, length_seq in P1, P2.
    rewrite P1, P2, P3, P4, P5.
    repeat split; try reflexivity.
    + rewrite map_map. reflexivity.
    + apply partition_names_nodup.
Qed.

Lemma main_writes_one_job_per_partition_witness :
  exists log,
    main (fun _ => "python3 submit.py") "/afs/cern.ch/user/j/jdoe"
      "path      : /tmp/x509up_u1000"
      (mkArgs "ztoll" EmptyString "ele" "2017" "DYJets" (PStr EmptyString) [])
      true [["a.root"]; ["b.root"]] [] = (inr tt, log) /\
    job_names log = ["ztoll_ele_DYJets_1"; "ztoll_ele_DYJets_2"] /\
    submitted log = ["ztoll_ele_DYJets_1"; "ztoll_ele_DYJets_2"].
Proof.
  destruct (@main_writes_one_job_per_partition
              (fun _ => "python3 submit.py") "/afs/cern.ch/user/j/jdoe"
              "path      : /tmp/x509up_u1000"
              (mkArgs "ztoll" EmptyString "ele" "2017" "DYJets"
                 (PStr EmptyString) [])
              true [["a.root"]; ["b.root"]] "/tmp/x509up_u1000" eq_refl)
    as (log & Hrun & Hnames & _ & _ & _ & _ & Hsub).
  exists log. split; [exact Hrun|]. split.
  - exact Hnames.
  - rewrite Hsub. exact Hnames.
Defined.

(** X20: when the proxy cannot be parsed, a run with at least one file
    list stops with the RuntimeError of [move_X509] in its first job: the
    condor file of that job is written, and no executable is written, no
    proxy copied and nothing submitted. *)
Theorem main_without_proxy_submits_nothing
    (get_command : Args -> string) (home info : string) (args : Args)
    (submit : bool) (root_files_list : list (list string)) :
  x509_localpath info = None ->
  root_files_list <> [] ->
  exists jobname flavor,
    main get_command home info args submit root_files_list []
      = (inl proxy_error,
         [WriteCondorFile (get_jobpath args) jobname (args_processor args)
            (args_year args) flavor]).
Proof.
  intros H Hne. unfold main.
  destruct root_files_list as [|f [|g rest]]; [congruence| |].
  - cbn [List.length Nat.eqb]. do 2 eexists.
    unfold submit_condor, move_X509, job_bind, perform, job_raise.
    rewrite H. reflexivity.
  - cbn [List.length Nat.eqb seq map for_nsplit]. do 2 eexists.
    unfold job_bind at 1.
    unfold submit_condor, move_X509, job_bind, perform, job_raise.
    rewrite H. reflexivity.
Qed.

Lemma main_without_proxy_submits_nothing_witness :
  exists jobname flavor,
    main (fun _ => "python3 submit.py") "/afs/cern.ch/user/j/jdoe"
      "Proxy not found"
      (mkArgs "ztoll" EmptyString "mu" "2017" "DYJets" (PStr EmptyString) [])
      true [["a.root"]; ["b.root"]] []
      = (inl proxy_error,
         [WriteCondorFile "ztoll/mu/2017/DYJets" jobname "ztoll" "2017"
            flavor]).
Proof.
  apply (@main_without_proxy_submits_nothing
           (fun _ => "python3 submit.py") "/afs/cern.ch/user/j/jdoe"
           "Proxy not found"
           (mkArgs "ztoll" EmptyString "mu" "2017" "DYJets"
              (PStr EmptyString) [])
           true [["a.root"]; ["b.root"]]).
  - reflexivity.
  - discriminate.
Defined.

Lemma split_nonempty (c : ascii) (s : string) : split c s <> [].
Proof.
  destruct s as [|d s]; simpl; [discriminate|].
  destruct (Ascii.eqb d c); [discriminate|].
  destruct (split c s); discriminate.
Qed.

Lemma split_no_sep (c : ascii) (s w : string) :
  In w (split c s) -> contains c w = false.
Proof.
  revert w. induction s as [|d s IH]; intros w; simpl.
  - intros [<- | []]. reflexivity.
  - destruct (Ascii.eqb d c) eqn:E.
    + intros [<- | Hin]; [reflexivity | auto].
    + destruct (split c s) as [|w0 ws] eqn:Es.
      * intros [<- | []]. simpl. rewrite E. reflexivity.
      * intros [<- | Hin].
        -- simpl. rewrite E. apply IH. left. reflexivity.
        -- apply IH. right. exact Hin.
Qed.

Lemma split_chars (c d : ascii) (s w : string) :
  In w (split c s) -> contains d w = true -> contains d s = true.
Proof.
  revert w. induction s as [|e s IH]; intros w; simpl.
  - intros [<- | []]. discriminate.
  - destruct (Ascii.eqb e c) eqn:E.
    + intros [<- | Hin] Hd; [discriminate|].
      rewrite (IH _ Hin Hd). apply orb_true_r.
    + destruct (split c s) as [|w0 ws] eqn:Es.
      * intros [<- | []]. simpl. rewrite orb_false_r. intros ->. reflexivity.
      * intros [<- | Hin] Hd.
        -- simpl in Hd. apply orb_true_iff in Hd as [-> | Hd];
             [reflexivity|].
           rewrite (IH w0); [apply orb_true_r | left; reflexivity | exact Hd].
        -- rewrite (IH w); [apply orb_true_r | right; exact Hin | exact Hd].
Qed.

Lemma last_in (A : Type) (l : list A) (d : A) : l <> [] -> In (last l d) l.
Proof.
  induction l as [|a [|b l] IH]; intros Hne; [congruence | left; reflexivity|].
  right. apply IH. discriminate.
Qed.

Lemma split_single (c : ascii) (s w : string) : split c s = [w] -> s = w.
Proof.
  revert w. induction s as [|d s IH]; intros w; simpl.
  - intros [= <-]. reflexivity.
  - destruct (Ascii.eqb d c).
    + intros [= _ Hs]. destruct (split_nonempty _ _ Hs).
    + destruct (split c s) as [|w0 ws] eqn:Es.
      * destruct (split_nonempty _ _ Es).
      * intros [= <- ->]. rewrite (IH w0 eq_refl). reflexivity.
Qed.

Lemma last_split_suffix (c : ascii) (s : string) :
  exists dir, s = (dir ++ last (split c s) EmptyString)%string.
Proof.
  induction s as [|d s [dir IH]].
  - exists EmptyString. reflexivity.
  - cbn [split]. destruct (Ascii.eqb d c).
    + exists (String d dir).
      destruct (split c s) as [|w0 ws] eqn:Es;
        [destruct (split_nonempty _ _ Es)|].
      change (last (EmptyString :: w0 :: ws) EmptyString)
        with (last (w0 :: ws) EmptyString).
      cbn [append]. rewrite <- IH. reflexivity.
    + destruct (split c s) as [|w0 [|w1 ws]] eqn:Es.
      * destruct (split_nonempty _ _ Es).
      * exists EmptyString. apply split_single in Es. subst w0. reflexivity.
      * exists (String d dir).
        change (last (String d w0 :: w1 :: ws) EmptyString)
          with (last (w0 :: w1 :: ws) EmptyString).
        cbn [append]. rewrite <- IH. reflexivity.
Qed.

Lemma lstrip_chars (d : ascii) (s : string) :
  contains d (lstrip s) = true -> contains d s = true.
Proof.
  induction s as [|c s IH]; simpl; [auto|].
  destruct (isspace c); [|auto].
  intros H. rewrite (IH H). apply orb_true_r.
Qed.

Lemma rstrip_chars (d : ascii) (s : string) :
  contains d (rstrip s) = true -> contains d s = true.
Proof.
  induction s as [|c s IH]; cbn [rstrip]; [auto|].
  destruct (rstrip s) as [|k kept].
  - destruct (isspace c); simpl; [discriminate|].
    rewrite orb_false_r. intros ->. reflexivity.
  - intros H. change (Ascii.eqb c d || contains d (String k kept) = true) in H.
    simpl. apply orb_true_iff in H as [-> | H]; [reflexivity|].
    rewrite (IH H). apply orb_true_r.
Qed.

Lemma rstrip_idem (s : string) : rstrip (rstrip s) = rstrip s.
Proof.
  induction s as [|c s IH]; [reflexivity|].
  cbn [rstrip]. destruct (rstrip s) as [|k kept] eqn:E.
  - destruct (isspace c) eqn:Ec; [reflexivity|].
    cbn [rstrip]. rewrite Ec. reflexivity.
  - change (rstrip (String c (String k kept)))
      with (match rstrip (String k kept) with
            | EmptyString =>
                if isspace c then EmptyString else String c EmptyString
            | kept0 => String c kept0
            end).
    rewrite IH. reflexivity.
Qed.

Lemma lstrip_head (s : string) (c : ascii) (rest : string) :
  lstrip s = String c rest -> isspace c = false.
Proof.
  induction s as [|d s IH]; simpl; [discriminate|].
  destruct (isspace d) eqn:E; [exact IH|].
  intros [= <- _]. exact E.
Qed.

Lemma lstrip_rstrip (s : string) :
  lstrip (rstrip (lstrip s)) = rstrip (lstrip s).
Proof.
  destruct (lstrip s) as [|c rest] eqn:E; [reflexivity|].
  apply lstrip_head in E. cbn [rstrip].
  destruct (rstrip rest); rewrite ?E; cbn [lstrip]; rewrite E; reflexivity.
Qed.

Lemma strip_idem (s : string) : strip (strip s) = strip s.
Proof.
  unfold strip. rewrite lstrip_rstrip. apply rstrip_idem.
Qed.

Lemma strip_chars (d : ascii) (s : string) :
  contains d (strip s) = true -> contains d s = true.
Proof.
  unfold strip. intros H. apply lstrip_chars, rstrip_chars. exact H.
Qed.

Lemma not_contains (d : ascii) (s t : string) :
  (contains d t = true -> contains d s = true) ->
  contains d s = false -> contains d t = false.
Proof.
  intros H Hs. destruct (contains d t); [|reflexivity].
  rewrite H in Hs; [discriminate | reflexivity].
Qed.

Lemma x509_localpath_line (info localpath : string) :
  x509_localpath info = Some localpath ->
  exists line,
    In line (split "010"%char info) /\ startswith line "path" = true /\
    localpath = strip (last (split ":"%char line) EmptyString).
Proof.
  unfold x509_localpath.
  destruct (filter _ _) as [|line rest] eqn:E; [discriminate|].
  intros [= <-]. exists line.
  assert (Hin : In line (filter (fun line0 => startswith line0 "path")
                           (split "010"%char info)))
    by (rewrite E; left; reflexivity).
  apply filter_In in Hin as [Hin Hp]. auto.
Qed.

(** X21: the proxy path [move_X509] reads from the output of
    [voms-proxy-info] comes from a line that starts with [path], holds no
    colon and no line break, and has no white space at either end. *)
Theorem parsed_proxy_path_is_clean (info localpath : string) :
  x509_localpath info = Some localpath ->
  (exists line, In line (split "010"%char info) /\
                startswith line "path" = true) /\
  contains ":"%char localpath = false /\
  contains "010"%char localpath = false /\
  strip localpath = localpath.
Proof.
  intros H. destruct (x509_localpath_line _ H) as (line & Hin & Hp & ->).
  split; [exists line; auto|].
  assert (Hlast : In (last (split ":"%char line) EmptyString)
                    (split ":"%char line))
    by (apply last_in, split_nonempty).
  split; [|split].
  - apply not_contains with (s := last (split ":"%char line) EmptyString).
    + apply strip_chars.
    + apply split_no_sep with (s := line). exact Hlast.
  - apply not_contains with (s := line).
    + intros Hc. apply strip_chars in Hc.
      apply (@split_chars _ _ _ _ Hlast Hc).
    + apply split_no_sep with (s := info). exact Hin.
  - apply strip_idem.
Qed.

Lemma parsed_proxy_path_is_clean_witness :
  contains ":"%char "/tmp/x509up_u1000" = false /\
  strip "/tmp/x509up_u1000" = "/tmp/x509up_u1000".
Proof.
  destruct (@parsed_proxy_path_is_clean
              ("subject   : /DC=ch/DC=cern/CN=jdoe"
                 ++ String "010"%char "path      : /tmp/x509up_u1000 "
                 ++ String "010"%char "timeleft  : 11:59:58")
              "/tmp/x509up_u1000" eq_refl) as (_ & H1 & _ & H2).
  split; assumption.
Defined.

(** X22: when the proxy is found, [move_X509] copies it once, to a file
    directly in the [private] directory of the home directory: the file name
    is the end of the proxy path and holds no slash, and the returned path is
    the destination of the copy. *)
Theorem move_X509_copies_into_private (home info localpath : string)
    (log : list action) :
  x509_localpath info = Some localpath ->
  exists dir name,
    localpath = (dir ++ name)%string /\
    contains "/"%char name = false /\
    move_X509 home info log
      = (inr (home ++ "/private/" ++ name)%string,
         (log ++ [Copy localpath (home ++ "/private/" ++ name)%string])%list).
Proof.
  intros H. destruct (last_split_suffix "/"%char localpath) as [dir Hdir].
  exists dir, (last (split "/"%char localpath) EmptyString).
  split; [exact Hdir|]. split.
  - apply split_no_sep with (s := localpath).
    apply last_in, split_nonempty.
  - unfold move_X509. rewrite H. reflexivity.
Qed.

Lemma move_X509_copies_into_private_witness :
  exists dir name,
    "/tmp/x509up_u1000" = (dir ++ name)%string /\
    contains "/"%char name = false /\
    move_X509 "/afs/cern.ch/user/j/jdoe" "path      : /tmp/x509up_u1000" []
      = (inr ("/afs/cern.ch/user/j/jdoe" ++ "/private/" ++ name)%string,
         [Copy "/tmp/x509up_u1000"
            ("/afs/cern.ch/user/j/jdoe" ++ "/private/" ++ name)%string]).
Proof.
  apply (@move_X509_copies_into_private "/afs/cern.ch/user/j/jdoe"
           "path      : /tmp/x509up_u1000" "/tmp/x509up_u1000" [] eq_refl).
Defined.

(** X23: [move_X509] raises its RuntimeError exactly when no line of the
    output of [voms-proxy-info] starts with [path], and it then copies
    nothing. *)
Theorem move_X509_raises_iff_no_path_line (home info : string)
    (log : list action) :
  (forall line, In line (split "010"%char info) ->
                startswith line "path" = false)
  <-> move_X509 home info log = (inl proxy_error, log).
Proof.
  unfold move_X509, x509_localpath. split.
  - intros Hall.
    destruct (filter _ _) as [|line rest] eqn:E; [reflexivity|].
    assert (Hin : In line (filter (fun line0 => startswith line0 "path")
                             (split "010"%char info)))
      by (rewrite E; left; reflexivity).
    apply filter_In in Hin as [Hin Hp]. rewrite (Hall _ Hin) in Hp.
    discriminate.
  - destruct (filter _ _) as [|l rest] eqn:E; [|discriminate].
    intros _ line Hin. destruct (startswith line "path") eqn:Hp; [|reflexivity].
    assert (Hf : In line (filter (fun line0 => startswith line0 "path")
                            (split "010"%char info)))
      by (apply filter_In; auto).
    rewrite E in Hf. destruct Hf.
Qed.


Lemma good_leptons_known_flavor (env : Environment) (flavor : string)
    (events : Events) :
  flavor = "ele" \/ flavor = "mu" ->
  exists leptons, good_leptons env flavor events = inr leptons.
Proof.
  unfold good_leptons. intros [-> | ->]; simpl; eexists; reflexivity.
Qed.

Lemma genweight_of_empty_chunk (env : Environment)
    (year yearmod flavor : string) (events : Events)
    (jets : list (list JetObj)) :
  rows events = [] ->
  weights_container env year yearmod flavor events true jets
    = inl (ValueError
             "zero-size array to reduction operation minimum which has no identity").
Proof.
  intros Hrows. unfold weights_container, mc_weights, len. rewrite Hrows.
  reflexivity.
Qed.

(** X24: a simulated chunk without events never gets through [process] on
    an electron or muon instance: registering its zero-length generator
    weight raises the ValueError of the weights container, before any
    selection is made; by then only [self.is_mc] has been written. *)
Theorem empty_simulation_raises (env : Environment) (events : Events)
    (s : ZToLLProcessor) :
  rows events = [] -> has_genWeight events = true ->
  _lepton_flavor s = "ele" \/ _lepton_flavor s = "mu" ->
  process env events s =
    (inl (ValueError
            "zero-size array to reduction operation minimum which has no identity"),
     snd (set_is_mc true s)).
Proof.
  intros Hrows Hmc Hfl. unfold process. rewrite Hmc.
  do 5 (erewrite bind_step by reflexivity).
  cbn [_year _yearmod _lepton_flavor array_dict set_is_mc snd].
  destruct (good_leptons_known_flavor env events Hfl) as [leptons Hl].
  erewrite bind_step
    by (unfold lift, object_selection; rewrite Hl; reflexivity).
  apply bind_fail. unfold lift.
  rewrite genweight_of_empty_chunk by exact Hrows. reflexivity.
Qed.

Lemma empty_simulation_raises_witness :
  process Example.env ExampleHistory.no_simulated_events
    (process_all Example.env [Example.mc_chunk] Example.processor) =
    (inl (ValueError
            "zero-size array to reduction operation minimum which has no identity"),
     snd (set_is_mc true
            (process_all Example.env [Example.mc_chunk] Example.processor))).
Proof.
  apply (@empty_simulation_raises Example.env
           ExampleHistory.no_simulated_events
           (process_all Example.env [Example.mc_chunk] Example.processor)).
  - reflexivity.
  - reflexivity.
  - left. vm_compute. reflexivity.
Defined.

